(** * pdf-rule-checker: the request pipeline of [server/index.js]

    A shallow embedding of the Express handler [POST /api/check-pdf] and of
    [checkRuleWithLLM], and of the event handlers of the client component
    [client/src/App.jsx], followed by the properties of the pipeline.

    Conventions of the embedding.
    - A JavaScript string is a [string]: a sequence of code units below 256
      (Latin-1).  [length], [substring], [trim] and [toLowerCase] are the
      JavaScript operations restricted to such strings.
    - A JavaScript number is kept in the decimal form that [Number::toString]
      prints: a sign, a digit string [s] and an exponent [e] with value
      [s * 10^e].
    - The external collaborators ([JSON.parse], [pdf-parse], the OpenAI
      client) are parameters of the model.  A thrown exception is
      represented by its [message].
    - [console.error] and [console.log] are not modelled. *)

From Stdlib Require Import ZArith Lia Bool List Sorted Ascii String.
From Stdlib Require Import DecimalString DecimalPos DecimalFacts.
From stdpp Require Import base option list strings gmap.

#[local] Open Scope Z_scope.

(** ** Strings *)

Module JsString.

Definition code (c : ascii) : Z := Z.of_N (N_of_ascii c).

Definition chr (n : Z) : ascii := ascii_of_N (Z.to_N n).

Definition str (c : ascii) : string := String c EmptyString.

(** The double quote and the line feed, which a literal cannot hold. *)
Definition dquote : string := str (chr 34).
Definition nl : string := str (chr 10).

(** WhiteSpace and LineTerminator code units below 256: TAB, LF, VT, FF,
    CR, SP and NBSP. *)
Definition is_space (c : ascii) : bool :=
  let n := code c in
  ((9 <=? n) && (n <=? 13)) || (n =? 32) || (n =? 160).

Fixpoint trimStart (s : string) : string :=
  match s with
  | EmptyString => EmptyString
  | String c s' => if is_space c then trimStart s' else s
  end.

Fixpoint trimEnd (s : string) : string :=
  match s with
  | EmptyString => EmptyString
  | String c s' =>
      match trimEnd s' with
      | EmptyString => if is_space c then EmptyString else str c
      | t => String c t
      end
  end.

(** [String.prototype.trim] *)
Definition trim (s : string) : string := trimEnd (trimStart s).

Fixpoint whitespace_only (s : string) : bool :=
  match s with
  | EmptyString => true
  | String c s' => is_space c && whitespace_only s'
  end.

(** Lower-case mapping of one code unit: A-Z, and the Latin-1 capitals
    U+00C0..U+00DE except the multiplication sign U+00D7. *)
Definition lower_char (c : ascii) : ascii :=
  let n := code c in
  if ((65 <=? n) && (n <=? 90))
     || ((192 <=? n) && (n <=? 222) && negb (n =? 215))
  then chr (n + 32) else c.

(** [String.prototype.toLowerCase] *)
Fixpoint toLowerCase (s : string) : string :=
  match s with
  | EmptyString => EmptyString
  | String c s' => String (lower_char c) (toLowerCase s')
  end.

(** [String.prototype.substring(i, j)]: the code units from the smaller
    of the two indices up to the larger. *)
Definition substring (i j : nat) (s : string) : string :=
  String.substring (Nat.min i j) (Nat.max i j - Nat.min i j) s.

Fixpoint repeat0 (n : nat) : string :=
  match n with
  | O => EmptyString
  | S n' => String (chr 48) (repeat0 n')
  end.

Fixpoint take_chars (n : nat) (s : string) : string :=
  match n, s with
  | S n', String c s' => String c (take_chars n' s')
  | _, _ => EmptyString
  end.

Fixpoint drop_chars (n : nat) (s : string) : string :=
  match n, s with
  | S n', String c s' => drop_chars n' s'
  | _, _ => s
  end.

End JsString.

Import JsString.

(** ** Completions

    A call either returns a value or throws; the exception is represented
    by the text of its [message] property. *)

Inductive completion (A : Type) : Type :=
| Ok (a : A)
| Throw (message : string).

Arguments Ok {A} a.
Arguments Throw {A} message.

#[export] Instance completion_ret : MRet completion := fun A a => Ok a.

#[export] Instance completion_bind : MBind completion :=
  fun A B f c => match c with Ok a => f a | Throw m => Throw m end.

(** ** Numbers *)

(** A number as [JSON.parse] returns it.  [NFin neg s e] is
    [(-1)^neg * s * 10^e], the shortest decimal form of the double, so that
    [s] has no trailing zero; nothing below relies on that. *)
Inductive number : Type :=
| NZero
| NFin (neg : bool) (s : positive) (e : Z)
| NInf (neg : bool).

Definition decimal_digits (n : N) : string :=
  NilEmpty.string_of_uint (N.to_uint n).

(** Integer part of the absolute value. *)
Definition magnitude_trunc (s : positive) (e : Z) : Z :=
  if 0 <=? e then Z.pos s * 10 ^ e else Z.pos s / 10 ^ (- e).

(** The number rounded towards zero. *)
Definition trunc (x : number) : option Z :=
  match x with
  | NZero => Some 0
  | NFin neg s e =>
      Some (if neg then - magnitude_trunc s e else magnitude_trunc s e)
  | NInf _ => None
  end.

(** [Number::toString] of a positive finite number, radix 10. *)
Definition positive_toString (s : positive) (e : Z) : string :=
  let d := decimal_digits (Npos s) in
  let k := Z.of_nat (String.length d) in
  let n := k + e in
  if (-5 <=? n) && (n <=? 21) then
    if k <=? n then d +:+ repeat0 (Z.to_nat (n - k))
    else if 0 <? n then take_chars (Z.to_nat n) d +:+ "." +:+ drop_chars (Z.to_nat n) d
    else "0." +:+ repeat0 (Z.to_nat (- n)) +:+ d
  else
    let c := if n - 1 <? 0 then "-" else "+" in
    let x := decimal_digits (Z.to_N (Z.abs (n - 1))) in
    match d with
    | EmptyString => EmptyString
    | String c1 EmptyString => str c1 +:+ "e" +:+ c +:+ x
    | String c1 cs => str c1 +:+ "." +:+ cs +:+ "e" +:+ c +:+ x
    end.

Definition Number_toString (x : number) : string :=
  match x with
  | NZero => "0"
  | NFin neg s e => (if neg then "-" else "") +:+ positive_toString s e
  | NInf neg => if neg then "-Infinity" else "Infinity"
  end.

(** ** Values *)

(** The values [JSON.parse] builds, and [undefined] for absent properties.
    An object lists its own properties in insertion order. *)
#[warnings="-register-all"]
Inductive value : Type :=
| VUndef
| VNull
| VBool (b : bool)
| VNum (x : number)
| VStr (s : string)
| VArr (elems : list value)
| VObj (props : list (string * value)).

(** ToBoolean *)
Definition truthy (v : value) : bool :=
  match v with
  | VUndef | VNull | VBool false | VNum NZero | VStr EmptyString => false
  | _ => true
  end.

(** [a || b] *)
Definition or_else (a b : value) : value := if truthy a then a else b.

Definition has_own (key : string) (props : list (string * value)) : bool :=
  existsb (fun p => String.eqb key (fst p)) props.

(** The own property [key]; for a key written twice the later wins. *)
Fixpoint own_property (key : string) (props : list (string * value))
  : option value :=
  match props with
  | [] => None
  | (k, v) :: rest =>
      match own_property key rest with
      | Some v' => Some v'
      | None => if String.eqb key k then Some v else None
      end
  end.

Definition cannot_read (base key : string) : string :=
  "Cannot read properties of " +:+ base +:+ " (reading '" +:+ key +:+ "')".

(** [v.key] for a key that no built-in prototype defines (status, evidence,
    reasoning, confidence). *)
Definition get (v : value) (key : string) : completion value :=
  match v with
  | VUndef => Throw (cannot_read "undefined" key)
  | VNull => Throw (cannot_read "null" key)
  | VObj props => Ok (default VUndef (own_property key props))
  | _ => Ok VUndef
  end.

Definition cannot_convert : string := "Cannot convert object to primitive value".

(** ToString.  An array joins its elements with a comma, [null] and
    [undefined] elements printing as nothing; an object prints through
    [Object.prototype.toString] unless an own (never callable) [toString]
    property shadows it, in which case the conversion throws. *)
Fixpoint ToString (v : value) : completion string :=
  match v with
  | VUndef => Ok "undefined"
  | VNull => Ok "null"
  | VBool b => Ok (if b then "true" else "false")
  | VNum x => Ok (Number_toString x)
  | VStr s => Ok s
  | VArr elems =>
      (fix join (l : list value) : completion string :=
         match l with
         | [] => Ok ""
         | x :: l' =>
             match (match x with
                    | VUndef | VNull => Ok ""
                    | _ => ToString x
                    end) with
             | Throw m => Throw m
             | Ok sx =>
                 match l' with
                 | [] => Ok sx
                 | _ => match join l' with
                        | Throw m => Throw m
                        | Ok rest => Ok (sx +:+ "," +:+ rest)
                        end
                 end
             end
         end) elems
  | VObj props =>
      if has_own "toString" props then Throw cannot_convert
      else Ok "[object Object]"
  end.

(** ** parseInt *)

Definition digit_value (c : ascii) : option Z :=
  let n := code c in
  if (48 <=? n) && (n <=? 57) then Some (n - 48)
  else if (97 <=? n) && (n <=? 122) then Some (n - 87)
  else if (65 <=? n) && (n <=? 90) then Some (n - 55)
  else None.

(** The longest prefix of radix-[R] digits. *)
Fixpoint digit_prefix (R : Z) (s : string) : list Z :=
  match s with
  | EmptyString => []
  | String c s' =>
      match digit_value c with
      | Some d => if d <? R then d :: digit_prefix R s' else []
      | None => []
      end
  end.

Definition digits_value (R : Z) (ds : list Z) : Z :=
  fold_left (fun acc d => acc * R + d) ds 0.

Definition strip_sign (s : string) : Z * string :=
  match s with
  | String c s' =>
      if code c =? 45 then (-1, s')
      else if code c =? 43 then (1, s')
      else (1, s)
  | EmptyString => (1, s)
  end.

Definition strip_hex_prefix (s : string) : Z * string :=
  match s with
  | String c0 (String c1 s') =>
      if (code c0 =? 48) && ((code c1 =? 120) || (code c1 =? 88))
      then (16, s') else (10, s)
  | _ => (10, s)
  end.

(** [parseInt(string)] with no radix argument; [None] is NaN.  The result
    is the exact integer: the double that JavaScript returns is its
    rounding, and rounding is monotone and fixes 0 and 100, so clamping
    into [0, 100] gives the same integer for both. *)
Definition parseInt_string (input : string) : option Z :=
  let '(sign, s1) := strip_sign (trimStart input) in
  let '(R, s2) := strip_hex_prefix s1 in
  match digit_prefix R s2 with
  | [] => None
  | ds => Some (sign * digits_value R ds)
  end.

Definition parseInt (v : value) : completion (option Z) :=
  s ← ToString v; Ok (parseInt_string s).

(** [Math.max(0, Math.min(100, parseInt(v) || 0))] *)
Definition clamp_confidence (v : value) : completion Z :=
  n ← parseInt v; Ok (Z.max 0 (Z.min 100 (default 0 n))).

(** ** Decimal digit strings

    The digits of a number as a list of their values, to reason about what
    [parseInt] reads off the printed form of a number. *)

Definition digit_char (d : Z) : ascii := chr (48 + d).

Fixpoint string_of_digits (l : list Z) : string :=
  match l with
  | [] => EmptyString
  | d :: l' => String (digit_char d) (string_of_digits l')
  end.

Fixpoint uint_digits (u : Decimal.uint) : list Z :=
  match u with
  | Decimal.Nil => []
  | Decimal.D0 u' => 0 :: uint_digits u'
  | Decimal.D1 u' => 1 :: uint_digits u'
  | Decimal.D2 u' => 2 :: uint_digits u'
  | Decimal.D3 u' => 3 :: uint_digits u'
  | Decimal.D4 u' => 4 :: uint_digits u'
  | Decimal.D5 u' => 5 :: uint_digits u'
  | Decimal.D6 u' => 6 :: uint_digits u'
  | Decimal.D7 u' => 7 :: uint_digits u'
  | Decimal.D8 u' => 8 :: uint_digits u'
  | Decimal.D9 u' => 9 :: uint_digits u'
  end.

Definition is_digit (d : Z) : Prop := 0 <= d <= 9.

(** ** Results and responses *)

Record RuleResult : Type := mkRuleResult {
  rule : value;
  status : string;
  evidence : value;
  reasoning : value;
  confidence : Z
}.

(** The JSON bodies the handler sends: [{error}], [{error, message}] and
    [{results}]. *)
Inductive body : Type :=
| BError (error : string)
| BFailure (error message : string)
| BResults (results : list RuleResult).

(** ** The world: the upload directory and what the process did *)

Inductive event : Type :=
| EvRead (path : string)
| EvUnlink (path : string)
| EvExtract (buffer : list Byte.byte)
| EvLLM (index : nat) (prompt : string)
| EvSend (code : Z) (payload : body).

Record world : Type := mkWorld {
  files : gmap string (list Byte.byte);
  trace : list event
}.

(** What an awaited computation comes to: a value, an exception, or
    nothing when a promise it waits for never settles. *)
Inductive outcome (A : Type) : Type :=
| Returned (a : A)
| Thrown (message : string)
| Pending.

Arguments Returned {A} a.
Arguments Thrown {A} message.
Arguments Pending {A}.

Definition M (A : Type) : Type := world -> outcome A * world.

#[export] Instance M_ret : MRet M := fun A a w => (Returned a, w).

#[export] Instance M_bind : MBind M :=
  fun A B f c w =>
    match c w with
    | (Returned a, w') => f a w'
    | (Thrown m, w') => (Thrown m, w')
    | (Pending, w') => (Pending, w')
    end.

Definition lift {A} (c : completion A) : M A :=
  fun w => (match c with Ok a => Returned a | Throw m => Thrown m end, w).

(** [try { body } catch (error) { handler(error.message) }] *)
Definition try_catch {A} (body : M A) (handler : string -> M A) : M A :=
  fun w =>
    match body w with
    | (Thrown m, w') => handler m w'
    | r => r
    end.

Definition log (e : event) : M unit :=
  fun w => (Returned tt, mkWorld (files w) (trace w ++ [e])).

Definition enoent (call path : string) : string :=
  "ENOENT: no such file or directory, " +:+ call +:+ " '" +:+ path +:+ "'".

Definition readFileSync (path : string) : M (list Byte.byte) :=
  fun w =>
    match files w !! path with
    | Some buffer => (Returned buffer, mkWorld (files w) (trace w ++ [EvRead path]))
    | None => (Thrown (enoent "open" path), w)
    end.

Definition unlinkSync (path : string) : M unit :=
  fun w =>
    match files w !! path with
    | Some _ =>
        (Returned tt, mkWorld (delete path (files w)) (trace w ++ [EvUnlink path]))
    | None => (Thrown (enoent "unlink" path), w)
    end.

Definition existsSync (path : string) : M bool :=
  fun w => (Returned (bool_decide (is_Some (files w !! path))), w).

(** [res.status(code).json(payload)] *)
Definition send (code : Z) (payload : body) : M unit := log (EvSend code payload).

(** ** The prompt *)

Definition doc_limit : nat := Z.to_nat 12000.

(** [pdfText.substring(0, 12000)] *)
Definition excerpt (pdfText : string) : string := substring 0 doc_limit pdfText.

(** [pdfText.length > 12000 ? '...' : ''] *)
Definition marker (pdfText : string) : string :=
  if (doc_limit <? String.length pdfText)%nat then "..." else "".

Definition prompt_before (rule : string) : string :=
  "You are analyzing a document to check if it follows a specific rule." +:+ nl
  +:+ nl
  +:+ "RULE TO CHECK: " +:+ dquote +:+ rule +:+ dquote +:+ nl
  +:+ nl
  +:+ "DOCUMENT TEXT:" +:+ nl.

Definition prompt_after : string :=
  nl
  +:+ nl
  +:+ "Please analyze the document and determine if it PASSES or FAILS the rule. Provide your response in the following JSON format:" +:+ nl
  +:+ "{" +:+ nl
  +:+ "  " +:+ dquote +:+ "status" +:+ dquote +:+ ": " +:+ dquote +:+ "pass" +:+ dquote +:+ " or " +:+ dquote +:+ "fail" +:+ dquote +:+ "," +:+ nl
  +:+ "  " +:+ dquote +:+ "evidence" +:+ dquote +:+ ": " +:+ dquote +:+ "One specific sentence or phrase from the document that supports your decision (or 'Not found' if failing)" +:+ dquote +:+ "," +:+ nl
  +:+ "  " +:+ dquote +:+ "reasoning" +:+ dquote +:+ ": " +:+ dquote +:+ "Brief explanation (1-2 sentences) of why it passes or fails" +:+ dquote +:+ "," +:+ nl
  +:+ "  " +:+ dquote +:+ "confidence" +:+ dquote +:+ ": A number between 0-100 representing your confidence in this assessment" +:+ nl
  +:+ "}" +:+ nl
  +:+ nl
  +:+ "IMPORTANT: " +:+ nl
  +:+ "- Return ONLY valid JSON, no additional text" +:+ nl
  +:+ "- Evidence should be an exact quote from the document if possible" +:+ nl
  +:+ "- Confidence should reflect how certain you are (higher for clear cases, lower for ambiguous ones)" +:+ nl
  +:+ "- If the rule is not met, status must be " +:+ dquote +:+ "fail" +:+ dquote.

(** The template literal of [checkRuleWithLLM]; [rule] is already the
    string that the substitution converts the rule to. *)
Definition build_prompt (pdfText rule : string) : string :=
  prompt_before rule +:+ excerpt pdfText +:+ marker pdfText +:+ prompt_after.

(** ** The single-rule checker *)

Definition not_a_function (callee : string) : string :=
  callee +:+ " is not a function".

(** [v.toLowerCase()]: only a string has the method. *)
Definition call_toLowerCase (v : value) : completion string :=
  match v with
  | VStr s => Ok (toLowerCase s)
  | VUndef => Throw (cannot_read "undefined" "toLowerCase")
  | VNull => Throw (cannot_read "null" "toLowerCase")
  | _ => Throw (not_a_function ("(result.status || " +:+ dquote +:+ "fail"
                                +:+ dquote +:+ ").toLowerCase"))
  end.

(** The object literal returned after [JSON.parse]; its properties are
    evaluated in the order written. *)
Definition normalize (r : value) (result : value) : completion RuleResult :=
  st ← get result "status";
  st' ← call_toLowerCase (or_else st (VStr "fail"));
  ev ← get result "evidence";
  re ← get result "reasoning";
  co ← get result "confidence";
  n ← clamp_confidence co;
  Ok (mkRuleResult r st'
        (or_else ev (VStr "No evidence found"))
        (or_else re (VStr "Unable to determine"))
        n).

(** The object literal of the [catch] block. *)
Definition error_result (r : value) (message : string) : RuleResult :=
  mkRuleResult r "fail" (VStr "Error processing rule")
    (VStr ("Failed to analyze: " +:+ message)) 0.

Section Pipeline.

(** [JSON.parse] *)
Variable JSON_parse : string -> completion value.

(** [pdfParse(buffer)] awaited, then [.text] *)
Variable pdfParse : list Byte.byte -> completion string.

(** [openai.chat.completions.create] awaited for the prompt of the rule at
    [index], then [.choices[0].message.content].  A [null] content is the
    string [null], which is what [JSON.parse] converts it to. *)
Variable create : nat -> string -> completion string.

Definition call_create (index : nat) (prompt : string) : M string :=
  fun w =>
    (match create index prompt with Ok c => Returned c | Throw m => Thrown m end,
     mkWorld (files w) (trace w ++ [EvLLM index prompt])).

Definition checkRuleWithLLM (index : nat) (pdfText : string) (r : value)
  : M RuleResult :=
  try_catch
    (text ← lift (ToString r);
     content ← call_create index (build_prompt pdfText text);
     result ← lift (JSON_parse content);
     lift (normalize r result))
    (fun message => mret (error_result r message)).

(** ** The orchestrator *)

(** [rule.trim()] *)
Definition call_trim (r : value) : completion string :=
  match r with
  | VStr s => Ok (trim s)
  | VUndef => Throw (cannot_read "undefined" "trim")
  | VNull => Throw (cannot_read "null" "trim")
  | _ => Throw (not_a_function "rule.trim")
  end.

(** [!rule || rule.trim().length === 0] *)
Definition is_blank (r : value) : completion bool :=
  if negb (truthy r) then Ok true
  else t ← call_trim r; Ok (Nat.eqb (String.length t) 0).

Definition empty_rule_result (r : value) : RuleResult :=
  mkRuleResult (or_else r (VStr "Empty rule")) "fail"
    (VStr "No rule provided") (VStr "Rule is empty or invalid") 0.

(** The promise an [async] callback returns: already settled when the
    callback ran to its end without waiting, or waiting for the reply of the
    service.  The callback touches nothing shared after its [await], so the
    completion it will settle with is computed when it is started. *)
Inductive task : Type :=
| Settled (c : completion RuleResult)
| Awaiting (c : completion RuleResult).

Definition settlement (t : task) : completion RuleResult :=
  match t with Settled c | Awaiting c => c end.

Definition is_settled (t : task) : bool :=
  match t with Settled _ => true | Awaiting _ => false end.

(** The callback of [rules.map].  [checkRuleWithLLM] is entered with a
    string that is not blank, so it reaches its [await]. *)
Definition check_rule (pdfText : string) (index : nat) (r : value) : M task :=
  match is_blank r with
  | Throw m => mret (Settled (Throw m))
  | Ok true => mret (Settled (Ok (empty_rule_result r)))
  | Ok false =>
      res ← checkRuleWithLLM index pdfText r;
      mret (Awaiting (Ok res))
  end.

(** [rules.map(callback)]: the callbacks start in index order. *)
Fixpoint start_all (pdfText : string) (index : nat) (rules : list value)
  : M (list task) :=
  match rules with
  | [] => mret []
  | r :: rest =>
      t ← check_rule pdfText index r;
      ts ← start_all pdfText (S index) rest;
      mret (t :: ts)
  end.

Fixpoint filled (values : list (option RuleResult)) : option (list RuleResult) :=
  match values with
  | [] => Some []
  | None :: _ => None
  | Some v :: rest =>
      match filled rest with
      | Some vs => Some (v :: vs)
      | None => None
      end
  end.

(** [Promise.all]: promises settle in [order]; a fulfilment stores its
    value at the index of its promise, the first rejection rejects the
    whole, and the whole is fulfilled once every index holds a value. *)
Fixpoint collect (tasks : list task) (order : list nat)
  (values : list (option RuleResult)) : outcome (list RuleResult) :=
  match filled values with
  | Some vs => Returned vs
  | None =>
      match order with
      | [] => Pending
      | i :: order' =>
          match tasks !! i with
          | None => collect tasks order' values
          | Some t =>
              match settlement t with
              | Throw m => Thrown m
              | Ok v => collect tasks order' (<[i := Some v]> values)
              end
          end
      end
  end.

(** Promises that are already settled are handled first, in index order;
    the waiting ones follow in the order [sched] in which the service
    replies.  An index that [sched] omits never gets its reply. *)
Definition settle_order (tasks : list task) (sched : list nat) : list nat :=
  List.filter (fun i => match tasks !! i with Some t => is_settled t | None => false end)
    (seq 0 (length tasks))
  ++ List.filter (fun i => match tasks !! i with Some t => negb (is_settled t) | None => false end)
       sched.

Definition Promise_all (sched : list nat) (tasks : list task)
  : M (list RuleResult) :=
  fun w =>
    (collect tasks (settle_order tasks sched) (replicate (length tasks) None), w).

(** ** The request handler *)

(** [req.file] as multer fills it in. *)
Record upload : Type := mkUpload {
  path : string;
  mimetype : string;
  originalname : string
}.

(** [req.file] and [req.body.rules] ([VUndef] when the field is absent). *)
Record request : Type := mkRequest {
  file : option upload;
  body_rules : value
}.

(** [typeof v === 'string' ? JSON.parse(v) : v] *)
Definition parse_rules (v : value) : completion value :=
  match v with
  | VStr s => JSON_parse s
  | _ => Ok v
  end.

(** [!rules || !Array.isArray(rules) || rules.length === 0] *)
Definition no_rules (rules : value) : bool :=
  negb (truthy rules)
  || match rules with
     | VArr elems => Nat.eqb (length elems) 0
     | _ => true
     end.

Definition elements (rules : value) : list value :=
  match rules with VArr elems => elems | _ => [] end.

(** [!pdfText || pdfText.trim().length === 0] *)
Definition no_text (pdfText : string) : bool :=
  Nat.eqb (String.length pdfText) 0 || Nat.eqb (String.length (trim pdfText)) 0.

Definition call_pdfParse (buffer : list Byte.byte) : M string :=
  fun w =>
    (match pdfParse buffer with Ok t => Returned t | Throw m => Thrown m end,
     mkWorld (files w) (trace w ++ [EvExtract buffer])).

(** The callback of [app.post('/api/check-pdf', ...)], entered after multer
    has stored the upload; [sched] is the order in which the service
    replies to the rules. *)
Definition check_pdf (req : request) (sched : list nat) : M unit :=
  try_catch
    (match file req with
     | None => send 400 (BError "No PDF file uploaded")
     | Some f =>
         match parse_rules (body_rules req) with
         | Throw _ =>
             _ ← unlinkSync (path f);
             send 400 (BError "Invalid rules format")
         | Ok rules =>
             if no_rules rules then
               _ ← unlinkSync (path f);
               send 400 (BError "At least one rule is required")
             else
               pdfBuffer ← readFileSync (path f);
               pdfText ← call_pdfParse pdfBuffer;
               _ ← unlinkSync (path f);
               if no_text pdfText then
                 send 400 (BError "Could not extract text from PDF")
               else
                 tasks ← start_all pdfText 0 (elements rules);
                 results ← Promise_all sched tasks;
                 send 200 (BResults results)
         end
     end)
    (fun message =>
       _ ← match file req return M unit with
           | Some f =>
               there ← existsSync (path f);
               if there : bool then unlinkSync (path f) else mret tt
           | None => mret tt
           end;
       send 500 (BFailure "Failed to process PDF" message)).

(** ** What the calls come to

    [checkRuleWithLLM] and the callback of [rules.map] written as functions
    of the replies; the lemmas [checkRuleWithLLM_run] and [start_all_run]
    relate them to the code above. *)

Definition rule_result (index : nat) (pdfText : string) (r : value) : RuleResult :=
  match ToString r with
  | Throw m => error_result r m
  | Ok text =>
      match create index (build_prompt pdfText text) with
      | Throw m => error_result r m
      | Ok content =>
          match JSON_parse content with
          | Throw m => error_result r m
          | Ok result =>
              match normalize r result with
              | Throw m => error_result r m
              | Ok res => res
              end
          end
      end
  end.

Definition rule_calls (index : nat) (pdfText : string) (r : value) : list event :=
  match ToString r with
  | Ok text => [EvLLM index (build_prompt pdfText text)]
  | Throw _ => []
  end.

Definition rule_task (pdfText : string) (index : nat) (r : value) : task :=
  match is_blank r with
  | Throw m => Settled (Throw m)
  | Ok true => Settled (Ok (empty_rule_result r))
  | Ok false => Awaiting (Ok (rule_result index pdfText r))
  end.

Definition task_calls (pdfText : string) (index : nat) (r : value) : list event :=
  match is_blank r with
  | Ok false => rule_calls index pdfText r
  | _ => []
  end.

Fixpoint tasks_from (pdfText : string) (index : nat) (rules : list value) : list task :=
  match rules with
  | [] => []
  | r :: rest => rule_task pdfText index r :: tasks_from pdfText (S index) rest
  end.

Fixpoint calls_from (pdfText : string) (index : nat) (rules : list value) : list event :=
  match rules with
  | [] => []
  | r :: rest => task_calls pdfText index r ++ calls_from pdfText (S index) rest
  end.

(** The result for a rule that is a string or no rule at all. *)
Definition plain_result (pdfText : string) (index : nat) (r : value) : RuleResult :=
  match is_blank r with
  | Ok false => rule_result index pdfText r
  | _ => empty_rule_result r
  end.

End Pipeline.

(** Classification of events. *)
Definition is_unlink (e : event) : bool :=
  match e with EvUnlink _ => true | _ => false end.

Definition is_send (e : event) : bool :=
  match e with EvSend _ _ => true | _ => false end.

Definition is_llm (e : event) : bool :=
  match e with EvLLM _ _ => true | _ => false end.

(** A rule as the data model has it: a string, or a value that counts as
    no rule at all. *)
Definition plain_rule (r : value) : bool :=
  match r with
  | VStr _ => true
  | _ => negb (truthy r)
  end.

(** The status of a reply does not make [toLowerCase] throw: it is
    missing, falsy or a string. *)
Definition plain_status (result : value) : bool :=
  match get result "status" with
  | Ok (VStr _) => true
  | Ok st => negb (truthy st)
  | Throw _ => false
  end.

(** ** The client: [client/src/App.jsx]

    The state of the [App] component and its three event handlers.  The
    setters of one handler are applied together when it returns, as React
    does; [fetch] and [JSON.stringify] are parameters. *)

Module Client.

(** A file picked in the browser, with its [name] and its [type]. *)
Record picked : Type := mkPicked {
  name : string;
  type : string
}.

(** The state: [pdfFile] and [error] are [null] when [None], [results]
    holds [null] or what the server sent, and an element of [rules] is a
    string or a hole of the array ([None]). *)
Record state : Type := mkState {
  pdfFile : option picked;
  rules : list (option string);
  results : value;
  loading : bool;
  error : option string
}.

(** The [useState] defaults. *)
Definition initial : state :=
  mkState None [Some ""; Some ""; Some ""] VNull false None.

(** [handleFileChange]: [e.target.files[0]] is [chosen]. *)
Definition handleFileChange (chosen : option picked) (st : state) : state :=
  match chosen with
  | Some f =>
      if String.eqb (type f) "application/pdf"
      then mkState (Some f) (rules st) (results st) (loading st) None
      else mkState None (rules st) (results st) (loading st)
             (Some "Please upload a valid PDF file")
  | None =>
      mkState None (rules st) (results st) (loading st)
        (Some "Please upload a valid PDF file")
  end.

(** [newRules[index] = value] on a copy of the array: an index past the
    end extends the array and leaves holes in between. *)
Definition assign (l : list (option string)) (index : nat) (v : string)
  : list (option string) :=
  if (index <? length l)%nat then <[index := Some v]> l
  else l ++ replicate (index - length l) None ++ [Some v].

(** [handleRuleChange] *)
Definition handleRuleChange (index : nat) (v : string) (st : state) : state :=
  mkState (pdfFile st) (assign (rules st) index v) (results st) (loading st)
    (error st).

(** [rules.filter(rule => rule.trim().length > 0)]; [filter] skips holes. *)
Fixpoint validRules (l : list (option string)) : list string :=
  match l with
  | [] => []
  | Some s :: rest =>
      if (0 <? String.length (trim s))%nat then s :: validRules rest
      else validRules rest
  | None :: rest => validRules rest
  end.

(** The form sent to [/api/check-pdf]: the fields [pdf] and [rules]. *)
Record submission : Type := mkSubmission {
  form_pdf : picked;
  form_rules : string
}.

(** What [fetch] comes to: it throws, or it resolves to a response with
    its [ok] flag and what [response.json()] comes to. *)
Inductive fetched : Type :=
| NetworkError (message : string)
| Response (ok : bool) (json : completion value).

Section Handlers.

(** [JSON.stringify] on an array of strings *)
Variable JSON_stringify : list string -> string.

Variable fetch : submission -> fetched.

(** The body of the [try] block: the value given to [setResults], or the
    message of what is thrown. *)
Definition exchange (sub : submission) : completion value :=
  match fetch sub with
  | NetworkError m => Throw m
  | Response ok json =>
      if negb ok then
        errorData ← json;
        e ← get errorData "error";
        m ← ToString (or_else e (VStr "Failed to check PDF"));
        Throw m
      else
        data ← json;
        get data "results"
  end.

(** [err.message || 'An error occurred while checking the PDF'] *)
Definition shown_message (m : string) : string :=
  match m with
  | EmptyString => "An error occurred while checking the PDF"
  | _ => m
  end.

(** [handleCheck], run to its end: the state it leaves and the forms it
    has sent. *)
Definition handleCheck (st : state) : state * list submission :=
  match pdfFile st with
  | None =>
      (mkState (pdfFile st) (rules st) (results st) (loading st)
         (Some "Please upload a PDF file"), [])
  | Some f =>
      let valid := validRules (rules st) in
      if Nat.eqb (length valid) 0 then
        (mkState (pdfFile st) (rules st) (results st) (loading st)
           (Some "Please enter at least one rule"), [])
      else
        let sub := mkSubmission f (JSON_stringify valid) in
        match exchange sub with
        | Ok data_results =>
            (mkState (pdfFile st) (rules st) data_results false None, [sub])
        | Throw m =>
            (mkState (pdfFile st) (rules st) VNull false (Some (shown_message m)),
             [sub])
        end
  end.

(** What the user can do: pick a file, type into one of the rule inputs
    that are shown, press the button. *)
Inductive action : Type :=
| PickFile (chosen : option picked)
| TypeRule (index : nat) (v : string)
| PressCheck.

Definition step (a : action) (st : state) : state :=
  match a with
  | PickFile chosen => handleFileChange chosen st
  | TypeRule index v =>
      if (index <? length (rules st))%nat then handleRuleChange index v st else st
  | PressCheck => fst (handleCheck st)
  end.

Definition run (actions : list action) : state :=
  fold_left (fun st a => step a st) actions initial.

End Handlers.

End Client.

(** ** Vocabulary of the further properties *)

(** What holds of the state whatever the user has done. *)
Definition client_invariant (st : Client.state) : Prop :=
  length (Client.rules st) = 3%nat
  /\ (forall r, In r (Client.rules st) -> r <> None)
  /\ (forall f, Client.pdfFile st = Some f -> Client.type f = "application/pdf")
  /\ Client.loading st = false
  /\ Client.error st <> Some "".


(** A rule for which the service is asked: a string that is not blank. *)
Definition needs_reply (r : value) : bool :=
  match r with
  | VStr s => negb (whitespace_only s)
  | _ => false
  end.

(** The error texts of the 400 responses. *)
Definition validation_errors : list string :=
  ["No PDF file uploaded"; "Invalid rules format";
   "At least one rule is required"; "Could not extract text from PDF"].

(** The index of a call of the service. *)
Definition call_index (e : event) : option nat :=
  match e with EvLLM i _ => Some i | _ => None end.

Definition first_char (s : string) : option ascii :=
  match s with
  | String c _ => Some c
  | EmptyString => None
  end.

Fixpoint last_char (s : string) : option ascii :=
  match s with
  | EmptyString => None
  | String c EmptyString => Some c
  | String _ s' => last_char s'
  end.

(** The first digit of the decimal form of a positive integer. *)
Definition leading_digit (s : positive) : Z :=
  match uint_digits (Pos.to_uint s) with
  | d :: _ => d
  | [] => 0
  end.

(** ** Sample inputs

    Concrete uploads, replies and collaborators on which the statements
    below are exercised. *)

Definition quoted (s : string) : string := dquote +:+ s +:+ dquote.

(** A [JSON.parse] that knows the texts of [table] and rejects the rest. *)
Fixpoint parse_table (table : list (string * value)) (text : string)
  : completion value :=
  match table with
  | [] => Throw "Unexpected token in JSON"
  | (t, v) :: rest => if String.eqb text t then Ok v else parse_table rest text
  end.

(** A service that answers every prompt with [content]. *)
Definition reply_with (content : string) (index : nat) (prompt : string)
  : completion string := Ok content.

(** A service that is down. *)
Definition unreachable_service (index : nat) (prompt : string)
  : completion string := Throw "Connection error.".

(** An extractor that finds [text] in every buffer. *)
Definition extract_as (text : string) (buffer : list Byte.byte)
  : completion string := Ok text.

(** pdf-parse on bytes that are not a PDF. *)
Definition extract_fails (buffer : list Byte.byte) : completion string :=
  Throw "Invalid PDF structure".

Definition sample_pdf : upload :=
  mkUpload "uploads/3f2a9c" "application/pdf" "report.pdf".

Definition sample_notes : upload :=
  mkUpload "uploads/77b0e1" "text/plain" "notes.txt".

Definition sample_bytes : list Byte.byte :=
  [Byte.x25; Byte.x50; Byte.x44; Byte.x46].

(** The bytes of [hello]. *)
Definition sample_text_bytes : list Byte.byte :=
  [Byte.x68; Byte.x65; Byte.x6c; Byte.x6c; Byte.x6f].

(** The upload directory once multer has stored [f]. *)
Definition sample_world (f : upload) (bytes : list Byte.byte) : world :=
  mkWorld {[ path f := bytes ]} [].

(** [{"status":"unknown"}] *)
Definition unknown_text : string :=
  "{" +:+ quoted "status" +:+ ":" +:+ quoted "unknown" +:+ "}".

Definition unknown_reply : value := VObj [("status", VStr "unknown")].

(** [{"status":"PASS","confidence":1e21}] *)
Definition huge_text : string :=
  "{" +:+ quoted "status" +:+ ":" +:+ quoted "PASS" +:+ ","
  +:+ quoted "confidence" +:+ ":1e21}".

Definition huge_reply : value :=
  VObj [("status", VStr "PASS"); ("confidence", VNum (NFin false 1 21))].

(** [{"status":"pass","confidence":250}] *)
Definition eager_text : string :=
  "{" +:+ quoted "status" +:+ ":" +:+ quoted "pass" +:+ ","
  +:+ quoted "confidence" +:+ ":250}".

Definition eager_reply : value :=
  VObj [("status", VStr "pass"); ("confidence", VNum (NFin false 25 1))].

(** [{}] *)
Definition bare_reply : value := VObj [].

(** [["Document mentions a date.","","Document has a summary."]] *)
Definition three_rules_text : string :=
  "[" +:+ quoted "Document mentions a date." +:+ "," +:+ quoted "" +:+ ","
  +:+ quoted "Document has a summary." +:+ "]".

Definition three_rules : list value :=
  [VStr "Document mentions a date."; VStr ""; VStr "Document has a summary."].

(** [["Document mentions a date.",1]] *)
Definition mixed_rules_text : string :=
  "[" +:+ quoted "Document mentions a date." +:+ ",1]".

Definition mixed_rules : list value :=
  [VStr "Document mentions a date."; VNum (NFin false 1 0)].

Definition sample_parse : string -> completion value :=
  parse_table
    [(unknown_text, unknown_reply); (huge_text, huge_reply);
     (eager_text, eager_reply); ("{}", bare_reply);
     (three_rules_text, VArr three_rules); (mixed_rules_text, VArr mixed_rules)].

(** ** Sample inputs of the client *)

(** [JSON.stringify] on an array of strings that need no escaping. *)
Fixpoint stringify_items (l : list string) : string :=
  match l with
  | [] => ""
  | [s] => quoted s
  | s :: rest => quoted s +:+ "," +:+ stringify_items rest
  end.

Definition stringify_plain (l : list string) : string :=
  "[" +:+ stringify_items l +:+ "]".

Definition sample_report : Client.picked :=
  Client.mkPicked "report.pdf" "application/pdf".

Definition sample_picture : Client.picked :=
  Client.mkPicked "scan.png" "image/png".

(** The user picks the report and fills the first and the third input. *)
Definition sample_actions : list Client.action :=
  [Client.PickFile (Some sample_report);
   Client.TypeRule 0 "Document mentions a date.";
   Client.TypeRule 2 "Document has a summary."].

Definition two_rules : list string :=
  ["Document mentions a date."; "Document has a summary."].

(** A server that answers every form with [{"results":[]}]. *)
Definition fetch_empty_results (sub : Client.submission) : Client.fetched :=
  Client.Response true (Ok (VObj [("results", VArr [])])).

(** A server that answers every form with 400 and
    [{"error":"Could not extract text from PDF"}]. *)
Definition fetch_no_text (sub : Client.submission) : Client.fetched :=
  Client.Response false (Ok (VObj [("error", VStr "Could not extract text from PDF")])).

Definition sample_state : Client.state :=
  Client.run stringify_plain fetch_empty_results sample_actions.


(** [{"status":"Pass"}] *)
Definition mixed_case_text : string :=
  "{" +:+ quoted "status" +:+ ":" +:+ quoted "Pass" +:+ "}".

Definition reply_parse : string -> completion value :=
  parse_table [(mixed_case_text, VObj [("status", VStr "Pass")]);
               ("null", VNull)].

(** * Properties *)

(** ** Strings *)

Lemma trimStart_cases (s : string) :
  (whitespace_only s = true /\ trimStart s = "")
  \/ (whitespace_only s = false
      /\ exists c s', trimStart s = String c s' /\ is_space c = false).
Proof.
  induction s as [|c s IH]; simpl.
  - left. split; reflexivity.
  - destruct (is_space c) eqn:Hc; simpl.
    + exact IH.
    + right. split; [reflexivity|]. exists c, s. split; [reflexivity | exact Hc].
Qed.

Lemma trimEnd_keeps_head (c : ascii) (s : string) :
  is_space c = false -> trimEnd (String c s) <> "".
Proof.
  intros Hc. simpl. destruct (trimEnd s); [rewrite Hc|]; discriminate.
Qed.

Lemma trim_empty_iff (s : string) : trim s = "" <-> whitespace_only s = true.
Proof.
  unfold trim.
  destruct (trimStart_cases s) as [[Hw Ht] | [Hw (c & s' & Ht & Hc)]]; rewrite Ht.
  - split; [intros _; exact Hw | reflexivity].
  - split.
    + intros H. exfalso. exact (trimEnd_keeps_head c s' Hc H).
    + intros H. congruence.
Qed.

Lemma length_zero_iff (s : string) : Nat.eqb (String.length s) 0 = true <-> s = "".
Proof.
  destruct s; simpl; split; intros H; try reflexivity; discriminate.
Qed.

Lemma substring_from_start (n : nat) (s : string) :
  substring 0 n s = String.substring 0 n s.
Proof. unfold substring. simpl. rewrite Nat.sub_0_r. reflexivity. Qed.

Lemma substring_length (n : nat) (s : string) :
  String.length (substring 0 n s) = Nat.min n (String.length s).
Proof.
  rewrite substring_from_start. revert s.
  induction n as [|n IH]; intros [|c s]; simpl; try reflexivity.
  f_equal. apply IH.
Qed.

Lemma substring_take (n : nat) (s : string) : substring 0 n s = take_chars n s.
Proof.
  rewrite substring_from_start. revert s.
  induction n as [|n IH]; intros [|c s]; simpl; try reflexivity.
  f_equal. apply IH.
Qed.

Lemma append_cons (c : ascii) (a b : string) :
  String c a +:+ b = String c (a +:+ b).
Proof. reflexivity. Qed.

Lemma append_nil_l (b : string) : "" +:+ b = b.
Proof. reflexivity. Qed.

Lemma take_drop (n : nat) (s : string) : take_chars n s +:+ drop_chars n s = s.
Proof.
  revert s. induction n as [|n IH]; intros [|c s]; simpl; try reflexivity.
  rewrite append_cons. f_equal. apply IH.
Qed.

Lemma take_all (n : nat) (s : string) :
  (String.length s <= n)%nat -> take_chars n s = s.
Proof.
  revert s. induction n as [|n IH]; intros [|c s]; simpl; intros H;
    try reflexivity; try lia.
  f_equal. apply IH. lia.
Qed.

Lemma append_assoc (a b c : string) : (a +:+ b) +:+ c = a +:+ (b +:+ c).
Proof.
  induction a as [|x a IH]; [reflexivity|].
  rewrite !append_cons. f_equal. exact IH.
Qed.

Lemma append_length (a b : string) :
  String.length (a +:+ b) = (String.length a + String.length b)%nat.
Proof.
  induction a as [|x a IH]; [reflexivity|].
  rewrite append_cons. simpl. f_equal. exact IH.
Qed.

(** ** Runs of the monadic code *)

Section Runs.

Variable JSON_parse : string -> completion value.
Variable pdfParse : list Byte.byte -> completion string.
Variable create : nat -> string -> completion string.

Lemma checkRuleWithLLM_run (index : nat) (pdfText : string) (r : value) (w : world) :
  checkRuleWithLLM JSON_parse create index pdfText r w
  = (Returned (rule_result JSON_parse create index pdfText r),
     mkWorld (files w) (trace w ++ rule_calls index pdfText r)).
Proof.
  destruct w as [fs tr].
  unfold checkRuleWithLLM, rule_result, rule_calls, try_catch, call_create, lift,
    mbind, M_bind, mret, M_ret; simpl.
  destruct (ToString r) as [text|m]; simpl.
  - destruct (create index (build_prompt pdfText text)) as [content|m]; simpl;
      [|reflexivity].
    destruct (JSON_parse content) as [result|m]; simpl; [|reflexivity].
    destruct (normalize r result) as [res|m]; reflexivity.
  - rewrite app_nil_r. reflexivity.
Qed.

Lemma check_rule_run (pdfText : string) (index : nat) (r : value) (w : world) :
  check_rule JSON_parse create pdfText index r w
  = (Returned (rule_task JSON_parse create pdfText index r),
     mkWorld (files w) (trace w ++ task_calls pdfText index r)).
Proof.
  unfold check_rule, rule_task, task_calls.
  destruct (is_blank r) as [[|]|m].
  - destruct w; simpl. unfold mret, M_ret. rewrite app_nil_r. reflexivity.
  - unfold mbind, M_bind. rewrite checkRuleWithLLM_run. reflexivity.
  - destruct w; simpl. unfold mret, M_ret. rewrite app_nil_r. reflexivity.
Qed.

Lemma start_all_run (pdfText : string) (rules : list value) (index : nat) (w : world) :
  start_all JSON_parse create pdfText index rules w
  = (Returned (tasks_from JSON_parse create pdfText index rules),
     mkWorld (files w) (trace w ++ calls_from pdfText index rules)).
Proof.
  revert index w. induction rules as [|r rest IH]; intros index w; simpl.
  - destruct w; simpl. unfold mret, M_ret. rewrite app_nil_r. reflexivity.
  - unfold mbind, M_bind. rewrite check_rule_run. fold (@mbind M _).
    unfold mbind, M_bind. rewrite IH. simpl. rewrite <- app_assoc. reflexivity.
Qed.

End Runs.

(** ** The tasks of a rule list *)

Section Tasks.

Variable JSON_parse : string -> completion value.
Variable create : nat -> string -> completion string.

Lemma tasks_from_length (pdfText : string) (rules : list value) (index : nat) :
  length (tasks_from JSON_parse create pdfText index rules) = length rules.
Proof.
  revert index. induction rules as [|r rest IH]; intros index; simpl;
    [reflexivity | f_equal; apply IH].
Qed.

Lemma tasks_from_lookup (pdfText : string) (rules : list value) (index i : nat) :
  tasks_from JSON_parse create pdfText index rules !! i
  = rule_task JSON_parse create pdfText (index + i) <$> rules !! i.
Proof.
  revert index i. induction rules as [|r rest IH]; intros index i; simpl.
  - reflexivity.
  - destruct i as [|i]; simpl.
    + rewrite Nat.add_0_r. reflexivity.
    + rewrite IH. replace (S index + i)%nat with (index + S i)%nat by lia.
      reflexivity.
Qed.

Lemma calls_from_elem (pdfText : string) (rules : list value) (index : nat) (e : event) :
  In e (calls_from pdfText index rules) ->
  exists i r text,
    rules !! i = Some r /\ is_blank r = Ok false /\ ToString r = Ok text
    /\ e = EvLLM (index + i) (build_prompt pdfText text).
Proof.
  revert index. induction rules as [|r rest IH]; intros index; simpl.
  - intros [].
  - rewrite in_app_iff. intros [H|H].
    + unfold task_calls, rule_calls in H.
      destruct (is_blank r) as [[|]|m] eqn:Hb; try destruct H.
      destruct (ToString r) as [text|m] eqn:Ht; simpl in H; [|destruct H].
      destruct H as [<-|[]]. exists 0%nat, r, text.
      rewrite Nat.add_0_r. repeat split; assumption.
    + destruct (IH _ H) as (i & r' & text & Hi & Hb & Ht & ->).
      exists (S i), r', text. simpl.
      replace (index + S i)%nat with (S index + i)%nat by lia.
      repeat split; assumption.
Qed.

Lemma calls_from_llm (pdfText : string) (rules : list value) (index : nat) (e : event) :
  In e (calls_from pdfText index rules) -> is_llm e = true.
Proof.
  intros H. destruct (calls_from_elem _ _ _ _ H) as (i & r & text & _ & _ & _ & ->).
  reflexivity.
Qed.

End Tasks.

Lemma doc_limit_Z : Z.of_nat doc_limit = 12000.
Proof. unfold doc_limit. lia. Qed.

Lemma is_blank_string (s : string) :
  is_blank (VStr s) = Ok (whitespace_only s).
Proof.
  unfold is_blank. destruct s as [|c s]; [reflexivity|].
  cbn [truthy negb call_trim mbind completion_bind].
  f_equal.
  destruct (whitespace_only (String c s)) eqn:Hw.
  - apply length_zero_iff, trim_empty_iff, Hw.
  - destruct (Nat.eqb (String.length (trim (String c s))) 0) eqn:Hl; [|reflexivity].
    apply length_zero_iff, trim_empty_iff in Hl. congruence.
Qed.

(** ** Truncation of the document text *)

(** C9.  The prompt that [checkRuleWithLLM] sends to the service is the
    template around the first 12000 characters of the document text,
    followed by the marker; the marker is the three dots exactly when the
    text is longer than 12000 characters and empty otherwise, and a text of
    at most 12000 characters is embedded whole. *)
Theorem prompt_embeds_truncated_text
  (JSON_parse : string -> completion value)
  (create : nat -> string -> completion string)
  (index : nat) (pdfText : string) (r : value) (text : string) (w : world)
  (Hrule : ToString r = Ok text) :
  trace (snd (checkRuleWithLLM JSON_parse create index pdfText r w))
  = trace w ++ [EvLLM index (build_prompt pdfText text)]
  /\ build_prompt pdfText text
     = prompt_before text +:+ excerpt pdfText +:+ marker pdfText +:+ prompt_after
  /\ excerpt pdfText = take_chars (Z.to_nat 12000) pdfText
  /\ Z.of_nat (String.length (excerpt pdfText)) <= 12000
  /\ (exists rest, pdfText = excerpt pdfText +:+ rest)
  /\ (Z.of_nat (String.length pdfText) <= 12000 -> excerpt pdfText = pdfText)
  /\ (marker pdfText = "..." <-> 12000 < Z.of_nat (String.length pdfText))
  /\ (marker pdfText = "" <-> Z.of_nat (String.length pdfText) <= 12000).
Proof.
  pose proof doc_limit_Z as Hlim.
  split.
  { rewrite checkRuleWithLLM_run. unfold rule_calls. rewrite Hrule. reflexivity. }
  split; [reflexivity|].
  split; [apply substring_take|].
  split.
  { unfold excerpt. rewrite substring_length. lia. }
  split.
  { exists (drop_chars doc_limit pdfText). unfold excerpt.
    rewrite substring_take, take_drop. reflexivity. }
  split.
  { intros H. unfold excerpt. rewrite substring_take. apply take_all. lia. }
  unfold marker.
  destruct (Nat.ltb_spec doc_limit (String.length pdfText)) as [H|H].
  - split; split; intros H'; try reflexivity; try discriminate; lia.
  - split; split; intros H'; try reflexivity; try discriminate; lia.
Qed.

(** ** Blank rules *)

(** C6.  For a rule string that is empty or holds only whitespace, the
    callback of the orchestrator returns at once the fixed result (status
    [fail], reasoning [Rule is empty or invalid], confidence 0) and leaves
    the world as it was: nothing is sent to the service.  In a rule list the
    task at the index of such a rule is that result, and no call of the
    service carries that index. *)
Theorem blank_rule_fails_without_llm
  (JSON_parse : string -> completion value)
  (create : nat -> string -> completion string)
  (pdfText : string) (index : nat) (s : string) (w : world)
  (Hblank : whitespace_only s = true) :
  let fixed :=
    mkRuleResult (VStr (if String.eqb s "" then "Empty rule" else s)) "fail"
      (VStr "No rule provided") (VStr "Rule is empty or invalid") 0 in
  check_rule JSON_parse create pdfText index (VStr s) w
  = (Returned (Settled (Ok fixed)), w)
  /\ forall (rules : list value) (i : nat),
       rules !! i = Some (VStr s) ->
       fst (start_all JSON_parse create pdfText 0 rules w)
       = Returned (tasks_from JSON_parse create pdfText 0 rules)
       /\ tasks_from JSON_parse create pdfText 0 rules !! i = Some (Settled (Ok fixed))
       /\ forall prompt,
            In (EvLLM i prompt) (trace (snd (start_all JSON_parse create pdfText 0 rules w))) ->
            In (EvLLM i prompt) (trace w).
Proof.
  intros fixed.
  assert (Htask : rule_task JSON_parse create pdfText index (VStr s)
                  = Settled (Ok fixed)).
  { unfold rule_task. rewrite is_blank_string, Hblank.
    unfold fixed, empty_rule_result, or_else. destruct s; reflexivity. }
  split.
  - rewrite check_rule_run, Htask. unfold task_calls.
    rewrite is_blank_string, Hblank, app_nil_r. destruct w; reflexivity.
  - intros rules i Hi. rewrite start_all_run. simpl.
    split; [reflexivity|]. split.
    + rewrite tasks_from_lookup, Hi. simpl.
      unfold rule_task. rewrite is_blank_string, Hblank.
      unfold fixed, empty_rule_result, or_else. destruct s; reflexivity.
    + intros prompt Hin. apply in_app_iff in Hin. destruct Hin as [Hin|Hin];
        [exact Hin|].
      destruct (calls_from_elem _ _ _ _ Hin) as (j & r & text & Hj & Hb & _ & Heq).
      simpl in Heq. injection Heq as -> _.
      rewrite Hi in Hj. injection Hj as <-.
      rewrite is_blank_string, Hblank in Hb. discriminate.
Qed.

(** ** The single-rule checker *)

Lemma normalize_inv (r result : value) (res : RuleResult) :
  normalize r result = Ok res ->
  exists st co,
    get result "status" = Ok st
    /\ call_toLowerCase (or_else st (VStr "fail")) = Ok (status res)
    /\ get result "confidence" = Ok co
    /\ clamp_confidence co = Ok (confidence res).
Proof.
  unfold normalize, mbind, completion_bind.
  destruct (get result "status") as [st|]; [|discriminate].
  destruct (call_toLowerCase _) as [st'|] eqn:Hl; [|discriminate].
  destruct (get result "evidence") as [ev|]; [|discriminate].
  destruct (get result "reasoning") as [re|]; [|discriminate].
  destruct (get result "confidence") as [co|]; [|discriminate].
  destruct (clamp_confidence co) as [n|] eqn:Hc; [|discriminate].
  intros [= <-]. exists st, co. simpl. repeat split; assumption.
Qed.

Lemma lowered_status (st : value) (s' : string) :
  call_toLowerCase (or_else st (VStr "fail")) = Ok s' ->
  s' = "fail" \/ exists s, st = VStr s /\ s' = toLowerCase s.
Proof.
  unfold or_else. destruct (truthy st) eqn:Ht.
  - destruct st as [| |b|x|s|l|p]; simpl; try discriminate.
    intros [= <-]. right. exists s. split; reflexivity.
  - simpl. intros [= <-]. left. reflexivity.
Qed.

Lemma rule_result_cases
  (JSON_parse : string -> completion value)
  (create : nat -> string -> completion string)
  (index : nat) (pdfText : string) (r : value) :
  (exists m, rule_result JSON_parse create index pdfText r = error_result r m)
  \/ (exists text content result,
        ToString r = Ok text
        /\ create index (build_prompt pdfText text) = Ok content
        /\ JSON_parse content = Ok result
        /\ normalize r result = Ok (rule_result JSON_parse create index pdfText r)).
Proof.
  unfold rule_result.
  destruct (ToString r) as [text|m]; [|left; eauto].
  destruct (create index (build_prompt pdfText text)) as [content|m] eqn:Hc;
    [|left; eauto].
  destruct (JSON_parse content) as [result|m] eqn:Hp; [|left; eauto].
  destruct (normalize r result) as [res|m] eqn:Hn; [|left; eauto].
  right. exists text, content, result. repeat split; assumption.
Qed.

Lemma get_after_status (result st : value) (key : string) :
  get result "status" = Ok st -> exists v, get result key = Ok v.
Proof. destruct result; simpl; try discriminate; eauto. Qed.

(** A reply whose status lower-cases and whose confidence converts is
    normalised without an exception. *)
Lemma normalize_ok (r result st co : value) (s' : string) (n : Z) :
  get result "status" = Ok st ->
  call_toLowerCase (or_else st (VStr "fail")) = Ok s' ->
  get result "confidence" = Ok co ->
  clamp_confidence co = Ok n ->
  exists res, normalize r result = Ok res /\ status res = s'.
Proof.
  intros Hst Hlow Hco Hn.
  destruct (get_after_status result st "evidence" Hst) as [ev Hev].
  destruct (get_after_status result st "reasoning" Hst) as [re Hre].
  unfold normalize, mbind, completion_bind.
  rewrite Hst, Hlow, Hev, Hre, Hco, Hn.
  eexists. split; reflexivity.
Qed.

(** Whatever the reply, the status after normalisation or after the
    [catch] block is [fail] unless the reply was normalised. *)
Lemma status_after_catch (r result : value) :
  (forall res, normalize r result = Ok res -> status res = "fail") ->
  status match normalize r result with
         | Ok res => res
         | Throw m => error_result r m
         end = "fail".
Proof.
  intros H. destruct (normalize r result) as [res|m]; [apply H|]; reflexivity.
Qed.

(** C1.  The single-rule checker always returns a result, and its status is
    [fail] or the lower-cased status string of the reply.  Exactly: when the
    reply parses, carries a non-empty string as its status and a confidence
    that converts without an exception, the status of the result is that
    string lower-cased, so that [PASS] gives [pass] and [unknown] stays
    [unknown]; in every other case (no reply, a reply that does not parse,
    a status that is missing or falsy or not a string, a confidence whose
    conversion throws) the status is [fail]. *)
Theorem status_is_fail_or_lowercased
  (JSON_parse : string -> completion value)
  (create : nat -> string -> completion string)
  (index : nat) (pdfText : string) (r : value) (w : world) :
  exists res w',
    checkRuleWithLLM JSON_parse create index pdfText r w = (Returned res, w')
    /\ (status res = "fail"
        \/ exists text content result s,
             ToString r = Ok text
             /\ create index (build_prompt pdfText text) = Ok content
             /\ JSON_parse content = Ok result
             /\ get result "status" = Ok (VStr s)
             /\ status res = toLowerCase s)
    /\ (forall text content result,
          ToString r = Ok text ->
          create index (build_prompt pdfText text) = Ok content ->
          JSON_parse content = Ok result ->
          (get result "status" = Ok VUndef -> status res = "fail")
          /\ (forall s, get result "status" = Ok (VStr s) ->
                toLowerCase s = "pass" \/ toLowerCase s = "fail" ->
                status res = "pass" \/ status res = "fail")
          /\ (forall s co n,
                get result "status" = Ok (VStr s) -> s <> "" ->
                get result "confidence" = Ok co ->
                clamp_confidence co = Ok n ->
                status res = toLowerCase s)
          /\ (forall st, get result "status" = Ok st -> truthy st = false ->
                status res = "fail")
          /\ (forall st, get result "status" = Ok st -> truthy st = true ->
                (forall s, st <> VStr s) -> status res = "fail")
          /\ (forall co m, get result "confidence" = Ok co ->
                clamp_confidence co = Throw m -> status res = "fail")
          /\ (forall m, get result "status" = Throw m -> status res = "fail"))
    /\ ((forall text content result,
           ToString r = Ok text ->
           create index (build_prompt pdfText text) = Ok content ->
           JSON_parse content = Ok result -> False) ->
        status res = "fail").
Proof.
  rewrite checkRuleWithLLM_run. eexists _, _. split; [reflexivity|].
  split; [|split].
  - destruct (rule_result_cases JSON_parse create index pdfText r)
      as [[m Hm] | (text & content & result & Ht & Hc & Hp & Hn)].
    + rewrite Hm. left. reflexivity.
    + destruct (normalize_inv _ _ _ Hn) as (st & co & Hst & Hlow & _ & _).
      destruct (lowered_status _ _ Hlow) as [Hf | (s & -> & Hs)]; [left; exact Hf|].
      right. exists text, content, result, s. repeat split; assumption.
  - intros text content result Ht Hc Hp.
    unfold rule_result. rewrite Ht, Hc, Hp.
    split; [|split; [|split; [|split; [|split; [|split]]]]].
    + intros Hu. apply status_after_catch. intros res Hn.
      destruct (normalize_inv _ _ _ Hn) as (st & co & Hst & Hlow & _ & _).
      rewrite Hu in Hst. injection Hst as <-.
      simpl in Hlow. injection Hlow as <-. reflexivity.
    + intros s Hs Hpf.
      destruct (normalize r result) as [res|m] eqn:Hn; [|right; reflexivity].
      destruct (normalize_inv _ _ _ Hn) as (st & co & Hst & Hlow & _ & _).
      rewrite Hs in Hst. injection Hst as <-.
      destruct (lowered_status _ _ Hlow) as [Hf | (s' & [= <-] & Hs')];
        [right; exact Hf|].
      rewrite Hs'. exact Hpf.
    + intros s co n Hs Hne Hco Hn.
      assert (Hlow : call_toLowerCase (or_else (VStr s) (VStr "fail"))
                     = Ok (toLowerCase s)).
      { destruct s; [contradiction | reflexivity]. }
      destruct (normalize_ok r result _ co _ n Hs Hlow Hco Hn) as (res & -> & Hres).
      exact Hres.
    + intros st Hst Hfalsy. apply status_after_catch. intros res Hn.
      destruct (normalize_inv _ _ _ Hn) as (st' & co & Hst' & Hlow & _ & _).
      rewrite Hst in Hst'. injection Hst' as <-.
      unfold or_else in Hlow. rewrite Hfalsy in Hlow.
      simpl in Hlow. injection Hlow as <-. reflexivity.
    + intros st Hst Htruthy Hnot. apply status_after_catch. intros res Hn.
      destruct (normalize_inv _ _ _ Hn) as (st' & co & Hst' & Hlow & _ & _).
      rewrite Hst in Hst'. injection Hst' as <-.
      unfold or_else in Hlow. rewrite Htruthy in Hlow.
      destruct st as [| |b|x|s|l|p]; try discriminate.
      exfalso. apply (Hnot s). reflexivity.
    + intros co m Hco Hthrow. apply status_after_catch. intros res Hn.
      destruct (normalize_inv _ _ _ Hn) as (st & co' & _ & _ & Hco' & Hclamp).
      rewrite Hco in Hco'. injection Hco' as <-.
      rewrite Hthrow in Hclamp. discriminate.
    + intros m Hthrow. apply status_after_catch. intros res Hn.
      destruct (normalize_inv _ _ _ Hn) as (st & co & Hst & _).
      rewrite Hthrow in Hst. discriminate.
  - intros Hnone.
    destruct (rule_result_cases JSON_parse create index pdfText r)
      as [[m Hm] | (text & content & result & Ht & Hc & Hp & _)].
    + rewrite Hm. reflexivity.
    + exfalso. exact (Hnone text content result Ht Hc Hp).
Qed.

(** ** Promise.all *)

Lemma filled_Some (values : list (option RuleResult)) (vs : list RuleResult) :
  filled values = Some vs <-> values = map Some vs.
Proof.
  revert vs. induction values as [|[v|] rest IH]; intros vs; simpl.
  - split; [intros [= <-]; reflexivity|]. destruct vs; [reflexivity | discriminate].
  - destruct (filled rest) as [vs'|] eqn:Hf.
    + split.
      * intros [= <-]. simpl. f_equal. apply IH. reflexivity.
      * destruct vs as [|v0 vs0]; [discriminate|]. simpl. intros [= -> H].
        apply IH in H. injection H as ->. reflexivity.
    + split; [discriminate|].
      destruct vs as [|v0 vs0]; [discriminate|]. simpl. intros [= -> H].
      apply IH in H. discriminate.
  - split; [discriminate|]. destruct vs; discriminate.
Qed.

Lemma filled_None (values : list (option RuleResult)) :
  filled values = None -> exists i, values !! i = Some None.
Proof.
  induction values as [|[v|] rest IH]; simpl.
  - discriminate.
  - destruct (filled rest); [discriminate|]. intros _.
    destruct (IH eq_refl) as [i Hi]. exists (S i). exact Hi.
  - intros _. exists 0%nat. reflexivity.
Qed.

Section Collect.

Variable tasks : list task.

(** Every promise is fulfilled: whatever the order, once each index has had
    its turn the values are those of the promises, in index order. *)
Lemma collect_fulfilled (rs : list RuleResult) (order : list nat)
  (values : list (option RuleResult)) :
  map settlement tasks = map Ok rs ->
  length values = length rs ->
  (forall i v, values !! i = Some (Some v) -> rs !! i = Some v) ->
  (forall i, values !! i = Some None -> In i order) ->
  collect tasks order values = Returned rs.
Proof.
  intros Hall. revert values.
  assert (Hdone : forall values vs,
             length values = length rs ->
             (forall i v, values !! i = Some (Some v) -> rs !! i = Some v) ->
             filled values = Some vs -> vs = rs).
  { intros values vs Hlen Hinv Hf. apply filled_Some in Hf. subst values.
    rewrite length_map in Hlen. apply list_eq. intros i.
    destruct (vs !! i) as [v|] eqn:Hv.
    - symmetry. apply Hinv. rewrite list_lookup_fmap, Hv. reflexivity.
    - symmetry. apply lookup_ge_None. apply lookup_ge_None in Hv. lia. }
  induction order as [|i order IH]; intros values Hlen Hinv Hcov.
  - simpl. destruct (filled values) as [vs|] eqn:Hf.
    + f_equal. eapply Hdone; eassumption.
    + destruct (filled_None _ Hf) as [i Hi]. destruct (Hcov i Hi).
  - simpl. destruct (filled values) as [vs|] eqn:Hf.
    + f_equal. eapply Hdone; eassumption.
    + destruct (tasks !! i) as [t|] eqn:Ht.
      * assert (Hs : map settlement tasks !! i = Some (settlement t)).
        { rewrite list_lookup_fmap, Ht. reflexivity. }
        rewrite Hall, list_lookup_fmap in Hs.
        destruct (rs !! i) as [v|] eqn:Hv; [|discriminate].
        simpl in Hs. injection Hs as Hs. rewrite <- Hs.
        apply IH.
        -- rewrite length_insert. exact Hlen.
        -- intros j v' Hj. destruct (decide (i = j)) as [<-|Hne].
           ++ rewrite list_lookup_insert_eq in Hj.
              ** injection Hj as <-. exact Hv.
              ** rewrite Hlen. apply lookup_lt_Some in Hv. exact Hv.
           ++ rewrite list_lookup_insert_ne in Hj by exact Hne. apply Hinv, Hj.
        -- intros j Hj. destruct (decide (i = j)) as [<-|Hne].
           ++ rewrite list_lookup_insert_eq in Hj; [discriminate|].
              rewrite Hlen. apply lookup_lt_Some in Hv. exact Hv.
           ++ rewrite list_lookup_insert_ne in Hj by exact Hne.
              destruct (Hcov j Hj) as [Heq|Hin]; [contradiction | exact Hin].
      * apply IH; [exact Hlen | exact Hinv |].
        intros j Hj. destruct (Hcov j Hj) as [<-|Hin]; [|exact Hin].
        exfalso. apply lookup_lt_Some in Hj. apply lookup_ge_None in Ht.
        assert (length tasks = length rs).
        { rewrite <- (length_map settlement tasks), Hall, length_map. reflexivity. }
        lia.
Qed.

(** Some promise is rejected, and every rejection carries the message [m]:
    the whole is rejected with [m] as soon as the turn of a rejected promise
    comes, and it cannot be fulfilled before. *)
Lemma collect_rejected (m : string) (j : nat) (tj : task) (order : list nat)
  (values : list (option RuleResult)) :
  tasks !! j = Some tj ->
  settlement tj = Throw m ->
  (forall i t m', tasks !! i = Some t -> settlement t = Throw m' -> m' = m) ->
  values !! j = Some None ->
  In j order ->
  collect tasks order values = Thrown m.
Proof.
  intros Hj Hsj Hsame. revert values.
  induction order as [|i order IH]; intros values Hvj Hin; [destruct Hin|].
  simpl.
  destruct (filled values) as [vs|] eqn:Hf.
  { apply filled_Some in Hf. subst values.
    rewrite list_lookup_fmap in Hvj. destruct (vs !! j); discriminate. }
  destruct (tasks !! i) as [t|] eqn:Ht.
  - destruct (settlement t) as [v|m'] eqn:Hs.
    + assert (Hne : i <> j).
      { intros ->. rewrite Hj in Ht. injection Ht as <-. congruence. }
      apply IH.
      * rewrite list_lookup_insert_ne by exact Hne. exact Hvj.
      * destruct Hin as [Heq|Hin]; [contradiction | exact Hin].
    + f_equal. eapply Hsame; eassumption.
  - apply IH; [exact Hvj|].
    destruct Hin as [->|Hin]; [congruence | exact Hin].
Qed.

Lemma settle_order_settled (sched : list nat) (i : nat) (t : task) :
  tasks !! i = Some t -> is_settled t = true -> In i (settle_order tasks sched).
Proof.
  intros Ht Hs. unfold settle_order. apply in_app_iff. left.
  apply filter_In. split.
  - apply in_seq. apply lookup_lt_Some in Ht. lia.
  - rewrite Ht. exact Hs.
Qed.

Lemma settle_order_awaiting (sched : list nat) (i : nat) (t : task) :
  tasks !! i = Some t -> In i sched -> In i (settle_order tasks sched).
Proof.
  intros Ht Hin. destruct (is_settled t) eqn:Hs.
  - eapply settle_order_settled; eassumption.
  - unfold settle_order. apply in_app_iff. right.
    apply filter_In. split; [exact Hin|]. rewrite Ht, Hs. reflexivity.
Qed.

End Collect.

(** ** The paths of the request handler *)

Ltac run_handler :=
  unfold check_pdf, try_catch, send, log, unlinkSync, readFileSync, existsSync,
    call_pdfParse, Promise_all, mbind, M_bind, mret, M_ret; simpl.

Section Paths.

Variable JSON_parse : string -> completion value.
Variable pdfParse : list Byte.byte -> completion string.
Variable create : nat -> string -> completion string.

Variable req : request.
Variable sched : list nat.
Variable w : world.

#[local] Abbreviation handle := (check_pdf JSON_parse pdfParse create req sched w).

Lemma check_pdf_no_file :
  file req = None ->
  handle = (Returned tt,
            mkWorld (files w) (trace w ++ [EvSend 400 (BError "No PDF file uploaded")])).
Proof. intros Hf. run_handler. rewrite Hf. reflexivity. Qed.

Section Stored.

Variable f : upload.
Variable buffer : list Byte.byte.
Hypothesis Hfile : file req = Some f.
Hypothesis Hstored : files w !! path f = Some buffer.

Lemma check_pdf_bad_json (m : string) :
  parse_rules JSON_parse (body_rules req) = Throw m ->
  handle = (Returned tt,
            mkWorld (delete (path f) (files w))
              (trace w ++ [EvUnlink (path f); EvSend 400 (BError "Invalid rules format")])).
Proof.
  intros Hp. run_handler. rewrite Hfile, Hp, Hstored. simpl.
  rewrite <- app_assoc. reflexivity.
Qed.

Lemma check_pdf_no_rules (rules : value) :
  parse_rules JSON_parse (body_rules req) = Ok rules ->
  no_rules rules = true ->
  handle = (Returned tt,
            mkWorld (delete (path f) (files w))
              (trace w ++ [EvUnlink (path f);
                           EvSend 400 (BError "At least one rule is required")])).
Proof.
  intros Hp Hn. run_handler. rewrite Hfile, Hp, Hn, Hstored. simpl.
  rewrite <- app_assoc. reflexivity.
Qed.

Section Extraction.

Variable rules : value.
Hypothesis Hparse : parse_rules JSON_parse (body_rules req) = Ok rules.
Hypothesis Hrules : no_rules rules = false.

Lemma check_pdf_extract_throws (m : string) :
  pdfParse buffer = Throw m ->
  handle = (Returned tt,
            mkWorld (delete (path f) (files w))
              (trace w ++ [EvRead (path f); EvExtract buffer; EvUnlink (path f);
                           EvSend 500 (BFailure "Failed to process PDF" m)])).
Proof.
  intros He. run_handler. rewrite Hfile, Hparse, Hrules, Hstored. simpl.
  rewrite He. simpl.
  rewrite bool_decide_true by (rewrite Hstored; eexists; reflexivity).
  simpl. rewrite Hstored. simpl. rewrite <- !app_assoc. reflexivity.
Qed.

Lemma check_pdf_no_text (pdfText : string) :
  pdfParse buffer = Ok pdfText ->
  no_text pdfText = true ->
  handle = (Returned tt,
            mkWorld (delete (path f) (files w))
              (trace w ++ [EvRead (path f); EvExtract buffer; EvUnlink (path f);
                           EvSend 400 (BError "Could not extract text from PDF")])).
Proof.
  intros He Hn. run_handler. rewrite Hfile, Hparse, Hrules, Hstored. simpl.
  rewrite He. simpl. rewrite Hstored. simpl. rewrite Hn. simpl.
  rewrite <- !app_assoc. reflexivity.
Qed.

Lemma check_pdf_processing (pdfText : string) :
  pdfParse buffer = Ok pdfText ->
  no_text pdfText = false ->
  let tasks := tasks_from JSON_parse create pdfText 0 (elements rules) in
  let started :=
    trace w ++ [EvRead (path f); EvExtract buffer; EvUnlink (path f)]
    ++ calls_from pdfText 0 (elements rules) in
  handle =
    match collect tasks (settle_order tasks sched) (replicate (length tasks) None) with
    | Returned rs =>
        (Returned tt,
         mkWorld (delete (path f) (files w)) (started ++ [EvSend 200 (BResults rs)]))
    | Thrown m =>
        (Returned tt,
         mkWorld (delete (path f) (files w))
           (started ++ [EvSend 500 (BFailure "Failed to process PDF" m)]))
    | Pending => (Pending, mkWorld (delete (path f) (files w)) started)
    end.
Proof.
  intros He Hn tasks started. run_handler. rewrite Hfile, Hparse, Hrules, Hstored. simpl.
  rewrite He. simpl. rewrite Hstored. simpl. rewrite Hn. simpl.
  rewrite start_all_run. simpl. fold tasks.
  assert (Htr : ((trace w ++ [EvRead (path f)]) ++ [EvExtract buffer]) ++ [EvUnlink (path f)]
                = trace w ++ [EvRead (path f); EvExtract buffer; EvUnlink (path f)]).
  { rewrite <- !app_assoc. reflexivity. }
  rewrite Htr. clear Htr.
  assert (Hst : (trace w ++ [EvRead (path f); EvExtract buffer; EvUnlink (path f)])
                ++ calls_from pdfText 0 (elements rules) = started).
  { unfold started. rewrite <- app_assoc. reflexivity. }
  rewrite Hst. clear Hst.
  destruct (collect tasks _ _) as [rs|m|]; simpl.
  - reflexivity.
  - rewrite lookup_delete_eq. reflexivity.
  - reflexivity.
Qed.

End Extraction.
End Stored.
End Paths.

(** ** Whole requests *)

Lemma is_blank_throws (r : value) (m : string) :
  is_blank r = Throw m -> m = not_a_function "rule.trim".
Proof.
  unfold is_blank.
  destruct r as [| |b|x|s|l|p]; simpl; try discriminate.
  - destruct b; simpl; [intros [= <-]; reflexivity | discriminate].
  - destruct x; simpl; try discriminate; intros [= <-]; reflexivity.
  - destruct s; simpl; discriminate.
  - intros [= <-]; reflexivity.
  - intros [= <-]; reflexivity.
Qed.

Lemma is_blank_not_plain (r : value) :
  truthy r = true -> (forall s, r <> VStr s) ->
  is_blank r = Throw (not_a_function "rule.trim").
Proof.
  intros Ht Hs. unfold is_blank. rewrite Ht. simpl.
  destruct r as [| |b|x|s|l|p]; try discriminate; try reflexivity.
  exfalso. exact (Hs s eq_refl).
Qed.

Lemma is_blank_plain (r : value) :
  plain_rule r = true -> exists b, is_blank r = Ok b.
Proof.
  intros Hp. destruct r as [| |b|x|s|l|p]; simpl in Hp;
    try (destruct b); try (destruct x); try discriminate;
    try (eexists; reflexivity).
  exists (whitespace_only s). apply is_blank_string.
Qed.

Lemma rule_result_rule
  (JSON_parse : string -> completion value)
  (create : nat -> string -> completion string)
  (index : nat) (pdfText : string) (r : value) :
  rule (rule_result JSON_parse create index pdfText r) = r.
Proof.
  unfold rule_result.
  destruct (ToString r); [|reflexivity].
  destruct (create _ _); [|reflexivity].
  destruct (JSON_parse _) as [result|]; [|reflexivity].
  unfold normalize, mbind, completion_bind.
  destruct (get result "status"); [|reflexivity].
  destruct (call_toLowerCase _); [|reflexivity].
  destruct (get result "evidence"); [|reflexivity].
  destruct (get result "reasoning"); [|reflexivity].
  destruct (get result "confidence"); [|reflexivity].
  destruct (clamp_confidence _); reflexivity.
Qed.

Lemma rule_result_ext
  (JSON_parse : string -> completion value)
  (create create' : nat -> string -> completion string)
  (index : nat) (pdfText : string) (r : value) :
  (forall prompt, create' index prompt = create index prompt) ->
  rule_result JSON_parse create' index pdfText r
  = rule_result JSON_parse create index pdfText r.
Proof.
  intros H. unfold rule_result. destruct (ToString r); [|reflexivity].
  rewrite H. reflexivity.
Qed.

Section Fulfilled.

Variable JSON_parse : string -> completion value.
Variable pdfParse : list Byte.byte -> completion string.
Variable create : nat -> string -> completion string.

Lemma plain_tasks_settle (pdfText : string) (rules : list value) :
  (forall r, In r rules -> plain_rule r = true) ->
  map settlement (tasks_from JSON_parse create pdfText 0 rules)
  = map Ok (imap (plain_result JSON_parse create pdfText) rules).
Proof.
  intros Hplain. apply list_eq. intros i.
  rewrite !list_lookup_fmap, tasks_from_lookup, list_lookup_imap.
  destruct (rules !! i) as [r|] eqn:Hi; [|reflexivity]. simpl.
  assert (Hin : In r rules).
  { apply list_elem_of_In. eapply list_elem_of_lookup_2. exact Hi. }
  destruct (is_blank_plain r (Hplain r Hin)) as [b Hb].
  unfold rule_task, plain_result. rewrite Hb. destruct b; reflexivity.
Qed.

(** A request with a stored upload, a non-empty list of plain rules and a
    text: once every rule has had its reply the handler answers 200 with
    the results in rule order, whatever the order of the replies. *)
Lemma check_pdf_fulfilled (req : request) (sched : list nat) (w : world)
  (f : upload) (buffer : list Byte.byte) (rules : list value) (pdfText : string) :
  file req = Some f ->
  files w !! path f = Some buffer ->
  parse_rules JSON_parse (body_rules req) = Ok (VArr rules) ->
  rules <> [] ->
  (forall r, In r rules -> plain_rule r = true) ->
  pdfParse buffer = Ok pdfText ->
  no_text pdfText = false ->
  (forall i r, rules !! i = Some r -> is_blank r = Ok false -> In i sched) ->
  check_pdf JSON_parse pdfParse create req sched w
  = (Returned tt,
     mkWorld (delete (path f) (files w))
       ((trace w ++ [EvRead (path f); EvExtract buffer; EvUnlink (path f)]
         ++ calls_from pdfText 0 rules)
        ++ [EvSend 200 (BResults (imap (plain_result JSON_parse create pdfText) rules))])).
Proof.
  intros Hfile Hstored Hparse Hne Hplain Hext Htext Hsched.
  assert (Hrules : no_rules (VArr rules) = false).
  { unfold no_rules. simpl. destruct rules; [contradiction | reflexivity]. }
  rewrite (check_pdf_processing JSON_parse pdfParse create req sched w f buffer
             Hfile Hstored (VArr rules) Hparse Hrules pdfText Hext Htext).
  simpl.
  rewrite (collect_fulfilled _ (imap (plain_result JSON_parse create pdfText) rules)).
  - reflexivity.
  - apply plain_tasks_settle, Hplain.
  - rewrite length_replicate, tasks_from_length, length_imap. reflexivity.
  - intros i v Hv. apply lookup_replicate in Hv. destruct Hv as [Hv _]. discriminate.
  - intros i Hi. apply lookup_replicate in Hi. destruct Hi as [_ Hi].
    rewrite tasks_from_length in Hi.
    destruct (tasks_from JSON_parse create pdfText 0 rules !! i) as [t|] eqn:Ht.
    + destruct (is_settled t) eqn:Hs;
        [eapply settle_order_settled; eassumption|].
      eapply settle_order_awaiting; [exact Ht|].
      rewrite tasks_from_lookup in Ht.
      destruct (rules !! i) as [r|] eqn:Hr; [|discriminate].
      simpl in Ht. injection Ht as <-.
      apply (Hsched i r Hr). unfold rule_task in Hs.
      destruct (is_blank r) as [[|]|m]; try discriminate. reflexivity.
    + apply lookup_ge_None in Ht. rewrite tasks_from_length in Ht. lia.
Qed.

End Fulfilled.

(** C5.  For a request with a stored upload, a non-empty array of rules
    (strings, or values that count as no rule) and a text that is not
    blank, there is one list of results, with one result per rule at the
    index of its rule, that the handler sends with status 200 for every
    order in which the replies of the service arrive. *)
Theorem results_follow_rule_order
  (JSON_parse : string -> completion value)
  (pdfParse : list Byte.byte -> completion string)
  (create : nat -> string -> completion string)
  (req : request) (w : world) (f : upload) (buffer : list Byte.byte)
  (rules : list value) (pdfText : string)
  (Hfile : file req = Some f)
  (Hstored : files w !! path f = Some buffer)
  (Hparse : parse_rules JSON_parse (body_rules req) = Ok (VArr rules))
  (Hrules : rules <> [])
  (Hplain : forall r, In r rules -> plain_rule r = true)
  (Hext : pdfParse buffer = Ok pdfText)
  (Htext : no_text pdfText = false) :
  exists results : list RuleResult,
    length results = length rules
    /\ (forall i r, rules !! i = Some r ->
          exists res, results !! i = Some res
                      /\ rule res = or_else r (VStr "Empty rule")
                      /\ settlement (rule_task JSON_parse create pdfText i r) = Ok res)
    /\ (forall sched : list nat,
          (forall i, (i < length rules)%nat -> In i sched) ->
          exists calls,
            check_pdf JSON_parse pdfParse create req sched w
            = (Returned tt,
               mkWorld (delete (path f) (files w))
                 ((trace w ++ [EvRead (path f); EvExtract buffer; EvUnlink (path f)]
                   ++ calls)
                  ++ [EvSend 200 (BResults results)]))
            /\ forall e, In e calls -> is_llm e = true).
Proof.
  exists (imap (plain_result JSON_parse create pdfText) rules).
  split; [apply length_imap|]. split.
  - intros i r Hi. exists (plain_result JSON_parse create pdfText i r).
    split; [rewrite list_lookup_imap, Hi; reflexivity|].
    assert (Hin : In r rules).
    { apply list_elem_of_In. eapply list_elem_of_lookup_2. exact Hi. }
    destruct (is_blank_plain r (Hplain r Hin)) as [b Hb].
    unfold plain_result, rule_task. rewrite Hb. destruct b; simpl.
    + split; reflexivity.
    + split; [|reflexivity]. rewrite rule_result_rule.
      unfold or_else. destruct (truthy r) eqn:Ht; [reflexivity|].
      unfold is_blank in Hb. rewrite Ht in Hb. discriminate.
  - intros sched Hsched. exists (calls_from pdfText 0 rules). split.
    + eapply check_pdf_fulfilled; try eassumption.
      intros i r Hi _. apply Hsched. eapply lookup_lt_Some. exact Hi.
    + intros e He. eapply calls_from_llm. exact He.
Qed.

(** C7.  For the rules [Document mentions a date.], the empty string and
    [Document has a summary.], a stored upload and a text that is not
    blank, the handler sends 200 with three results: the second is exactly
    the fixed result of a blank rule, whose rule field reads [Empty rule]
    and whose evidence reads [No rule provided], and the first and third
    are what the single-rule checker returns for their rules. *)
Theorem three_rules_example
  (JSON_parse : string -> completion value)
  (pdfParse : list Byte.byte -> completion string)
  (create : nat -> string -> completion string)
  (sched : list nat) (w : world) (f : upload) (buffer : list Byte.byte)
  (pdfText : string)
  (Hstored : files w !! path f = Some buffer)
  (Hparse : JSON_parse three_rules_text = Ok (VArr three_rules))
  (Hext : pdfParse buffer = Ok pdfText)
  (Htext : no_text pdfText = false)
  (Hfirst : In 0%nat sched)
  (Hthird : In 2%nat sched) :
  exists calls,
    check_pdf JSON_parse pdfParse create
      (mkRequest (Some f) (VStr three_rules_text)) sched w
    = (Returned tt,
       mkWorld (delete (path f) (files w))
         ((trace w ++ [EvRead (path f); EvExtract buffer; EvUnlink (path f)] ++ calls)
          ++ [EvSend 200
                (BResults
                   [rule_result JSON_parse create 0 pdfText
                      (VStr "Document mentions a date.");
                    mkRuleResult (VStr "Empty rule") "fail" (VStr "No rule provided")
                      (VStr "Rule is empty or invalid") 0;
                    rule_result JSON_parse create 2 pdfText
                      (VStr "Document has a summary.")])]))
    /\ (forall w0, fst (checkRuleWithLLM JSON_parse create 0 pdfText
                          (VStr "Document mentions a date.") w0)
                   = Returned (rule_result JSON_parse create 0 pdfText
                                 (VStr "Document mentions a date.")))
    /\ (forall w0, fst (checkRuleWithLLM JSON_parse create 2 pdfText
                          (VStr "Document has a summary.") w0)
                   = Returned (rule_result JSON_parse create 2 pdfText
                                 (VStr "Document has a summary."))).
Proof.
  exists (calls_from pdfText 0 three_rules). split.
  - rewrite (check_pdf_fulfilled JSON_parse pdfParse create
               (mkRequest (Some f) (VStr three_rules_text)) sched w f buffer
               three_rules pdfText); try assumption; try reflexivity.
    + discriminate.
    + intros r [<-|[<-|[<-|[]]]]; reflexivity.
    + intros i r Hi Hb.
      destruct i as [|[|[|i]]]; try assumption; simpl in Hi; [|discriminate].
      injection Hi as <-. discriminate.
  - split; intros w0; rewrite checkRuleWithLLM_run; reflexivity.
Qed.

(** ** The temporary upload *)

(** C8.  Once multer has stored the upload, the handler deletes it exactly
    once on every path: the trace of the request holds one [unlink] of the
    upload, no response is sent before it, and the upload directory ends as
    it began minus the upload.  The handler itself never throws; it ends
    with a response as its last event, unless a reply of the service never
    arrives, in which case nothing is sent. *)
Theorem upload_deleted_once
  (JSON_parse : string -> completion value)
  (pdfParse : list Byte.byte -> completion string)
  (create : nat -> string -> completion string)
  (req : request) (sched : list nat) (w : world)
  (f : upload) (buffer : list Byte.byte)
  (Hfile : file req = Some f)
  (Hstored : files w !! path f = Some buffer) :
  exists out w' before after,
    check_pdf JSON_parse pdfParse create req sched w = (out, w')
    /\ trace w' = trace w ++ before ++ EvUnlink (path f) :: after
    /\ (forall e, In e (before ++ after) -> is_unlink e = false)
    /\ (forall e, In e before -> is_send e = false)
    /\ files w' = delete (path f) (files w)
    /\ files w' !! path f = None
    /\ ((out = Returned tt
         /\ exists calls code payload,
              after = calls ++ [EvSend code payload]
              /\ forall e, In e calls -> is_send e = false)
        \/ (out = Pending /\ forall e, In e after -> is_send e = false)).
Proof.
  destruct (parse_rules JSON_parse (body_rules req)) as [rules|m] eqn:Hparse.
  2:{ eexists _, _, [], _. split; [eapply check_pdf_bad_json; eassumption|].
      simpl. split; [reflexivity|].
      split; [intros e [<-|[]]; reflexivity|].
      split; [intros e []|]. split; [reflexivity|].
      split; [apply lookup_delete_eq|].
      left. split; [reflexivity|]. exists [], 400, (BError "Invalid rules format").
      split; [reflexivity | intros e []]. }
  destruct (no_rules rules) eqn:Hrules.
  { eexists _, _, [], _. split; [eapply check_pdf_no_rules; eassumption|].
    simpl. split; [reflexivity|].
    split; [intros e [<-|[]]; reflexivity|].
    split; [intros e []|]. split; [reflexivity|].
    split; [apply lookup_delete_eq|].
    left. split; [reflexivity|].
    exists [], 400, (BError "At least one rule is required").
    split; [reflexivity | intros e []]. }
  destruct (pdfParse buffer) as [pdfText|m] eqn:Hext.
  2:{ eexists _, _, [EvRead (path f); EvExtract buffer], _.
      split; [eapply check_pdf_extract_throws; eassumption|].
      simpl. split; [reflexivity|].
      split; [intros e [<-|[<-|[<-|[]]]]; reflexivity|].
      split; [intros e [<-|[<-|[]]]; reflexivity|]. split; [reflexivity|].
      split; [apply lookup_delete_eq|].
      left. split; [reflexivity|].
      exists [], 500, (BFailure "Failed to process PDF" m).
      split; [reflexivity | intros e []]. }
  destruct (no_text pdfText) eqn:Htext.
  { eexists _, _, [EvRead (path f); EvExtract buffer], _.
    split; [eapply check_pdf_no_text; eassumption|].
    simpl. split; [reflexivity|].
    split; [intros e [<-|[<-|[<-|[]]]]; reflexivity|].
    split; [intros e [<-|[<-|[]]]; reflexivity|]. split; [reflexivity|].
    split; [apply lookup_delete_eq|].
    left. split; [reflexivity|].
    exists [], 400, (BError "Could not extract text from PDF").
    split; [reflexivity | intros e []]. }
  pose proof (check_pdf_processing JSON_parse pdfParse create req sched w f buffer
                Hfile Hstored rules Hparse Hrules pdfText Hext Htext) as Hrun.
  simpl in Hrun.
  assert (Hcalls : forall e, In e (calls_from pdfText 0 (elements rules)) ->
                             is_unlink e = false /\ is_send e = false).
  { intros e He.
    destruct (calls_from_elem _ _ _ _ He) as (i & r & text & _ & _ & _ & ->).
    split; reflexivity. }
  destruct (collect _ _ _) as [rs|m|].
  - eexists _, _, [EvRead (path f); EvExtract buffer],
      (calls_from pdfText 0 (elements rules) ++ [EvSend 200 (BResults rs)]).
    split; [exact Hrun|]. simpl. split; [rewrite <- app_assoc; reflexivity|].
    split.
    { intros e [<-|[<-|He]]; try reflexivity.
      apply in_app_iff in He. destruct He as [He|[<-|[]]]; [|reflexivity].
      apply Hcalls, He. }
    split; [intros e [<-|[<-|[]]]; reflexivity|]. split; [reflexivity|].
    split; [apply lookup_delete_eq|].
    left. split; [reflexivity|]. eexists _, _, _. split; [reflexivity|].
    intros e He. apply Hcalls, He.
  - eexists _, _, [EvRead (path f); EvExtract buffer],
      (calls_from pdfText 0 (elements rules)
       ++ [EvSend 500 (BFailure "Failed to process PDF" m)]).
    split; [exact Hrun|]. simpl. split; [rewrite <- app_assoc; reflexivity|].
    split.
    { intros e [<-|[<-|He]]; try reflexivity.
      apply in_app_iff in He. destruct He as [He|[<-|[]]]; [|reflexivity].
      apply Hcalls, He. }
    split; [intros e [<-|[<-|[]]]; reflexivity|]. split; [reflexivity|].
    split; [apply lookup_delete_eq|].
    left. split; [reflexivity|]. eexists _, _, _. split; [reflexivity|].
    intros e He. apply Hcalls, He.
  - eexists _, _, [EvRead (path f); EvExtract buffer],
      (calls_from pdfText 0 (elements rules)).
    split; [exact Hrun|]. simpl. split; [reflexivity|].
    split.
    { intros e [<-|[<-|He]]; try reflexivity. apply Hcalls, He. }
    split; [intros e [<-|[<-|[]]]; reflexivity|]. split; [reflexivity|].
    split; [apply lookup_delete_eq|].
    right. split; [reflexivity|]. intros e He. apply Hcalls, He.
Qed.

(** ** Rules that are not strings *)

(** C10.  When the rules array holds a truthy element that is not a string
    (the number 1, say), the blank-rule test of that element throws the
    TypeError of calling [trim] on it; the rejection of its promise rejects
    [Promise.all], and the handler answers with status 500, the error
    [Failed to process PDF] and the message of the TypeError: no result of
    any rule is sent, whatever the other rules and the order of the
    replies. *)
Theorem non_string_rule_rejects_request
  (JSON_parse : string -> completion value)
  (pdfParse : list Byte.byte -> completion string)
  (create : nat -> string -> completion string)
  (req : request) (sched : list nat) (w : world)
  (f : upload) (buffer : list Byte.byte)
  (rules : list value) (pdfText : string) (i : nat) (r : value)
  (Hfile : file req = Some f)
  (Hstored : files w !! path f = Some buffer)
  (Hparse : parse_rules JSON_parse (body_rules req) = Ok (VArr rules))
  (Hext : pdfParse buffer = Ok pdfText)
  (Htext : no_text pdfText = false)
  (Hi : rules !! i = Some r)
  (Htruthy : truthy r = true)
  (Hnot_string : forall s, r <> VStr s) :
  is_blank r = Throw "rule.trim is not a function"
  /\ exists calls,
       check_pdf JSON_parse pdfParse create req sched w
       = (Returned tt,
          mkWorld (delete (path f) (files w))
            ((trace w ++ [EvRead (path f); EvExtract buffer; EvUnlink (path f)]
              ++ calls)
             ++ [EvSend 500
                   (BFailure "Failed to process PDF" "rule.trim is not a function")]))
       /\ forall e, In e calls -> is_llm e = true.
Proof.
  pose proof (is_blank_not_plain r Htruthy Hnot_string) as Hblank.
  split; [exact Hblank|].
  exists (calls_from pdfText 0 rules). split; [|intros e He; eapply calls_from_llm, He].
  assert (Hrules : no_rules (VArr rules) = false).
  { unfold no_rules. simpl. destruct rules; [discriminate | reflexivity]. }
  rewrite (check_pdf_processing JSON_parse pdfParse create req sched w f buffer
             Hfile Hstored (VArr rules) Hparse Hrules pdfText Hext Htext).
  simpl.
  assert (Ht : tasks_from JSON_parse create pdfText 0 rules !! i
               = Some (Settled (Throw (not_a_function "rule.trim")))).
  { rewrite tasks_from_lookup, Hi. simpl. unfold rule_task. rewrite Hblank. reflexivity. }
  rewrite (collect_rejected _ (not_a_function "rule.trim") i _ _ _ Ht).
  - reflexivity.
  - reflexivity.
  - intros j t m' Hj Hs. rewrite tasks_from_lookup in Hj.
    destruct (rules !! j) as [r'|]; [|discriminate]. simpl in Hj. injection Hj as <-.
    unfold rule_task in Hs.
    destruct (is_blank r') as [[|]|m0] eqn:Hb; try discriminate.
    simpl in Hs. injection Hs as <-. eapply is_blank_throws, Hb.
  - apply lookup_replicate. split; [reflexivity|].
    apply lookup_lt_Some in Ht. exact Ht.
  - eapply settle_order_settled; [exact Ht | reflexivity].
Qed.

(** ** Uploads that are not PDFs *)

(** C4.  The handler does not look at the type of the upload: a request is
    handled the same whatever the MIME type and the name of the file.  With
    a valid, non-empty rules array the stored bytes are always given to the
    extractor; when the extractor throws, the request is answered 500 with
    its message, and when it finds no text, 400; in both cases the upload
    is deleted first and the service is not called. *)
Theorem upload_type_is_not_checked
  (JSON_parse : string -> completion value)
  (pdfParse : list Byte.byte -> completion string)
  (create : nat -> string -> completion string)
  (req : request) (sched : list nat) (w : world)
  (f : upload) (buffer : list Byte.byte) (rules : value)
  (Hfile : file req = Some f)
  (Hstored : files w !! path f = Some buffer)
  (Hparse : parse_rules JSON_parse (body_rules req) = Ok rules)
  (Hrules : no_rules rules = false) :
  (forall kind name,
     check_pdf JSON_parse pdfParse create
       (mkRequest (Some (mkUpload (path f) kind name)) (body_rules req)) sched w
     = check_pdf JSON_parse pdfParse create req sched w)
  /\ In (EvExtract buffer)
       (trace (snd (check_pdf JSON_parse pdfParse create req sched w)))
  /\ (forall m, pdfParse buffer = Throw m ->
        check_pdf JSON_parse pdfParse create req sched w
        = (Returned tt,
           mkWorld (delete (path f) (files w))
             (trace w ++ [EvRead (path f); EvExtract buffer; EvUnlink (path f);
                          EvSend 500 (BFailure "Failed to process PDF" m)])))
  /\ (forall pdfText, pdfParse buffer = Ok pdfText -> no_text pdfText = true ->
        check_pdf JSON_parse pdfParse create req sched w
        = (Returned tt,
           mkWorld (delete (path f) (files w))
             (trace w ++ [EvRead (path f); EvExtract buffer; EvUnlink (path f);
                          EvSend 400 (BError "Could not extract text from PDF")]))).
Proof.
  split.
  { intros kind name. unfold check_pdf. rewrite Hfile. reflexivity. }
  split.
  { destruct (pdfParse buffer) as [pdfText|m] eqn:Hext.
    - destruct (no_text pdfText) eqn:Htext.
      + rewrite (check_pdf_no_text JSON_parse pdfParse create req sched w f buffer
                   Hfile Hstored rules Hparse Hrules pdfText Hext Htext).
        simpl. apply in_app_iff. right. simpl. tauto.
      + rewrite (check_pdf_processing JSON_parse pdfParse create req sched w f buffer
                   Hfile Hstored rules Hparse Hrules pdfText Hext Htext).
        simpl. destruct (collect _ _ _); simpl;
          rewrite ?in_app_iff; simpl; tauto.
    - rewrite (check_pdf_extract_throws JSON_parse pdfParse create req sched w f buffer
                 Hfile Hstored rules Hparse Hrules m Hext).
      simpl. apply in_app_iff. right. simpl. tauto. }
  split.
  - intros m Hext. eapply check_pdf_extract_throws; eassumption.
  - intros pdfText Hext Htext. eapply check_pdf_no_text; eassumption.
Qed.

(** ** Failures of the service *)

(** C3.  When the call of the service throws for a rule, or its reply does
    not parse, the single-rule checker does not throw: it returns the
    result with status [fail], evidence [Error processing rule], the
    message of the error in its reasoning and confidence 0.  In a request,
    that result stands at the index of its rule in a 200 response, and the
    results at the other indices are the same as with any service that
    differs from this one only in how it answers that rule. *)
Theorem llm_failure_is_contained
  (JSON_parse : string -> completion value)
  (create : nat -> string -> completion string)
  (i : nat) (pdfText : string) (r : value) (text m : string)
  (Hrule : ToString r = Ok text)
  (Hfail : create i (build_prompt pdfText text) = Throw m
           \/ exists content,
                create i (build_prompt pdfText text) = Ok content
                /\ JSON_parse content = Throw m) :
  let failed :=
    mkRuleResult r "fail" (VStr "Error processing rule")
      (VStr ("Failed to analyze: " +:+ m)) 0 in
  (forall w0,
     checkRuleWithLLM JSON_parse create i pdfText r w0
     = (Returned failed,
        mkWorld (files w0) (trace w0 ++ [EvLLM i (build_prompt pdfText text)])))
  /\ (forall (pdfParse : list Byte.byte -> completion string)
        (req : request) (sched : list nat) (w : world)
        (f : upload) (buffer : list Byte.byte) (rules : list value),
        file req = Some f ->
        files w !! path f = Some buffer ->
        parse_rules JSON_parse (body_rules req) = Ok (VArr rules) ->
        (forall r', In r' rules -> plain_rule r' = true) ->
        pdfParse buffer = Ok pdfText ->
        no_text pdfText = false ->
        (forall j, (j < length rules)%nat -> In j sched) ->
        rules !! i = Some r ->
        is_blank r = Ok false ->
        exists results calls,
          check_pdf JSON_parse pdfParse create req sched w
          = (Returned tt,
             mkWorld (delete (path f) (files w))
               ((trace w ++ [EvRead (path f); EvExtract buffer; EvUnlink (path f)]
                 ++ calls)
                ++ [EvSend 200 (BResults results)]))
          /\ results !! i = Some failed
          /\ forall create' : nat -> string -> completion string,
               (forall j prompt, j <> i -> create' j prompt = create j prompt) ->
               exists results' calls',
                 check_pdf JSON_parse pdfParse create' req sched w
                 = (Returned tt,
                    mkWorld (delete (path f) (files w))
                      ((trace w
                        ++ [EvRead (path f); EvExtract buffer; EvUnlink (path f)]
                        ++ calls')
                       ++ [EvSend 200 (BResults results')]))
                 /\ forall j, j <> i -> results' !! j = results !! j).
Proof.
  intros failed.
  assert (Hres : rule_result JSON_parse create i pdfText r = failed).
  { unfold rule_result. rewrite Hrule.
    destruct Hfail as [Hc | (content & Hc & Hp)]; rewrite Hc; [reflexivity|].
    rewrite Hp. reflexivity. }
  split.
  - intros w0. rewrite checkRuleWithLLM_run, Hres. unfold rule_calls.
    rewrite Hrule. reflexivity.
  - intros pdfParse req sched w f buffer rules
      Hfile Hstored Hparse Hplain Hext Htext Hsched Hi Hblank.
    assert (Hne : rules <> []) by (intros ->; discriminate).
    assert (Hcov : forall j r', rules !! j = Some r' -> is_blank r' = Ok false ->
                                In j sched).
    { intros j r' Hj _. apply Hsched. eapply lookup_lt_Some. exact Hj. }
    exists (imap (plain_result JSON_parse create pdfText) rules),
      (calls_from pdfText 0 rules).
    split; [eapply check_pdf_fulfilled; eassumption|].
    split.
    { rewrite list_lookup_imap, Hi. simpl. unfold plain_result.
      rewrite Hblank, Hres. reflexivity. }
    intros create' Hsame.
    exists (imap (plain_result JSON_parse create' pdfText) rules),
      (calls_from pdfText 0 rules).
    split; [eapply check_pdf_fulfilled; eassumption|].
    intros j Hj. rewrite !list_lookup_imap.
    destruct (rules !! j) as [r'|]; [|reflexivity]. simpl. f_equal.
    unfold plain_result. destruct (is_blank r') as [[|]|]; try reflexivity.
    apply rule_result_ext. intros prompt. apply Hsame, Hj.
Qed.

(** ** What parseInt reads off a printed number *)

Lemma digit_char_cases (d : Z) :
  is_digit d ->
  d = 0 \/ d = 1 \/ d = 2 \/ d = 3 \/ d = 4 \/ d = 5 \/ d = 6 \/ d = 7 \/ d = 8 \/ d = 9.
Proof. unfold is_digit. lia. Qed.

Ltac each_digit H :=
  destruct (digit_char_cases _ H) as [->|[->|[->|[->|[->|[->|[->|[->|[->| ->]]]]]]]]].

Lemma digit_value_char (d : Z) : is_digit d -> digit_value (digit_char d) = Some d.
Proof. intros H. each_digit H; reflexivity. Qed.

Lemma digit_char_not_space (d : Z) : is_digit d -> is_space (digit_char d) = false.
Proof. intros H. each_digit H; reflexivity. Qed.

Lemma uint_digits_range (u : Decimal.uint) : Forall is_digit (uint_digits u).
Proof.
  induction u; simpl; constructor; try assumption; unfold is_digit; lia.
Qed.

Lemma string_of_uint_digits (u : Decimal.uint) :
  NilEmpty.string_of_uint u = string_of_digits (uint_digits u).
Proof.
  induction u; simpl; try reflexivity; f_equal; assumption.
Qed.

Lemma string_of_digits_app (a b : list Z) :
  string_of_digits (a ++ b) = string_of_digits a +:+ string_of_digits b.
Proof.
  induction a as [|d a IH]; [reflexivity|].
  simpl. rewrite append_cons. f_equal. exact IH.
Qed.

Lemma string_of_digits_length (l : list Z) :
  String.length (string_of_digits l) = length l.
Proof. induction l as [|d l IH]; simpl; [reflexivity | f_equal; exact IH]. Qed.

Lemma take_digits (n : nat) (l : list Z) :
  take_chars n (string_of_digits l) = string_of_digits (firstn n l).
Proof.
  revert l. induction n as [|n IH]; intros [|d l]; simpl; try reflexivity.
  f_equal. apply IH.
Qed.

Lemma repeat0_digits (n : nat) : repeat0 n = string_of_digits (repeat 0 n).
Proof. induction n as [|n IH]; simpl; [reflexivity | f_equal; exact IH]. Qed.

Lemma digit_prefix_digits (l : list Z) (rest : string) :
  Forall is_digit l ->
  digit_prefix 10 rest = [] ->
  digit_prefix 10 (string_of_digits l +:+ rest) = l.
Proof.
  intros Hl Hrest. induction Hl as [|d l Hd Hl IH].
  - exact Hrest.
  - simpl string_of_digits. rewrite append_cons. simpl digit_prefix.
    rewrite (digit_value_char d Hd).
    destruct (Z.ltb_spec d 10) as [_|Hge]; [|unfold is_digit in Hd; lia].
    f_equal. exact IH.
Qed.

Lemma fold_digits (R : Z) (l : list Z) (a : Z) :
  fold_left (fun acc d => acc * R + d) l a
  = a * R ^ Z.of_nat (length l) + digits_value R l.
Proof.
  unfold digits_value. revert a.
  induction l as [|d l IH]; intros a; simpl fold_left.
  - simpl. lia.
  - rewrite (IH (a * R + d)), (IH (0 * R + d)).
    rewrite length_cons, Nat2Z.inj_succ, Z.pow_succ_r by lia. ring.
Qed.

Lemma digits_value_app (R : Z) (a b : list Z) :
  digits_value R (a ++ b)
  = digits_value R a * R ^ Z.of_nat (length b) + digits_value R b.
Proof.
  unfold digits_value at 1. rewrite fold_left_app.
  fold (digits_value R a). apply fold_digits.
Qed.

Lemma digits_value_cons (R d : Z) (l : list Z) :
  digits_value R (d :: l) = d * R ^ Z.of_nat (length l) + digits_value R l.
Proof.
  unfold digits_value at 1. simpl fold_left. rewrite fold_digits. ring.
Qed.

Lemma digits_value_bounds (l : list Z) :
  Forall is_digit l -> 0 <= digits_value 10 l < 10 ^ Z.of_nat (length l).
Proof.
  intros Hl. induction Hl as [|d l Hd Hl IH].
  - unfold digits_value. simpl. lia.
  - rewrite digits_value_cons, length_cons, Nat2Z.inj_succ, Z.pow_succ_r by lia.
    unfold is_digit in Hd. nia.
Qed.

Lemma digits_value_zeros (n : nat) : digits_value 10 (repeat 0 n) = 0.
Proof.
  induction n as [|n IH]; [reflexivity|].
  simpl repeat. rewrite digits_value_cons, IH. lia.
Qed.

Lemma of_uint_acc_digits (u : Decimal.uint) (acc : positive) :
  Z.pos (Pos.of_uint_acc u acc)
  = fold_left (fun a d => a * 10 + d) (uint_digits u) (Z.pos acc).
Proof.
  revert acc. induction u; intros acc; simpl; try reflexivity;
    rewrite IHu; f_equal; lia.
Qed.

Lemma of_uint_digits (u : Decimal.uint) :
  Z.of_N (Pos.of_uint u) = digits_value 10 (uint_digits u).
Proof.
  unfold digits_value.
  induction u; simpl; try reflexivity; try exact IHu;
    rewrite of_uint_acc_digits; reflexivity.
Qed.

Lemma nzhead_head (u : Decimal.uint) :
  match Decimal.nzhead u with Decimal.D0 _ => False | _ => True end.
Proof. induction u; simpl; try exact I. exact IHu. Qed.

Lemma pos_digits (p : positive) :
  exists d l,
    uint_digits (Pos.to_uint p) = d :: l
    /\ 1 <= d <= 9 /\ Forall is_digit l
    /\ digits_value 10 (d :: l) = Z.pos p.
Proof.
  pose proof (Unsigned.to_of (Pos.to_uint p)) as Hnorm.
  rewrite Unsigned.of_to in Hnorm. simpl in Hnorm.
  pose proof (Unsigned.to_uint_nonzero p) as Hnz.
  pose proof (nzhead_head (Pos.to_uint p)) as Hhead.
  pose proof (of_uint_digits (Pos.to_uint p)) as Hval.
  rewrite Unsigned.of_to in Hval. simpl in Hval.
  pose proof (uint_digits_range (Pos.to_uint p)) as Hrange.
  unfold Decimal.unorm in Hnorm.
  destruct (Decimal.nzhead (Pos.to_uint p)) eqn:Hh;
    try contradiction; try (exfalso; apply Hnz; exact Hnorm);
    rewrite Hnorm in Hval, Hrange |- *; simpl in Hval, Hrange |- *;
    inversion Hrange; subst;
    eexists _, _; (split; [reflexivity|]); (split; [lia|]);
    (split; [assumption|]); symmetry; exact Hval.
Qed.

Lemma append_nil_r (s : string) : s +:+ "" = s.
Proof.
  induction s as [|c s IH]; [reflexivity|]. rewrite append_cons. f_equal. exact IH.
Qed.

Lemma strip_hex_prefix_nonzero (d : Z) (s : string) :
  1 <= d <= 9 ->
  strip_hex_prefix (String (digit_char d) s) = (10, String (digit_char d) s).
Proof.
  intros Hd. assert (H : is_digit d) by (unfold is_digit; lia).
  each_digit H; try lia; destruct s; reflexivity.
Qed.

Lemma strip_sign_digit (d : Z) (s : string) :
  is_digit d -> strip_sign (String (digit_char d) s) = (1, String (digit_char d) s).
Proof. intros H. each_digit H; reflexivity. Qed.

(** A digit string that starts with a digit other than 0 is read whole. *)
Lemma parseInt_digits (d : Z) (l : list Z) (rest : string) :
  1 <= d <= 9 -> Forall is_digit l -> digit_prefix 10 rest = [] ->
  parseInt_string (string_of_digits (d :: l) +:+ rest)
  = Some (digits_value 10 (d :: l)).
Proof.
  intros Hd Hl Hrest.
  assert (Hdig : is_digit d) by (unfold is_digit; lia).
  pose proof (digit_prefix_digits (d :: l) rest (Forall_cons_2 _ _ _ Hdig Hl) Hrest) as Hp.
  unfold parseInt_string.
  simpl string_of_digits in *. rewrite append_cons in *.
  simpl trimStart. rewrite (digit_char_not_space d Hdig).
  rewrite (strip_sign_digit d _ Hdig), (strip_hex_prefix_nonzero d _ Hd).
  rewrite Hp. f_equal. lia.
Qed.

Lemma pow10_le_lt (a b : Z) : 0 <= a -> 10 ^ a < 10 ^ b -> a < b.
Proof.
  intros Ha H. destruct (Z.lt_ge_cases a b) as [Hlt|Hge]; [exact Hlt|].
  exfalso. destruct (Z.lt_ge_cases b 0) as [Hneg|Hnn].
  - rewrite (Z.pow_neg_r 10 b Hneg) in H. pose proof (Z.pow_pos_nonneg 10 a). lia.
  - pose proof (Z.pow_le_mono_r 10 b a). lia.
Qed.

(** A number with an integer part between 1 and 10^21 is printed in
    positional notation, and [parseInt] reads its integer part. *)
Lemma parseInt_positive (s : positive) (e n : Z) :
  magnitude_trunc s e = n -> 1 <= n < 10 ^ 21 ->
  parseInt_string (positive_toString s e) = Some n.
Proof.
  intros Hn Hrange.
  destruct (pos_digits s) as (d & l & Hdl & Hd & Hl & Hval).
  assert (Hdig : is_digit d) by (unfold is_digit; lia).
  pose proof (digits_value_bounds (d :: l) (Forall_cons_2 _ _ _ Hdig Hl)) as Hup.
  assert (Hlow : 10 ^ Z.of_nat (length l) <= Z.pos s).
  { rewrite <- Hval, digits_value_cons.
    pose proof (digits_value_bounds l Hl).
    pose proof (Z.pow_pos_nonneg 10 (Z.of_nat (length l))). nia. }
  rewrite Hval in Hup. rewrite length_cons, Nat2Z.inj_succ in Hup.
  unfold positive_toString, decimal_digits. simpl N.to_uint.
  rewrite string_of_uint_digits, Hdl, string_of_digits_length, length_cons,
    Nat2Z.inj_succ.
  set (k := Z.succ (Z.of_nat (length l))) in *.
  assert (Hk : 0 <= Z.of_nat (length l)) by lia.
  unfold magnitude_trunc in Hn.
  destruct (Z.leb_spec 0 e) as [He|He].
  - (* an integer: the digits, then zeros *)
    assert (Hpow : 10 ^ (Z.of_nat (length l) + e) <= n).
    { rewrite Z.pow_add_r by lia. rewrite <- Hn.
      apply Z.mul_le_mono_nonneg_r; [apply Z.pow_nonneg; lia | exact Hlow]. }
    assert (Hlt : Z.of_nat (length l) + e < 21).
    { apply pow10_le_lt; lia. }
    replace ((-5 <=? k + e) && (k + e <=? 21)) with true
      by (symmetry; apply andb_true_iff; split; apply Z.leb_le; lia).
    replace (k <=? k + e) with true by (symmetry; apply Z.leb_le; lia).
    rewrite repeat0_digits, <- string_of_digits_app, <- (append_nil_r (string_of_digits _)).
    change ((d :: l) ++ repeat 0 (Z.to_nat (k + e - k)))
      with (d :: (l ++ repeat 0 (Z.to_nat (k + e - k)))).
    rewrite parseInt_digits; [|lia| |reflexivity].
    + f_equal. change (d :: l ++ repeat 0 (Z.to_nat (k + e - k)))
        with ((d :: l) ++ repeat 0 (Z.to_nat (k + e - k))).
      rewrite digits_value_app, digits_value_zeros, Hval, repeat_length.
      replace (Z.of_nat (Z.to_nat (k + e - k))) with e by lia. lia.
    + apply Forall_app. split; [exact Hl|].
      apply List.Forall_forall. intros x Hx. apply repeat_spec in Hx. subst x.
      unfold is_digit. lia.
  - (* a fraction: the integer part, the point, the rest *)
    assert (Hpos : 0 < 10 ^ (- e)) by (apply Z.pow_pos_nonneg; lia).
    assert (Hs : 10 ^ (- e) <= Z.pos s).
    { destruct (Z.lt_ge_cases (Z.pos s) (10 ^ (- e))) as [Hsmall|Hbig]; [|exact Hbig].
      rewrite Z.div_small in Hn by lia. lia. }
    assert (Hke : 0 < k + e).
    { assert (- e < k); [|lia]. apply pow10_le_lt; lia. }
    assert (Hpow : 10 ^ (Z.of_nat (length l) + e) <= n).
    { rewrite <- Hn. apply Z.div_le_lower_bound; [exact Hpos|].
      rewrite <- Z.pow_add_r by lia.
      replace (- e + (Z.of_nat (length l) + e)) with (Z.of_nat (length l)) by lia.
      exact Hlow. }
    assert (Hlt : Z.of_nat (length l) + e < 21).
    { apply pow10_le_lt; lia. }
    replace ((-5 <=? k + e) && (k + e <=? 21)) with true
      by (symmetry; apply andb_true_iff; split; apply Z.leb_le; lia).
    replace (k <=? k + e) with false by (symmetry; apply Z.leb_gt; lia).
    replace (0 <? k + e) with true by (symmetry; apply Z.ltb_lt; lia).
    rewrite take_digits.
    destruct (Z.to_nat (k + e)) as [|N] eqn:HN; [lia|].
    simpl firstn.
    rewrite parseInt_digits; [|lia|apply Forall_take; exact Hl|reflexivity].
    f_equal. rewrite <- Hn.
    pose proof (firstn_skipn N l) as Hsplit.
    assert (Hrest : Forall is_digit (skipn N l)) by (apply Forall_drop; exact Hl).
    pose proof (digits_value_bounds _ Hrest) as Hb.
    assert (Hlen : Z.of_nat (length (skipn N l)) = - e).
    { rewrite length_skipn. lia. }
    rewrite Hlen in Hb.
    apply (Z.div_unique _ _ _ (digits_value 10 (skipn N l))); [lia|].
    rewrite <- Hval.
    change (d :: l) with ([d] ++ l). rewrite <- Hsplit at 1.
    change ([d] ++ firstn N l ++ skipn N l) with ((d :: firstn N l) ++ skipn N l).
    rewrite digits_value_app, Hlen. ring.
Qed.

Lemma digit_value_nonneg (c : ascii) (d : Z) : digit_value c = Some d -> 0 <= d.
Proof.
  unfold digit_value.
  destruct ((48 <=? code c) && (code c <=? 57)) eqn:H1.
  { intros [= <-]. apply andb_true_iff in H1. lia. }
  destruct ((97 <=? code c) && (code c <=? 122)) eqn:H2.
  { intros [= <-]. apply andb_true_iff in H2. lia. }
  destruct ((65 <=? code c) && (code c <=? 90)) eqn:H3.
  { intros [= <-]. apply andb_true_iff in H3. lia. }
  discriminate.
Qed.

Lemma digit_prefix_nonneg (R : Z) (s : string) :
  Forall (fun d => 0 <= d) (digit_prefix R s).
Proof.
  induction s as [|c s IH]; simpl; [constructor|].
  destruct (digit_value c) as [d|] eqn:Hd; [|constructor].
  destruct (d <? R); constructor; [|exact IH].
  eapply digit_value_nonneg, Hd.
Qed.

Lemma digits_value_nonneg (R : Z) (l : list Z) :
  0 <= R -> Forall (fun d => 0 <= d) l -> 0 <= digits_value R l.
Proof.
  intros HR Hl. unfold digits_value.
  assert (H : forall a, 0 <= a -> 0 <= fold_left (fun acc d => acc * R + d) l a);
    [|apply H; lia].
  induction Hl as [|d l Hd Hl IH]; intros a Ha; simpl; [exact Ha|].
  apply IH. nia.
Qed.

(** After a minus sign [parseInt] reads nothing above zero. *)
Lemma parseInt_minus (t : string) : default 0 (parseInt_string ("-" +:+ t)) <= 0.
Proof.
  unfold parseInt_string. rewrite append_cons, append_nil_l. simpl.
  destruct (strip_hex_prefix t) as [R s2] eqn:Hx.
  assert (HR : 0 <= R).
  { unfold strip_hex_prefix in Hx.
    destruct t as [|c0 [|c1 t']]; try (injection Hx as <- _; lia).
    destruct (_ && _); injection Hx as <- _; lia. }
  pose proof (digit_prefix_nonneg R s2) as Hds.
  destruct (digit_prefix R s2) as [|d ds] eqn:Hp; simpl; [lia|].
  pose proof (digits_value_nonneg R (d :: ds) HR Hds). lia.
Qed.

Lemma clamp_confidence_inv (co : value) (c : Z) :
  clamp_confidence co = Ok c ->
  exists s, ToString co = Ok s
            /\ c = Z.max 0 (Z.min 100 (default 0 (parseInt_string s))).
Proof.
  unfold clamp_confidence, parseInt, mbind, completion_bind.
  destruct (ToString co) as [s|]; [|discriminate].
  intros [= <-]. exists s. split; reflexivity.
Qed.

Lemma normalize_plain (r result co : value) (s : string) :
  plain_status result = true ->
  get result "confidence" = Ok co ->
  ToString co = Ok s ->
  exists res, normalize r result = Ok res.
Proof.
  unfold plain_status, normalize, clamp_confidence, parseInt, mbind, completion_bind.
  intros Hst Hco Hs. rewrite Hco, Hs.
  destruct (get result "status") as [st|] eqn:Hg; [|discriminate].
  assert (Hlow : exists st', call_toLowerCase (or_else st (VStr "fail")) = Ok st').
  { unfold or_else.
    destruct st as [| |[|]|[| | ]|[|]|l|p]; simpl in *;
      try discriminate; eexists; reflexivity. }
  destruct Hlow as [st' ->].
  destruct result; simpl in *; try discriminate; eexists; reflexivity.
Qed.

Lemma rule_result_parsed
  (JSON_parse : string -> completion value)
  (create : nat -> string -> completion string)
  (index : nat) (pdfText : string) (r : value) (text content : string)
  (result : value) :
  ToString r = Ok text ->
  create index (build_prompt pdfText text) = Ok content ->
  JSON_parse content = Ok result ->
  rule_result JSON_parse create index pdfText r
  = match normalize r result with
    | Ok res => res
    | Throw m => error_result r m
    end.
Proof.
  intros Ht Hc Hp. unfold rule_result. rewrite Ht, Hc, Hp. reflexivity.
Qed.

(** ** The confidence *)

(** C2.  The single-rule checker always returns a result with a confidence
    between 0 and 100.  It is the integer that [parseInt] reads off the
    string form of the confidence of the reply, 0 when it reads none (a
    missing confidence, a text without leading digits), clamped into
    [0, 100]: a negative number gives 0, and a number whose integer part is
    [n], with [1 <= n < 10^21], gives the smaller of [n] and 100, hence 100
    when the number is above 100.  From 10^21 on a number prints in exponent
    notation and only its leading digits are read. *)
Theorem confidence_parsed_and_clamped
  (JSON_parse : string -> completion value)
  (create : nat -> string -> completion string)
  (index : nat) (pdfText : string) (r : value) (w : world) :
  exists res w',
    checkRuleWithLLM JSON_parse create index pdfText r w = (Returned res, w')
    /\ 0 <= confidence res <= 100
    /\ forall text content result co,
         ToString r = Ok text ->
         create index (build_prompt pdfText text) = Ok content ->
         JSON_parse content = Ok result ->
         get result "confidence" = Ok co ->
         (forall s, ToString co = Ok s -> parseInt_string s = None ->
                    confidence res = 0)
         /\ (co = VUndef -> confidence res = 0)
         /\ (forall s e, co = VNum (NFin true s e) -> confidence res = 0)
         /\ (plain_status result = true ->
             forall s, ToString co = Ok s ->
                       confidence res
                       = Z.max 0 (Z.min 100 (default 0 (parseInt_string s))))
         /\ (plain_status result = true ->
             forall x n, co = VNum x -> trunc x = Some n -> 1 <= n < 10 ^ 21 ->
                         confidence res = Z.min 100 n)
         /\ (plain_status result = true ->
             forall x n, co = VNum x -> trunc x = Some n -> 100 <= n < 10 ^ 21 ->
                         confidence res = 100).
Proof.
  rewrite checkRuleWithLLM_run. eexists _, _. split; [reflexivity|].
  split.
  { destruct (rule_result_cases JSON_parse create index pdfText r)
      as [[m ->] | (text & content & result & _ & _ & _ & Hn)]; [simpl; lia|].
    destruct (normalize_inv _ _ _ Hn) as (st & co & _ & _ & _ & Hc).
    destruct (clamp_confidence_inv _ _ Hc) as (s & _ & ->). lia. }
  intros text content result co Ht Hc Hp Hco.
  rewrite (rule_result_parsed _ _ _ _ _ _ _ _ Ht Hc Hp).
  assert (Hany : forall s, ToString co = Ok s ->
            confidence (match normalize r result with
                        | Ok res => res
                        | Throw m => error_result r m
                        end) = 0
            \/ confidence (match normalize r result with
                           | Ok res => res
                           | Throw m => error_result r m
                           end)
               = Z.max 0 (Z.min 100 (default 0 (parseInt_string s)))).
  { intros s Hs. destruct (normalize r result) as [res|m] eqn:Hn; [|left; reflexivity].
    destruct (normalize_inv _ _ _ Hn) as (st & co' & _ & _ & Hco' & Hcl).
    rewrite Hco in Hco'. injection Hco' as <-.
    destruct (clamp_confidence_inv _ _ Hcl) as (s' & Hs' & ->).
    rewrite Hs in Hs'. injection Hs' as <-. right. reflexivity. }
  assert (Hplain : plain_status result = true -> forall s, ToString co = Ok s ->
            confidence (match normalize r result with
                        | Ok res => res
                        | Throw m => error_result r m
                        end)
            = Z.max 0 (Z.min 100 (default 0 (parseInt_string s)))).
  { intros Hst s Hs.
    destruct (normalize_plain r result co s Hst Hco Hs) as [res Hn].
    rewrite Hn.
    destruct (normalize_inv _ _ _ Hn) as (st & co' & _ & _ & Hco' & Hcl).
    rewrite Hco in Hco'. injection Hco' as <-.
    destruct (clamp_confidence_inv _ _ Hcl) as (s' & Hs' & ->).
    rewrite Hs in Hs'. injection Hs' as <-. reflexivity. }
  assert (Hnum : plain_status result = true ->
            forall x n, co = VNum x -> trunc x = Some n -> 1 <= n < 10 ^ 21 ->
            confidence (match normalize r result with
                        | Ok res => res
                        | Throw m => error_result r m
                        end) = Z.min 100 n).
  { intros Hst x n -> Hx Hn.
    rewrite (Hplain Hst _ eq_refl).
    destruct x as [|[|] s e|neg]; simpl in Hx; try discriminate;
      injection Hx as Hx.
    - lia.
    - pose proof (Z.pow_pos_nonneg 10 e).
      pose proof (Z.pow_pos_nonneg 10 (- e)).
      assert (0 <= magnitude_trunc s e); [|lia].
      unfold magnitude_trunc. destruct (0 <=? e) eqn:He.
      + apply Z.leb_le in He. lia.
      + apply Z.leb_gt in He. apply Z.div_pos; lia.
    - simpl Number_toString. rewrite append_nil_l.
      rewrite (parseInt_positive s e n Hx Hn). simpl. lia. }
  split.
  { intros s Hs Hnone. destruct (Hany s Hs) as [H|H]; [exact H|].
    rewrite H, Hnone. reflexivity. }
  split.
  { intros ->. destruct (Hany "undefined" eq_refl) as [H|H]; [exact H|].
    rewrite H. reflexivity. }
  split.
  { intros s e ->. destruct (Hany _ eq_refl) as [H|H]; [exact H|].
    rewrite H. simpl Number_toString.
    pose proof (parseInt_minus (positive_toString s e)). lia. }
  split; [exact Hplain|].
  split; [exact Hnum|].
  intros Hst x n Hx Ht' Hn. rewrite (Hnum Hst x n Hx Ht'); lia.
Qed.

(** * The statements at sample inputs *)

(** The reply [{"status":"unknown"}] gives a result whose status is
    [unknown], neither [pass] nor [fail]. *)
Lemma unknown_status_is_kept :
  fst (checkRuleWithLLM sample_parse (reply_with unknown_text) 0 "Published 2024"
         (VStr "Document mentions a date.") (sample_world sample_pdf sample_bytes))
  = Returned (mkRuleResult (VStr "Document mentions a date.") "unknown"
                (VStr "No evidence found") (VStr "Unable to determine") 0)
  /\ "unknown" <> "pass" /\ "unknown" <> "fail".
Proof. split; [vm_compute; reflexivity | split; discriminate]. Qed.

(** The reply [{"status":"PASS","confidence":1e21}] carries a confidence
    above 100 and gives the confidence 1: the number prints as [1e+21]. *)
Lemma huge_confidence_reads_one :
  fst (checkRuleWithLLM sample_parse (reply_with huge_text) 0 "Published 2024"
         (VStr "Document mentions a date.") (sample_world sample_pdf sample_bytes))
  = Returned (mkRuleResult (VStr "Document mentions a date.") "pass"
                (VStr "No evidence found") (VStr "Unable to determine") 1)
  /\ get huge_reply "confidence" = Ok (VNum (NFin false 1 21))
  /\ Number_toString (NFin false 1 21) = "1e+21"
  /\ trunc (NFin false 1 21) = Some (10 ^ 21)
  /\ 100 < 10 ^ 21
  /\ 1 <> 100.
Proof. repeat split; try (vm_compute; reflexivity); discriminate. Qed.

(** A text file uploaded with valid rules is read and given to the
    extractor, and the request is answered 500, not 400. *)
Lemma text_upload_reaches_extractor :
  mimetype sample_notes <> "application/pdf"
  /\ check_pdf sample_parse extract_fails unreachable_service
       (mkRequest (Some sample_notes) (VStr three_rules_text)) []
       (sample_world sample_notes sample_text_bytes)
     = (Returned tt,
        mkWorld ∅
          [EvRead (path sample_notes); EvExtract sample_text_bytes;
           EvUnlink (path sample_notes);
           EvSend 500 (BFailure "Failed to process PDF" "Invalid PDF structure")]).
Proof. split; [discriminate | vm_compute; reflexivity]. Qed.

(** For the three rules of the example the second result has the rule
    field [Empty rule], not the empty string, and an evidence field. *)
Lemma empty_rule_is_renamed :
  check_pdf sample_parse (extract_as "Published 2024") (reply_with "{}")
    (mkRequest (Some sample_pdf) (VStr three_rules_text)) [2; 0]%nat
    (sample_world sample_pdf sample_bytes)
  = (Returned tt,
     mkWorld ∅
       [EvRead (path sample_pdf); EvExtract sample_bytes; EvUnlink (path sample_pdf);
        EvLLM 0 (build_prompt "Published 2024" "Document mentions a date.");
        EvLLM 2 (build_prompt "Published 2024" "Document has a summary.");
        EvSend 200
          (BResults
             [mkRuleResult (VStr "Document mentions a date.") "fail"
                (VStr "No evidence found") (VStr "Unable to determine") 0;
              mkRuleResult (VStr "Empty rule") "fail" (VStr "No rule provided")
                (VStr "Rule is empty or invalid") 0;
              mkRuleResult (VStr "Document has a summary.") "fail"
                (VStr "No evidence found") (VStr "Unable to determine") 0])])
  /\ VStr "Empty rule" <> VStr "".
Proof. split; [vm_compute; reflexivity | discriminate]. Qed.

(** The reply [{"status":"PASS","confidence":1e21}] gives the status
    [pass], and the reply [{"status":"unknown"}] the status [unknown]. *)
Lemma status_is_fail_or_lowercased_witness :
  (exists res w',
     checkRuleWithLLM sample_parse (reply_with huge_text) 0 "Published 2024"
       (VStr "Document mentions a date.") (sample_world sample_pdf sample_bytes)
     = (Returned res, w')
     /\ status res = "pass")
  /\ (exists res w',
        checkRuleWithLLM sample_parse (reply_with unknown_text) 0 "Published 2024"
          (VStr "Document mentions a date.") (sample_world sample_pdf sample_bytes)
        = (Returned res, w')
        /\ status res = "unknown").
Proof.
  split.
  - destruct (status_is_fail_or_lowercased sample_parse (reply_with huge_text) 0%nat
                "Published 2024" (VStr "Document mentions a date.")
                (sample_world sample_pdf sample_bytes))
      as (res & w' & Hrun & _ & Hreply & _).
    exists res, w'. split; [exact Hrun|].
    destruct (Hreply "Document mentions a date." huge_text huge_reply
                eq_refl eq_refl eq_refl) as (_ & _ & Hexact & _).
    apply (Hexact "PASS" (VNum (NFin false 1 21)) 1);
      [reflexivity | discriminate | reflexivity | vm_compute; reflexivity].
  - destruct (status_is_fail_or_lowercased sample_parse (reply_with unknown_text) 0%nat
                "Published 2024" (VStr "Document mentions a date.")
                (sample_world sample_pdf sample_bytes))
      as (res & w' & Hrun & _ & Hreply & _).
    exists res, w'. split; [exact Hrun|].
    destruct (Hreply "Document mentions a date." unknown_text unknown_reply
                eq_refl eq_refl eq_refl) as (_ & _ & Hexact & _).
    apply (Hexact "unknown" VUndef 0);
      [reflexivity | discriminate | reflexivity | vm_compute; reflexivity].
Defined.

(** A reply with confidence 250: the result has confidence 100. *)
Lemma confidence_parsed_and_clamped_witness :
  exists res w',
    checkRuleWithLLM sample_parse (reply_with eager_text) 0 "Published 2024"
      (VStr "Document mentions a date.") (sample_world sample_pdf sample_bytes)
    = (Returned res, w')
    /\ confidence res = 100.
Proof.
  destruct (confidence_parsed_and_clamped sample_parse (reply_with eager_text) 0%nat
              "Published 2024" (VStr "Document mentions a date.")
              (sample_world sample_pdf sample_bytes))
    as (res & w' & Hrun & _ & Hreply).
  exists res, w'. split; [exact Hrun|].
  destruct (Hreply "Document mentions a date." eager_text eager_reply
              (VNum (NFin false 25 1)) eq_refl eq_refl eq_refl eq_refl)
    as (_ & _ & _ & _ & _ & Hlarge).
  apply (Hlarge eq_refl (NFin false 25 1) 250 eq_refl eq_refl).
  split; [lia | reflexivity].
Defined.

(** The service is down: the rule fails with the message of the error, and
    the request is still answered 200. *)
Lemma llm_failure_is_contained_witness :
  (forall w0,
     checkRuleWithLLM sample_parse unreachable_service 0 "Published 2024"
       (VStr "Document mentions a date.") w0
     = (Returned (mkRuleResult (VStr "Document mentions a date.") "fail"
                    (VStr "Error processing rule")
                    (VStr "Failed to analyze: Connection error.") 0),
        mkWorld (files w0)
          (trace w0
           ++ [EvLLM 0 (build_prompt "Published 2024" "Document mentions a date.")])))
  /\ exists results calls,
       check_pdf sample_parse (extract_as "Published 2024") unreachable_service
         (mkRequest (Some sample_pdf) (VStr three_rules_text))
         [0; 1; 2]%nat (sample_world sample_pdf sample_bytes)
       = (Returned tt,
          mkWorld (delete (path sample_pdf) (files (sample_world sample_pdf sample_bytes)))
            ((trace (sample_world sample_pdf sample_bytes)
              ++ [EvRead (path sample_pdf); EvExtract sample_bytes;
                  EvUnlink (path sample_pdf)] ++ calls)
             ++ [EvSend 200 (BResults results)]))
       /\ results !! 0%nat
          = Some (mkRuleResult (VStr "Document mentions a date.") "fail"
                    (VStr "Error processing rule")
                    (VStr "Failed to analyze: Connection error.") 0).
Proof.
  destruct (llm_failure_is_contained sample_parse unreachable_service 0%nat
              "Published 2024" (VStr "Document mentions a date.")
              "Document mentions a date." "Connection error."
              eq_refl (or_introl eq_refl)) as [Hchecker Hrequest].
  split; [exact Hchecker|].
  destruct (Hrequest (extract_as "Published 2024")
              (mkRequest (Some sample_pdf) (VStr three_rules_text))
              [0; 1; 2]%nat (sample_world sample_pdf sample_bytes)
              sample_pdf sample_bytes three_rules)
    as (results & calls & Hrun & Hat & _); try reflexivity.
  - intros r' [<-|[<-|[<-|[]]]]; reflexivity.
  - intros j Hj. simpl in Hj |- *. lia.
  - exists results, calls. split; [exact Hrun | exact Hat].
Defined.

(** The text file of the example, with an extractor that throws. *)
Lemma upload_type_is_not_checked_witness :
  check_pdf sample_parse extract_fails unreachable_service
    (mkRequest (Some sample_notes) (VStr three_rules_text)) []
    (sample_world sample_notes sample_text_bytes)
  = (Returned tt,
     mkWorld (delete (path sample_notes) (files (sample_world sample_notes sample_text_bytes)))
       (trace (sample_world sample_notes sample_text_bytes)
        ++ [EvRead (path sample_notes); EvExtract sample_text_bytes;
            EvUnlink (path sample_notes);
            EvSend 500 (BFailure "Failed to process PDF" "Invalid PDF structure")])).
Proof.
  destruct (upload_type_is_not_checked sample_parse extract_fails unreachable_service
              (mkRequest (Some sample_notes) (VStr three_rules_text)) []
              (sample_world sample_notes sample_text_bytes)
              sample_notes sample_text_bytes (VArr three_rules)
              eq_refl eq_refl eq_refl eq_refl) as (_ & _ & Hthrows & _).
  apply Hthrows. reflexivity.
Defined.

(** The three rules of the example: three results, whatever the order of
    the replies. *)
Lemma results_follow_rule_order_witness :
  exists results : list RuleResult,
    length results = 3%nat
    /\ forall sched : list nat,
         (forall i, (i < 3)%nat -> In i sched) ->
         exists calls,
           check_pdf sample_parse (extract_as "Published 2024") (reply_with "{}")
             (mkRequest (Some sample_pdf) (VStr three_rules_text))
             sched (sample_world sample_pdf sample_bytes)
           = (Returned tt,
              mkWorld (delete (path sample_pdf)
                         (files (sample_world sample_pdf sample_bytes)))
                ((trace (sample_world sample_pdf sample_bytes)
                  ++ [EvRead (path sample_pdf); EvExtract sample_bytes;
                      EvUnlink (path sample_pdf)] ++ calls)
                 ++ [EvSend 200 (BResults results)])).
Proof.
  destruct (results_follow_rule_order sample_parse (extract_as "Published 2024")
              (reply_with "{}")
              (mkRequest (Some sample_pdf) (VStr three_rules_text))
              (sample_world sample_pdf sample_bytes)
              sample_pdf sample_bytes three_rules "Published 2024"
              eq_refl eq_refl eq_refl)
    as (results & Hlen & _ & Hsend); try reflexivity.
  - discriminate.
  - intros r' [<-|[<-|[<-|[]]]]; reflexivity.
  - exists results. split; [exact Hlen|].
    intros sched Hsched. destruct (Hsend sched Hsched) as (calls & Hrun & _).
    exists calls. exact Hrun.
Defined.

(** A rule of two spaces. *)
Lemma blank_rule_fails_without_llm_witness :
  check_rule sample_parse (reply_with "{}") "Published 2024" 1 (VStr "  ")
    (sample_world sample_pdf sample_bytes)
  = (Returned (Settled (Ok (mkRuleResult (VStr "  ") "fail" (VStr "No rule provided")
                              (VStr "Rule is empty or invalid") 0))),
     sample_world sample_pdf sample_bytes).
Proof.
  apply (blank_rule_fails_without_llm sample_parse (reply_with "{}")
           "Published 2024" 1%nat "  " (sample_world sample_pdf sample_bytes)).
  reflexivity.
Defined.

(** The example with its replies arriving last rule first. *)
Lemma three_rules_example_witness :
  exists calls,
    check_pdf sample_parse (extract_as "Published 2024") (reply_with "{}")
      (mkRequest (Some sample_pdf) (VStr three_rules_text)) [2; 0]%nat
      (sample_world sample_pdf sample_bytes)
    = (Returned tt,
       mkWorld (delete (path sample_pdf) (files (sample_world sample_pdf sample_bytes)))
         ((trace (sample_world sample_pdf sample_bytes)
           ++ [EvRead (path sample_pdf); EvExtract sample_bytes;
               EvUnlink (path sample_pdf)] ++ calls)
          ++ [EvSend 200
                (BResults
                   [rule_result sample_parse (reply_with "{}") 0 "Published 2024"
                      (VStr "Document mentions a date.");
                    mkRuleResult (VStr "Empty rule") "fail" (VStr "No rule provided")
                      (VStr "Rule is empty or invalid") 0;
                    rule_result sample_parse (reply_with "{}") 2 "Published 2024"
                      (VStr "Document has a summary.")])])).
Proof.
  destruct (three_rules_example sample_parse (extract_as "Published 2024")
              (reply_with "{}") [2; 0]%nat (sample_world sample_pdf sample_bytes)
              sample_pdf sample_bytes "Published 2024"
              eq_refl eq_refl eq_refl eq_refl)
    as (calls & Hrun & _).
  - simpl. lia.
  - simpl. lia.
  - exists calls. exact Hrun.
Defined.

(** The upload of the example is gone after the request. *)
Lemma upload_deleted_once_witness :
  files (snd (check_pdf sample_parse (extract_as "Published 2024") (reply_with "{}")
                (mkRequest (Some sample_pdf) (VStr three_rules_text)) [2; 0]%nat
                (sample_world sample_pdf sample_bytes)))
  !! path sample_pdf = None.
Proof.
  destruct (upload_deleted_once sample_parse (extract_as "Published 2024")
              (reply_with "{}")
              (mkRequest (Some sample_pdf) (VStr three_rules_text)) [2; 0]%nat
              (sample_world sample_pdf sample_bytes) sample_pdf sample_bytes
              eq_refl eq_refl)
    as (out & w' & before & after & Hrun & _ & _ & _ & _ & Hgone & _).
  rewrite Hrun. exact Hgone.
Defined.

(** A short text is embedded whole and gets no marker. *)
Lemma prompt_embeds_truncated_text_witness :
  excerpt "Published 2024" = "Published 2024" /\ marker "Published 2024" = "".
Proof.
  destruct (prompt_embeds_truncated_text sample_parse (reply_with "{}") 0%nat
              "Published 2024" (VStr "Document mentions a date.")
              "Document mentions a date." (sample_world sample_pdf sample_bytes)
              eq_refl)
    as (_ & _ & _ & _ & _ & Hwhole & _ & Hnone).
  split; [apply Hwhole | apply Hnone]; simpl; lia.
Defined.

(** The rules [["Document mentions a date.",1]]. *)
Lemma non_string_rule_rejects_request_witness :
  exists calls,
    check_pdf sample_parse (extract_as "Published 2024") (reply_with "{}")
      (mkRequest (Some sample_pdf) (VStr mixed_rules_text)) [0]%nat
      (sample_world sample_pdf sample_bytes)
    = (Returned tt,
       mkWorld (delete (path sample_pdf) (files (sample_world sample_pdf sample_bytes)))
         ((trace (sample_world sample_pdf sample_bytes)
           ++ [EvRead (path sample_pdf); EvExtract sample_bytes;
               EvUnlink (path sample_pdf)] ++ calls)
          ++ [EvSend 500
                (BFailure "Failed to process PDF" "rule.trim is not a function")])).
Proof.
  destruct (non_string_rule_rejects_request sample_parse
              (extract_as "Published 2024") (reply_with "{}")
              (mkRequest (Some sample_pdf) (VStr mixed_rules_text)) [0]%nat
              (sample_world sample_pdf sample_bytes) sample_pdf sample_bytes
              mixed_rules "Published 2024" 1%nat (VNum (NFin false 1 0))
              eq_refl eq_refl eq_refl eq_refl eq_refl eq_refl eq_refl)
    as (_ & calls & Hrun & _).
  - intros s. discriminate.
  - exists calls. exact Hrun.
Defined.

(** * Further properties of the request handler *)

Lemma no_rules_iff (v : value) :
  no_rules v = false <-> exists r rest, v = VArr (r :: rest).
Proof.
  split.
  - unfold no_rules. destruct v as [| |b|x|s|[|r rest]|p]; simpl;
      try (destruct b); try (destruct x); try (destruct s); try discriminate.
    intros _. exists r, rest. reflexivity.
  - intros (r & rest & ->). reflexivity.
Qed.

Lemma no_text_iff (pdfText : string) :
  no_text pdfText = true <-> whitespace_only pdfText = true.
Proof.
  unfold no_text. rewrite orb_true_iff, !length_zero_iff, trim_empty_iff.
  split; [intros [->|H]; [reflexivity | exact H] | intros H; right; exact H].
Qed.

Lemma collect_length (tasks : list task) (order : list nat)
  (values : list (option RuleResult)) (rs : list RuleResult) :
  collect tasks order values = Returned rs -> length rs = length values.
Proof.
  revert values. induction order as [|i order IH]; intros values; simpl.
  - destruct (filled values) as [vs|] eqn:Hf; [|discriminate].
    intros [= <-]. apply filled_Some in Hf. subst values.
    rewrite length_map. reflexivity.
  - destruct (filled values) as [vs|] eqn:Hf.
    + intros [= <-]. apply filled_Some in Hf. subst values.
      rewrite length_map. reflexivity.
    + destruct (tasks !! i) as [t|]; [|apply IH].
      destruct (settlement t) as [v|m]; [|discriminate].
      intros H. apply IH in H. rewrite length_insert in H. exact H.
Qed.

Lemma filter_none {A : Type} (p : A -> bool) (l : list A) :
  (forall x, In x l -> p x = false) -> List.filter p l = [].
Proof.
  induction l as [|x l IH]; intros H; simpl; [reflexivity|].
  rewrite (H x (or_introl eq_refl)). apply IH.
  intros y Hy. apply H. right. exact Hy.
Qed.

(** X1.  A request without an uploaded file is answered 400 with the error
    [No PDF file uploaded], whatever its rules field: the rules are not
    parsed, and no file is read or deleted. *)
Theorem request_without_file
  (JSON_parse : string -> completion value)
  (pdfParse : list Byte.byte -> completion string)
  (create : nat -> string -> completion string)
  (req : request) (sched : list nat) (w : world)
  (Hfile : file req = None) :
  check_pdf JSON_parse pdfParse create req sched w
  = (Returned tt,
     mkWorld (files w) (trace w ++ [EvSend 400 (BError "No PDF file uploaded")]))
  /\ forall JSON_parse' pdfParse' create' rules' sched',
       check_pdf JSON_parse' pdfParse' create' (mkRequest None rules') sched' w
       = check_pdf JSON_parse pdfParse create req sched w.
Proof.
  split; [apply check_pdf_no_file, Hfile|].
  intros. rewrite !check_pdf_no_file by (try exact Hfile; reflexivity). reflexivity.
Qed.

(** X2.  With a stored upload, a rules field that does not parse is
    answered 400 [Invalid rules format], and one that parses to anything
    but a non-empty array (also a missing field) is answered 400
    [At least one rule is required]; in both cases the handler only
    deletes the upload and responds, without reading it. *)
Theorem invalid_rules_are_rejected
  (JSON_parse : string -> completion value)
  (pdfParse : list Byte.byte -> completion string)
  (create : nat -> string -> completion string)
  (req : request) (sched : list nat) (w : world)
  (f : upload) (buffer : list Byte.byte)
  (Hfile : file req = Some f)
  (Hstored : files w !! path f = Some buffer) :
  (forall text m,
     body_rules req = VStr text -> JSON_parse text = Throw m ->
     check_pdf JSON_parse pdfParse create req sched w
     = (Returned tt,
        mkWorld (delete (path f) (files w))
          (trace w ++ [EvUnlink (path f); EvSend 400 (BError "Invalid rules format")])))
  /\ (forall rules,
        parse_rules JSON_parse (body_rules req) = Ok rules ->
        (forall r rest, rules <> VArr (r :: rest)) ->
        check_pdf JSON_parse pdfParse create req sched w
        = (Returned tt,
           mkWorld (delete (path f) (files w))
             (trace w ++ [EvUnlink (path f);
                          EvSend 400 (BError "At least one rule is required")])))
  /\ (body_rules req = VUndef ->
      check_pdf JSON_parse pdfParse create req sched w
      = (Returned tt,
         mkWorld (delete (path f) (files w))
           (trace w ++ [EvUnlink (path f);
                        EvSend 400 (BError "At least one rule is required")]))).
Proof.
  assert (Hnone : forall rules,
            parse_rules JSON_parse (body_rules req) = Ok rules ->
            (forall r rest, rules <> VArr (r :: rest)) ->
            check_pdf JSON_parse pdfParse create req sched w
            = (Returned tt,
               mkWorld (delete (path f) (files w))
                 (trace w ++ [EvUnlink (path f);
                              EvSend 400 (BError "At least one rule is required")]))).
  { intros rules Hp Hnot. eapply check_pdf_no_rules; try eassumption.
    destruct (no_rules rules) eqn:Hn; [reflexivity|].
    apply no_rules_iff in Hn. destruct Hn as (r & rest & ->).
    exfalso. exact (Hnot r rest eq_refl). }
  split; [|split].
  - intros text m Hb Hp. eapply check_pdf_bad_json; try eassumption.
    rewrite Hb. exact Hp.
  - exact Hnone.
  - intros Hb. apply (Hnone VUndef); [rewrite Hb; reflexivity | discriminate].
Qed.

(** X3.  When the extractor returns a text that is empty or holds only
    whitespace, the request is answered 400 [Could not extract text from
    PDF] after the upload is deleted, and the service is not called for
    any rule. *)
Theorem blank_text_is_rejected
  (JSON_parse : string -> completion value)
  (pdfParse : list Byte.byte -> completion string)
  (create : nat -> string -> completion string)
  (req : request) (sched : list nat) (w : world)
  (f : upload) (buffer : list Byte.byte) (rules : list value) (pdfText : string)
  (Hfile : file req = Some f)
  (Hstored : files w !! path f = Some buffer)
  (Hparse : parse_rules JSON_parse (body_rules req) = Ok (VArr rules))
  (Hrules : rules <> [])
  (Hext : pdfParse buffer = Ok pdfText)
  (Hblank : whitespace_only pdfText = true) :
  check_pdf JSON_parse pdfParse create req sched w
  = (Returned tt,
     mkWorld (delete (path f) (files w))
       (trace w ++ [EvRead (path f); EvExtract buffer; EvUnlink (path f);
                    EvSend 400 (BError "Could not extract text from PDF")])).
Proof.
  eapply check_pdf_no_text; try eassumption.
  - apply no_rules_iff. destruct rules as [|r rest]; [contradiction|].
    exists r, rest. reflexivity.
  - apply no_text_iff, Hblank.
Qed.

(** X4.  Whatever the request, every response the handler sends is one of:
    200 with one result per element of the parsed rules array, 400 with one
    of the four validation errors, or 500 with the error [Failed to process
    PDF] and a message; and it sends at most one response. *)
Theorem responses_are_well_formed
  (JSON_parse : string -> completion value)
  (pdfParse : list Byte.byte -> completion string)
  (create : nat -> string -> completion string)
  (req : request) (sched : list nat) (w : world)
  (Hupload : forall f, file req = Some f -> is_Some (files w !! path f)) :
  exists out w' added,
    check_pdf JSON_parse pdfParse create req sched w = (out, w')
    /\ trace w' = trace w ++ added
    /\ (length (List.filter is_send added) <= 1)%nat
    /\ forall code payload,
         In (EvSend code payload) added ->
         (code = 200
          /\ exists rules rs,
               parse_rules JSON_parse (body_rules req) = Ok (VArr rules)
               /\ payload = BResults rs /\ length rs = length rules)
         \/ (code = 400
             /\ exists msg, payload = BError msg /\ In msg validation_errors)
         \/ (code = 500
             /\ exists m, payload = BFailure "Failed to process PDF" m).
Proof.
  destruct (file req) as [f|] eqn:Hfile.
  2:{ eexists _, _, _. split; [apply check_pdf_no_file, Hfile|].
      split; [reflexivity|]. split; [simpl; lia|].
      intros code payload [[= <- <-]|[]]. right. left. split; [reflexivity|].
      eexists. split; [reflexivity|]. simpl. tauto. }
  destruct (Hupload f eq_refl) as [buffer Hstored].
  destruct (parse_rules JSON_parse (body_rules req)) as [rules|m] eqn:Hparse.
  2:{ eexists _, _, _. split; [eapply check_pdf_bad_json; eassumption|].
      split; [reflexivity|]. split; [simpl; lia|].
      intros code payload [[=]|[[= <- <-]|[]]]. right. left. split; [reflexivity|].
      eexists. split; [reflexivity|]. simpl. tauto. }
  destruct (no_rules rules) eqn:Hrules.
  { eexists _, _, _. split; [eapply check_pdf_no_rules; eassumption|].
    split; [reflexivity|]. split; [simpl; lia|].
    intros code payload [[=]|[[= <- <-]|[]]]. right. left. split; [reflexivity|].
    eexists. split; [reflexivity|]. simpl. tauto. }
  destruct (pdfParse buffer) as [pdfText|m] eqn:Hext.
  2:{ eexists _, _, _. split; [eapply check_pdf_extract_throws; eassumption|].
      split; [reflexivity|]. split; [simpl; lia|].
      intros code payload [[=]|[[=]|[[=]|[[= <- <-]|[]]]]]. right. right.
      split; [reflexivity|]. eexists. reflexivity. }
  destruct (no_text pdfText) eqn:Htext.
  { eexists _, _, _. split; [eapply check_pdf_no_text; eassumption|].
    split; [reflexivity|]. split; [simpl; lia|].
    intros code payload [[=]|[[=]|[[=]|[[= <- <-]|[]]]]]. right. left.
    split; [reflexivity|]. eexists. split; [reflexivity|]. simpl. tauto. }
  pose proof (check_pdf_processing JSON_parse pdfParse create req sched w f buffer
                Hfile Hstored rules Hparse Hrules pdfText Hext Htext) as Hrun.
  simpl in Hrun.
  destruct (proj1 (no_rules_iff rules) Hrules) as (r0 & rest & ->).
  simpl elements in Hrun.
  remember (r0 :: rest) as elems eqn:Helems.
  assert (Hcalls : forall e, In e (calls_from pdfText 0 elems) ->
                             is_send e = false).
  { intros e He.
    destruct (calls_from_elem _ _ _ _ He) as (i & r & text & _ & _ & _ & ->).
    reflexivity. }
  pose proof (filter_none is_send _ Hcalls) as Hnone.
  destruct (collect _ _ _) as [rs|m|] eqn:Hcollect.
  - eexists _, _, _. split; [exact Hrun|]. simpl.
    split; [rewrite <- app_assoc; reflexivity|].
    split.
    { simpl. rewrite List.filter_app, Hnone. simpl. lia. }
    intros code payload [[=]|[[=]|[[=]|Hin]]].
    apply in_app_iff in Hin. destruct Hin as [Hin|[[= <- <-]|[]]].
    { apply Hcalls in Hin. discriminate. }
    left. split; [reflexivity|]. exists elems, rs.
    split; [reflexivity|]. split; [reflexivity|].
    apply collect_length in Hcollect.
    rewrite length_replicate, tasks_from_length in Hcollect. exact Hcollect.
  - eexists _, _, _. split; [exact Hrun|]. simpl.
    split; [rewrite <- app_assoc; reflexivity|].
    split.
    { simpl. rewrite List.filter_app, Hnone. simpl. lia. }
    intros code payload [[=]|[[=]|[[=]|Hin]]].
    apply in_app_iff in Hin. destruct Hin as [Hin|[[= <- <-]|[]]].
    { apply Hcalls in Hin. discriminate. }
    right. right. split; [reflexivity|]. eexists. reflexivity.
  - eexists _, _, _. split; [exact Hrun|]. simpl.
    split; [reflexivity|].
    split.
    { simpl. rewrite Hnone. simpl. lia. }
    intros code payload [[=]|[[=]|[[=]|Hin]]].
    apply Hcalls in Hin. discriminate.
Qed.

Lemma is_blank_false_iff (r : value) :
  is_blank r = Ok false <-> exists s, r = VStr s /\ whitespace_only s = false.
Proof.
  split.
  - destruct r as [| |b|x|s|l|p]; try (destruct b); try (destruct x);
      try discriminate.
    rewrite is_blank_string. intros [= H]. exists s. split; [reflexivity | exact H].
  - intros (s & -> & Hs). rewrite is_blank_string, Hs. reflexivity.
Qed.

Lemma needs_reply_iff (r : value) : needs_reply r = true <-> is_blank r = Ok false.
Proof.
  rewrite is_blank_false_iff. split.
  - destruct r as [| |b|x|s|l|p]; simpl; try discriminate.
    intros H. exists s. split; [reflexivity|]. apply negb_true_iff, H.
  - intros (s & -> & Hs). simpl. rewrite Hs. reflexivity.
Qed.

Lemma calls_from_at (pdfText : string) (rules : list value) (index j : nat) (s : string) :
  rules !! j = Some (VStr s) -> whitespace_only s = false ->
  In (EvLLM (index + j) (build_prompt pdfText s)) (calls_from pdfText index rules).
Proof.
  revert index j. induction rules as [|r rest IH]; intros index j Hj Hs; [discriminate|].
  simpl. apply in_app_iff. destruct j as [|j]; simpl in Hj.
  - injection Hj as ->. left. unfold task_calls, rule_calls.
    rewrite is_blank_string, Hs. simpl. left. rewrite Nat.add_0_r. reflexivity.
  - right. replace (index + S j)%nat with (S index + j)%nat by lia.
    apply IH; assumption.
Qed.

Lemma calls_from_sorted (pdfText : string) (rules : list value) (index : nat) :
  StronglySorted lt (omap call_index (calls_from pdfText index rules))
  /\ Forall (fun i => (index <= i)%nat) (omap call_index (calls_from pdfText index rules)).
Proof.
  revert index. induction rules as [|r rest IH]; intros index; simpl.
  - split; constructor.
  - destruct (IH (S index)) as [Hsorted Hge].
    assert (Hweak : Forall (fun i => (index <= i)%nat)
                      (omap call_index (calls_from pdfText (S index) rest))).
    { eapply Forall_impl; [exact Hge|]. simpl. intros i Hi. lia. }
    rewrite omap_app. unfold task_calls, rule_calls.
    destruct (is_blank r) as [[|]|m]; simpl; try (split; assumption).
    destruct (ToString r) as [text|m]; simpl; try (split; assumption).
    split.
    + constructor; [exact Hsorted|].
      eapply Forall_impl; [exact Hge|]. simpl. intros i Hi. lia.
    + constructor; [lia | exact Hweak].
Qed.

(** X5.  Once the rules array and the text are accepted, the handler calls
    the service exactly for the rules that are strings and not blank, once
    each, in rule order and with the prompt built from the text and the
    rule; it does so before anything is known about the outcome, so also
    when the request then fails with 500 or never completes.  Blank rules
    and rules that are not strings are never sent to the service. *)
Theorem service_called_once_per_nonblank_rule
  (JSON_parse : string -> completion value)
  (pdfParse : list Byte.byte -> completion string)
  (create : nat -> string -> completion string)
  (req : request) (sched : list nat) (w : world)
  (f : upload) (buffer : list Byte.byte) (rules : list value) (pdfText : string)
  (Hfile : file req = Some f)
  (Hstored : files w !! path f = Some buffer)
  (Hparse : parse_rules JSON_parse (body_rules req) = Ok (VArr rules))
  (Hrules : rules <> [])
  (Hext : pdfParse buffer = Ok pdfText)
  (Htext : whitespace_only pdfText = false) :
  exists out calls final,
    check_pdf JSON_parse pdfParse create req sched w
    = (out,
       mkWorld (delete (path f) (files w))
         (trace w ++ [EvRead (path f); EvExtract buffer; EvUnlink (path f)]
          ++ calls ++ final))
    /\ (forall e, In e final -> is_send e = true)
    /\ (forall e, In e calls <->
          exists i s, rules !! i = Some (VStr s) /\ whitespace_only s = false
                      /\ e = EvLLM i (build_prompt pdfText s))
    /\ StronglySorted lt (omap call_index calls)
    /\ length calls = length (List.filter needs_reply rules).
Proof.
  assert (Hno : no_rules (VArr rules) = false).
  { apply no_rules_iff. destruct rules as [|r rest]; [contradiction|].
    exists r, rest. reflexivity. }
  assert (Hnt : no_text pdfText = false).
  { destruct (no_text pdfText) eqn:Hn; [|reflexivity].
    apply no_text_iff in Hn. congruence. }
  pose proof (check_pdf_processing JSON_parse pdfParse create req sched w f buffer
                Hfile Hstored (VArr rules) Hparse Hno pdfText Hext Hnt) as Hrun.
  simpl in Hrun.
  assert (Hmem : forall e, In e (calls_from pdfText 0 rules) <->
            exists i s, rules !! i = Some (VStr s) /\ whitespace_only s = false
                        /\ e = EvLLM i (build_prompt pdfText s)).
  { intros e. split.
    - intros He.
      destruct (calls_from_elem _ _ _ _ He) as (i & r & text & Hi & Hb & Ht & ->).
      apply is_blank_false_iff in Hb. destruct Hb as (s & -> & Hs).
      injection Ht as <-. exists i, s. repeat split; assumption.
    - intros (i & s & Hi & Hs & ->). apply (calls_from_at pdfText rules 0 i s Hi Hs). }
  assert (Hlen : length (calls_from pdfText 0 rules)
                 = length (List.filter needs_reply rules)).
  { generalize 0%nat. clear. induction rules as [|r rest IH]; intros k; [reflexivity|].
    simpl. rewrite length_app, IH. unfold task_calls, rule_calls.
    destruct (needs_reply r) eqn:Hn.
    - apply needs_reply_iff in Hn. rewrite Hn.
      apply is_blank_false_iff in Hn. destruct Hn as (s & -> & _). reflexivity.
    - destruct (is_blank r) as [[|]|m] eqn:Hb; try reflexivity.
      apply needs_reply_iff in Hb. congruence. }
  destruct (collect _ _ _) as [rs|m|].
  - exists (Returned tt), (calls_from pdfText 0 rules), [EvSend 200 (BResults rs)].
    split.
    { rewrite Hrun. do 2 f_equal. rewrite <- app_assoc. reflexivity. }
    split; [intros e [<-|[]]; reflexivity|].
    split; [exact Hmem|]. split; [apply calls_from_sorted | exact Hlen].
  - exists (Returned tt), (calls_from pdfText 0 rules),
      [EvSend 500 (BFailure "Failed to process PDF" m)].
    split.
    { rewrite Hrun. do 2 f_equal. rewrite <- app_assoc. reflexivity. }
    split; [intros e [<-|[]]; reflexivity|].
    split; [exact Hmem|]. split; [apply calls_from_sorted | exact Hlen].
  - exists Pending, (calls_from pdfText 0 rules), [].
    split.
    { rewrite Hrun. rewrite app_nil_r. reflexivity. }
    split; [intros e []|].
    split; [exact Hmem|]. split; [apply calls_from_sorted | exact Hlen].
Qed.

Lemma collect_pending (tasks : list task) (rs : list RuleResult) (i : nat)
  (order : list nat) (values : list (option RuleResult)) :
  map settlement tasks = map Ok rs ->
  values !! i = Some None ->
  ~ In i order ->
  collect tasks order values = Pending.
Proof.
  intros Hall. revert values.
  induction order as [|j order IH]; intros values Hi Hnot; simpl.
  - destruct (filled values) as [vs|] eqn:Hf; [|reflexivity].
    apply filled_Some in Hf. subst values.
    rewrite list_lookup_fmap in Hi. destruct (vs !! i); discriminate.
  - destruct (filled values) as [vs|] eqn:Hf.
    { apply filled_Some in Hf. subst values.
      rewrite list_lookup_fmap in Hi. destruct (vs !! i); discriminate. }
    assert (Hne : j <> i) by (intros ->; apply Hnot; left; reflexivity).
    assert (Hrest : ~ In i order) by (intros H; apply Hnot; right; exact H).
    destruct (tasks !! j) as [t|] eqn:Ht; [|apply IH; assumption].
    assert (Hs : map settlement tasks !! j = Some (settlement t)).
    { rewrite list_lookup_fmap, Ht. reflexivity. }
    rewrite Hall, list_lookup_fmap in Hs.
    destruct (rs !! j) as [v|]; [|discriminate].
    simpl in Hs. injection Hs as Hs. rewrite <- Hs.
    apply IH; [|exact Hrest].
    rewrite list_lookup_insert_ne by exact Hne. exact Hi.
Qed.

(** X6.  The handler has no timeout: when every rule is a string or no
    rule at all and the reply for one rule that is not blank never
    arrives, the upload is deleted and the service has been called, but no
    response is ever sent. *)
Theorem missing_reply_leaves_request_pending
  (JSON_parse : string -> completion value)
  (pdfParse : list Byte.byte -> completion string)
  (create : nat -> string -> completion string)
  (req : request) (sched : list nat) (w : world)
  (f : upload) (buffer : list Byte.byte) (rules : list value) (pdfText : string)
  (i : nat) (s : string)
  (Hfile : file req = Some f)
  (Hstored : files w !! path f = Some buffer)
  (Hparse : parse_rules JSON_parse (body_rules req) = Ok (VArr rules))
  (Hplain : forall r, In r rules -> plain_rule r = true)
  (Hext : pdfParse buffer = Ok pdfText)
  (Htext : whitespace_only pdfText = false)
  (Hi : rules !! i = Some (VStr s))
  (Hs : whitespace_only s = false)
  (Hmissing : ~ In i sched) :
  exists calls,
    check_pdf JSON_parse pdfParse create req sched w
    = (Pending,
       mkWorld (delete (path f) (files w))
         (trace w ++ [EvRead (path f); EvExtract buffer; EvUnlink (path f)] ++ calls))
    /\ In (EvLLM i (build_prompt pdfText s)) calls
    /\ forall e, In e calls -> is_llm e = true.
Proof.
  assert (Hno : no_rules (VArr rules) = false).
  { apply no_rules_iff. destruct rules as [|r rest]; [discriminate|].
    exists r, rest. reflexivity. }
  assert (Hnt : no_text pdfText = false).
  { destruct (no_text pdfText) eqn:Hn; [|reflexivity].
    apply no_text_iff in Hn. congruence. }
  exists (calls_from pdfText 0 rules).
  split; [|split; [apply (calls_from_at pdfText rules 0 i s Hi Hs)
                  | intros e He; eapply calls_from_llm, He]].
  rewrite (check_pdf_processing JSON_parse pdfParse create req sched w f buffer
             Hfile Hstored (VArr rules) Hparse Hno pdfText Hext Hnt).
  simpl.
  assert (Ht : tasks_from JSON_parse create pdfText 0 rules !! i
               = Some (Awaiting (Ok (rule_result JSON_parse create i pdfText (VStr s))))).
  { rewrite tasks_from_lookup, Hi. simpl. unfold rule_task.
    rewrite is_blank_string, Hs. reflexivity. }
  rewrite (collect_pending _ (imap (plain_result JSON_parse create pdfText) rules) i).
  - reflexivity.
  - apply plain_tasks_settle, Hplain.
  - apply lookup_replicate. split; [reflexivity|].
    apply lookup_lt_Some in Ht. exact Ht.
  - unfold settle_order. rewrite in_app_iff, !filter_In, Ht. simpl.
    intros [[_ H]|[H _]]; [discriminate | exact (Hmissing H)].
Qed.

(** * Further properties of the single-rule checker *)

(** X7.  A reply that parses to [null], or whose status is truthy but not
    a string (a number, [true], an array, an object), makes the
    normalisation throw a TypeError, which the checker turns into the error
    result: status [fail], evidence [Error processing rule] and confidence
    0, whatever evidence and confidence the reply carries. *)
Theorem malformed_reply_fails_rule
  (JSON_parse : string -> completion value)
  (create : nat -> string -> completion string)
  (index : nat) (pdfText : string) (r : value) (text content : string)
  (result : value)
  (Hrule : ToString r = Ok text)
  (Hreply : create index (build_prompt pdfText text) = Ok content)
  (Hparse : JSON_parse content = Ok result)
  (Hbad : result = VNull
          \/ exists st, get result "status" = Ok st /\ truthy st = true
                        /\ forall s, st <> VStr s) :
  exists m,
    forall w,
      checkRuleWithLLM JSON_parse create index pdfText r w
      = (Returned (mkRuleResult r "fail" (VStr "Error processing rule")
                     (VStr ("Failed to analyze: " +:+ m)) 0),
         mkWorld (files w) (trace w ++ [EvLLM index (build_prompt pdfText text)])).
Proof.
  assert (Hthrow : exists m, normalize r result = Throw m).
  { destruct Hbad as [->|(st & Hst & Ht & Hns)].
    - eexists. reflexivity.
    - unfold normalize, mbind, completion_bind. rewrite Hst.
      unfold or_else. rewrite Ht.
      destruct st as [| |b|x|s|l|p]; simpl; try (eexists; reflexivity).
      exfalso. exact (Hns s eq_refl). }
  destruct Hthrow as [m Hm]. exists m. intros w.
  rewrite checkRuleWithLLM_run.
  rewrite (rule_result_parsed _ _ _ _ _ _ _ _ Hrule Hreply Hparse), Hm.
  unfold rule_calls. rewrite Hrule. reflexivity.
Qed.

Lemma truthy_or_else (a : value) (s : string) :
  s <> "" -> truthy (or_else a (VStr s)) = true.
Proof.
  intros Hs. unfold or_else. destruct (truthy a) eqn:Ha; [exact Ha|].
  destruct s; [contradiction | reflexivity].
Qed.

(** X8.  The evidence and the reasoning of every result of the checker are
    truthy: a missing, [null] or empty evidence of the reply is replaced by
    [No evidence found], a missing or empty reasoning by [Unable to
    determine], any other value is passed on as it is, and the error result
    carries its own texts. *)
Theorem evidence_and_reasoning_are_never_empty
  (JSON_parse : string -> completion value)
  (create : nat -> string -> completion string)
  (index : nat) (pdfText : string) (r : value) (w : world) :
  exists res w',
    checkRuleWithLLM JSON_parse create index pdfText r w = (Returned res, w')
    /\ truthy (evidence res) = true
    /\ truthy (reasoning res) = true
    /\ forall text content result ev re,
         ToString r = Ok text ->
         create index (build_prompt pdfText text) = Ok content ->
         JSON_parse content = Ok result ->
         normalize r result = Ok res ->
         get result "evidence" = Ok ev ->
         get result "reasoning" = Ok re ->
         evidence res = (if truthy ev then ev else VStr "No evidence found")
         /\ reasoning res = (if truthy re then re else VStr "Unable to determine").
Proof.
  rewrite checkRuleWithLLM_run. eexists _, _. split; [reflexivity|].
  assert (Hnorm : forall result res,
            normalize r result = Ok res ->
            exists ev re,
              get result "evidence" = Ok ev /\ get result "reasoning" = Ok re
              /\ evidence res = or_else ev (VStr "No evidence found")
              /\ reasoning res = or_else re (VStr "Unable to determine")).
  { intros result res. unfold normalize, mbind, completion_bind.
    destruct (get result "status"); [|discriminate].
    destruct (call_toLowerCase _); [|discriminate].
    destruct (get result "evidence") as [ev|]; [|discriminate].
    destruct (get result "reasoning") as [re|]; [|discriminate].
    destruct (get result "confidence"); [|discriminate].
    destruct (clamp_confidence _); [|discriminate].
    intros [= <-]. exists ev, re. repeat split; reflexivity. }
  destruct (rule_result_cases JSON_parse create index pdfText r)
    as [[m Hm] | (text & content & result & Ht & Hc & Hp & Hn)].
  - rewrite Hm. split; [reflexivity|]. split; [reflexivity|].
    intros text content result ev re Ht Hc Hp Hn.
    destruct (Hnorm _ _ Hn) as (ev' & re' & He & Hr & Hev & Hre).
    intros He' Hr'. rewrite He in He'. rewrite Hr in Hr'.
    injection He' as <-. injection Hr' as <-. split; [exact Hev | exact Hre].
  - destruct (Hnorm _ _ Hn) as (ev & re & He & Hr & Hev & Hre).
    split; [rewrite Hev; apply truthy_or_else; discriminate|].
    split; [rewrite Hre; apply truthy_or_else; discriminate|].
    intros text' content' result' ev' re' Ht' Hc' Hp' Hn'.
    destruct (Hnorm _ _ Hn') as (ev2 & re2 & He2 & Hr2 & Hev2 & Hre2).
    intros He' Hr'. rewrite He2 in He'. rewrite Hr2 in Hr'.
    injection He' as <-. injection Hr' as <-. split; [exact Hev2 | exact Hre2].
Qed.

(** * Further properties of the confidence *)

Lemma leading_digit_spec (s : positive) :
  exists l,
    uint_digits (Pos.to_uint s) = leading_digit s :: l
    /\ 1 <= leading_digit s <= 9 /\ Forall is_digit l
    /\ 10 ^ Z.of_nat (length l) <= Z.pos s < 10 ^ Z.succ (Z.of_nat (length l)).
Proof.
  destruct (pos_digits s) as (d & l & Hdl & Hd & Hl & Hval).
  exists l. unfold leading_digit. rewrite Hdl.
  split; [reflexivity|]. split; [exact Hd|]. split; [exact Hl|].
  assert (Hdig : is_digit d) by (unfold is_digit; lia).
  pose proof (digits_value_bounds (d :: l) (Forall_cons_2 _ _ _ Hdig Hl)) as Hup.
  rewrite Hval, length_cons, Nat2Z.inj_succ in Hup.
  split; [|lia].
  rewrite <- Hval, digits_value_cons.
  pose proof (digits_value_bounds l Hl).
  pose proof (Z.pow_pos_nonneg 10 (Z.of_nat (length l))). nia.
Qed.

(** In exponent notation only the first digit stands before the point or
    the [e], and [parseInt] reads that digit. *)
Lemma parseInt_exponent (s : positive) (e : Z) :
  (let n := Z.of_nat (String.length (decimal_digits (Npos s))) + e in
   n < -5 \/ 21 < n) ->
  parseInt_string (positive_toString s e) = Some (leading_digit s).
Proof.
  destruct (leading_digit_spec s) as (l & Hdl & Hd & Hl & _).
  unfold positive_toString, decimal_digits. simpl N.to_uint.
  rewrite string_of_uint_digits, Hdl, string_of_digits_length.
  intros Hn. simpl in Hn.
  replace ((-5 <=? Z.of_nat (length (leading_digit s :: l)) + e)
           && (Z.of_nat (length (leading_digit s :: l)) + e <=? 21)) with false.
  2:{ symmetry. apply andb_false_iff.
      destruct Hn as [Hn|Hn]; [left; apply Z.leb_gt | right; apply Z.leb_gt]; exact Hn. }
  destruct l as [|d2 l'].
  - change (string_of_digits [leading_digit s])
      with (String (digit_char (leading_digit s)) EmptyString).
    cbv iota beta.
    change (str (digit_char (leading_digit s)))
      with (string_of_digits [leading_digit s]).
    rewrite (parseInt_digits (leading_digit s) [] _ Hd); [|constructor|reflexivity].
    reflexivity.
  - change (string_of_digits (leading_digit s :: d2 :: l'))
      with (String (digit_char (leading_digit s))
              (String (digit_char d2) (string_of_digits l'))).
    cbv iota beta.
    change (str (digit_char (leading_digit s)))
      with (string_of_digits [leading_digit s]).
    rewrite (parseInt_digits (leading_digit s) [] _ Hd); [|constructor|reflexivity].
    reflexivity.
Qed.

(** X9.  A confidence of 1e21 or more, or a positive one below 1e-6, is
    printed in exponent notation, of which [parseInt] reads only the first
    digit: the confidence of the result is then the leading digit of the
    number, between 1 and 9, however large the number is. *)
Theorem exponent_notation_reads_leading_digit (s : positive) (e : Z)
  (Hrange : 10 ^ 21 <= magnitude_trunc s e
            \/ (e < 0 /\ Z.pos s * 10 ^ 6 < 10 ^ (- e))) :
  1 <= leading_digit s <= 9
  /\ clamp_confidence (VNum (NFin false s e)) = Ok (leading_digit s).
Proof.
  destruct (leading_digit_spec s) as (l & Hdl & Hd & Hl & Hlow & Hup).
  split; [exact Hd|].
  unfold clamp_confidence, parseInt, mbind, completion_bind. simpl ToString.
  rewrite append_nil_l, parseInt_exponent; [simpl; f_equal; lia|].
  unfold decimal_digits. simpl N.to_uint.
  rewrite string_of_uint_digits, Hdl, string_of_digits_length, length_cons,
    Nat2Z.inj_succ.
  simpl.
  assert (Hk : 0 <= Z.of_nat (length l)) by lia.
  destruct Hrange as [Hbig | [He Hsmall]].
  - right. unfold magnitude_trunc in Hbig.
    destruct (Z.leb_spec 0 e) as [He|He].
    + apply pow10_le_lt; [lia|].
      rewrite Z.pow_add_r by lia.
      apply Z.le_lt_trans with (Z.pos s * 10 ^ e); [exact Hbig|].
      apply Z.mul_lt_mono_pos_r; [apply Z.pow_pos_nonneg; lia | exact Hup].
    + assert (Hpos : 0 < 10 ^ (- e)) by (apply Z.pow_pos_nonneg; lia).
      pose proof (Z.mul_div_le (Z.pos s) (10 ^ (- e)) Hpos) as Hdiv.
      assert (21 + - e < Z.succ (Z.of_nat (length l))); [|lia].
      apply pow10_le_lt; [lia|].
      rewrite Z.pow_add_r by lia.
      apply Z.le_lt_trans with (Z.pos s); [|exact Hup].
      apply Z.le_trans with (10 ^ (- e) * (Z.pos s / 10 ^ (- e))); [|exact Hdiv].
      rewrite Z.mul_comm. apply Z.mul_le_mono_nonneg_l; [lia | exact Hbig].
  - left.
    assert (Z.of_nat (length l) + 6 < - e); [|lia].
    apply pow10_le_lt; [lia|].
    rewrite Z.pow_add_r by lia.
    apply Z.le_lt_trans with (Z.pos s * 10 ^ 6); [|exact Hsmall].
    apply Z.mul_le_mono_nonneg_r; [apply Z.pow_nonneg; lia | exact Hlow].
Qed.

(** X10.  A positive confidence below 1 but not below 1e-6 is printed as
    [0.] followed by its digits, and [parseInt] reads the 0 before the
    point: the confidence of the result is 0. *)
Theorem small_fraction_reads_zero (s : positive) (e : Z)
  (He : e < 0)
  (Hbelow : Z.pos s < 10 ^ (- e))
  (Habove : 10 ^ (- e) <= Z.pos s * 10 ^ 6) :
  magnitude_trunc s e = 0
  /\ clamp_confidence (VNum (NFin false s e)) = Ok 0.
Proof.
  destruct (leading_digit_spec s) as (l & Hdl & Hd & Hl & Hlow & Hup).
  split.
  { unfold magnitude_trunc. destruct (Z.leb_spec 0 e); [lia|].
    apply Z.div_small. lia. }
  unfold clamp_confidence, parseInt, mbind, completion_bind. simpl ToString.
  rewrite append_nil_l.
  unfold positive_toString, decimal_digits. simpl N.to_uint.
  rewrite string_of_uint_digits, Hdl, string_of_digits_length, length_cons,
    Nat2Z.inj_succ.
  set (k := Z.succ (Z.of_nat (length l))) in *.
  assert (Hk : 0 <= Z.of_nat (length l)) by lia.
  assert (Hn0 : k + e <= 0).
  { assert (Z.of_nat (length l) < - e); [|lia].
    apply pow10_le_lt; [lia|]. lia. }
  assert (Hn5 : -5 <= k + e).
  { assert (- e < k + 6); [|lia].
    apply pow10_le_lt; [lia|].
    rewrite Z.pow_add_r by lia.
    apply Z.le_lt_trans with (Z.pos s * 10 ^ 6); [exact Habove|].
    apply Z.mul_lt_mono_pos_r; [apply Z.pow_pos_nonneg; lia | exact Hup]. }
  replace ((-5 <=? k + e) && (k + e <=? 21)) with true
    by (symmetry; apply andb_true_iff; split; apply Z.leb_le; lia).
  replace (k <=? k + e) with false by (symmetry; apply Z.leb_gt; lia).
  replace (0 <? k + e) with false by (symmetry; apply Z.ltb_ge; lia).
  reflexivity.
Qed.

Lemma trimStart_whitespace_app (ws s : string) :
  whitespace_only ws = true -> trimStart (ws +:+ s) = trimStart s.
Proof.
  induction ws as [|c ws IH]; [reflexivity|].
  simpl whitespace_only. intros H. apply andb_true_iff in H. destruct H as [Hc Hws].
  rewrite append_cons. simpl trimStart. rewrite Hc. apply IH, Hws.
Qed.

Lemma parseInt_leading_whitespace (ws s : string) :
  whitespace_only ws = true -> parseInt_string (ws +:+ s) = parseInt_string s.
Proof.
  intros H. unfold parseInt_string. rewrite trimStart_whitespace_app by exact H.
  reflexivity.
Qed.

Lemma code_chr (c : ascii) (n : Z) : code c = n -> c = chr n.
Proof.
  intros <-. unfold code, chr. rewrite N2Z.id, ascii_N_embedding. reflexivity.
Qed.

(** Decimal digits do not start with the prefix [0x], unless they are the
    single digit 0 and an [x] follows. *)
Lemma strip_hex_prefix_decimal (l : list Z) (rest : string) :
  l <> [] -> Forall is_digit l ->
  (l = [0] -> first_char rest <> Some "x"%char /\ first_char rest <> Some "X"%char) ->
  strip_hex_prefix (string_of_digits l +:+ rest) = (10, string_of_digits l +:+ rest).
Proof.
  intros Hne Hl Hhex. destruct l as [|d [|d2 l']]; [contradiction| |].
  - inversion Hl as [|? ? Hd _]; subst.
    simpl string_of_digits. rewrite append_cons, append_nil_l.
    each_digit Hd; try (destruct rest; reflexivity).
    destruct (Hhex eq_refl) as [Hx HX].
    destruct rest as [|c rest']; [reflexivity|].
    unfold strip_hex_prefix.
    destruct (code c =? 120) eqn:E1.
    { apply Z.eqb_eq, code_chr in E1. subst c. exfalso. apply Hx. reflexivity. }
    destruct (code c =? 88) eqn:E2.
    { apply Z.eqb_eq, code_chr in E2. subst c. exfalso. apply HX. reflexivity. }
    rewrite andb_false_r. reflexivity.
  - inversion Hl as [|? ? Hd Hl']; subst. inversion Hl' as [|? ? Hd2 _]; subst.
    simpl string_of_digits. rewrite !append_cons.
    unfold strip_hex_prefix.
    replace (code (digit_char d2) =? 120) with false by (each_digit Hd2; reflexivity).
    replace (code (digit_char d2) =? 88) with false by (each_digit Hd2; reflexivity).
    rewrite andb_false_r. reflexivity.
Qed.

(** A run of decimal digits that is not the prefix [0x] is read whole, in
    base 10, leading zeros included. *)
Lemma parseInt_decimal (l : list Z) (rest : string) :
  l <> [] -> Forall is_digit l -> digit_prefix 10 rest = [] ->
  (l = [0] -> first_char rest <> Some "x"%char /\ first_char rest <> Some "X"%char) ->
  parseInt_string (string_of_digits l +:+ rest) = Some (digits_value 10 l)
  /\ parseInt_string ("+" +:+ string_of_digits l +:+ rest) = Some (digits_value 10 l).
Proof.
  intros Hne Hl Hrest Hhex.
  pose proof (digit_prefix_digits l rest Hl Hrest) as Hp.
  pose proof (strip_hex_prefix_decimal l rest Hne Hl Hhex) as Hx.
  destruct l as [|d l']; [contradiction|].
  inversion Hl as [|? ? Hd Hl']; subst.
  unfold parseInt_string. rewrite append_cons, append_nil_l.
  simpl string_of_digits in *. rewrite append_cons in *.
  simpl trimStart. rewrite (digit_char_not_space d Hd).
  rewrite (strip_sign_digit d _ Hd). simpl strip_sign.
  split; rewrite Hx, Hp; f_equal; lia.
Qed.

(** After the prefix [0x] the digits are read in base 16. *)
Lemma parseInt_hex (x : ascii) (t : string) :
  x = "x"%char \/ x = "X"%char ->
  default 0 (parseInt_string (String "0" (String x t)))
  = digits_value 16 (digit_prefix 16 t).
Proof.
  intros [-> | ->]; unfold parseInt_string; simpl;
    destruct (digit_prefix 16 t) as [|d ds]; try reflexivity;
    simpl default; lia.
Qed.

(** X11.  A confidence given as a string is read as [parseInt] reads it.
    Leading whitespace is skipped.  A run of decimal digits, leading zeros
    included, that ends at a character which is not a decimal digit is read
    in base 10 and whatever follows is ignored, so that [" 85%"] gives 85,
    ["007"] gives 7 and ["120 percent"] gives 100; a plus sign before the
    digits changes nothing.  The one exception is a single 0 followed by [x]
    or [X]: after this prefix the longest run of hexadecimal digits is read
    in base 16, so that ["0x1F"] gives 31 and ["0x"] alone gives 0.  After a
    minus sign the confidence is 0 whatever follows. *)
Theorem string_confidence_reads_leading_integer
  (ws : string) (l : list Z) (rest : string)
  (Hws : whitespace_only ws = true)
  (Hne : l <> [])
  (Hl : Forall is_digit l)
  (Hrest : digit_prefix 10 rest = [])
  (Hhex : l = [0] ->
          first_char rest <> Some "x"%char /\ first_char rest <> Some "X"%char) :
  clamp_confidence (VStr (ws +:+ string_of_digits l +:+ rest))
  = Ok (Z.min 100 (digits_value 10 l))
  /\ clamp_confidence (VStr (ws +:+ "+" +:+ string_of_digits l +:+ rest))
     = Ok (Z.min 100 (digits_value 10 l))
  /\ 0 <= digits_value 10 l
  /\ (forall (x : ascii) (t : string),
        x = "x"%char \/ x = "X"%char ->
        clamp_confidence (VStr (ws +:+ String "0" (String x t)))
        = Ok (Z.min 100 (digits_value 16 (digit_prefix 16 t)))
        /\ 0 <= digits_value 16 (digit_prefix 16 t))
  /\ (forall t : string, clamp_confidence (VStr (ws +:+ "-" +:+ t)) = Ok 0).
Proof.
  pose proof (digits_value_bounds l Hl) as [Hpos _].
  assert (Hclamp : forall s,
            clamp_confidence (VStr s)
            = Ok (Z.max 0 (Z.min 100 (default 0 (parseInt_string s)))))
    by reflexivity.
  destruct (parseInt_decimal l rest Hne Hl Hrest Hhex) as [Hplain Hplus].
  split; [|split; [|split; [exact Hpos|split]]].
  - rewrite Hclamp, parseInt_leading_whitespace by exact Hws.
    rewrite Hplain. simpl. f_equal. lia.
  - rewrite Hclamp, parseInt_leading_whitespace by exact Hws.
    rewrite Hplus. simpl. f_equal. lia.
  - intros x t Hx.
    assert (H16 : 0 <= digits_value 16 (digit_prefix 16 t)).
    { apply digits_value_nonneg; [lia | apply digit_prefix_nonneg]. }
    split; [|exact H16].
    rewrite Hclamp, parseInt_leading_whitespace by exact Hws.
    rewrite (parseInt_hex x t Hx). f_equal. lia.
  - intros t.
    rewrite Hclamp, parseInt_leading_whitespace by exact Hws.
    pose proof (parseInt_minus t). f_equal. lia.
Qed.

(** X12.  A confidence that is not a number with digits to read gives 0:
    [true] and [false], [null], zero, plus and minus infinity (which
    [JSON.parse] returns for a literal such as 1e999), the empty array, an
    object that prints as [[object Object]], and every string in which
    [parseInt] finds no digits. *)
Theorem non_numeric_confidence_is_zero :
  (forall b, clamp_confidence (VBool b) = Ok 0)
  /\ clamp_confidence VNull = Ok 0
  /\ clamp_confidence (VNum NZero) = Ok 0
  /\ (forall neg, clamp_confidence (VNum (NInf neg)) = Ok 0)
  /\ clamp_confidence (VArr []) = Ok 0
  /\ (forall props, has_own "toString" props = false ->
                    clamp_confidence (VObj props) = Ok 0)
  /\ (forall s, parseInt_string s = None -> clamp_confidence (VStr s) = Ok 0)
  /\ (forall props, has_own "toString" props = true ->
                    exists m, clamp_confidence (VObj props) = Throw m).
Proof.
  split; [intros [|]; reflexivity|].
  split; [reflexivity|].
  split; [reflexivity|].
  split; [intros [|]; reflexivity|].
  split; [reflexivity|].
  split.
  { intros props H. unfold clamp_confidence, parseInt, mbind, completion_bind.
    simpl ToString. rewrite H. reflexivity. }
  split.
  { intros s H. unfold clamp_confidence, parseInt, mbind, completion_bind.
    simpl ToString. cbv beta iota. rewrite H. reflexivity. }
  intros props H. unfold clamp_confidence, parseInt, mbind, completion_bind.
  simpl ToString. rewrite H. eexists. reflexivity.
Qed.

(** * Further properties of the prompt *)

(** X13.  The prompt has a fixed text of 824 characters around the rule
    and the document excerpt, so its length is 824 plus the length of the
    rule plus at most 12003: the size of the document never makes the
    prompt longer than that. *)
Theorem prompt_length_bounded (pdfText rule_text : string) :
  Z.of_nat (String.length (build_prompt pdfText rule_text))
  = 824 + Z.of_nat (String.length rule_text)
    + Z.min (Z.of_nat (String.length pdfText)) 12000
    + (if 12000 <? Z.of_nat (String.length pdfText) then 3 else 0)
  /\ Z.of_nat (String.length (build_prompt pdfText rule_text))
     <= 824 + Z.of_nat (String.length rule_text) + 12003.
Proof.
  pose proof doc_limit_Z as Hlim.
  assert (Hlen : Z.of_nat (String.length (build_prompt pdfText rule_text))
                 = 824 + Z.of_nat (String.length rule_text)
                   + Z.min (Z.of_nat (String.length pdfText)) 12000
                   + (if 12000 <? Z.of_nat (String.length pdfText) then 3 else 0)).
  { unfold build_prompt, prompt_before. rewrite !append_length.
    unfold excerpt. rewrite substring_length.
    replace (String.length prompt_after) with 720%nat by (vm_compute; reflexivity).
    unfold marker.
    destruct (Nat.ltb_spec doc_limit (String.length pdfText)) as [H|H];
      destruct (Z.ltb_spec 12000 (Z.of_nat (String.length pdfText))) as [H'|H'];
      try lia; simpl String.length; lia. }
  split; [exact Hlen|]. rewrite Hlen.
  destruct (12000 <? Z.of_nat (String.length pdfText)); lia.
Qed.

(** * Properties of the client *)

Lemma validRules_elem (l : list (option string)) (s : string) :
  In s (Client.validRules l) <-> In (Some s) l /\ whitespace_only s = false.
Proof.
  induction l as [|[s'|] rest IH]; simpl.
  - tauto.
  - assert (Hkeep : (0 <? String.length (trim s'))%nat = negb (whitespace_only s')).
    { destruct (whitespace_only s') eqn:Hw.
      - apply trim_empty_iff in Hw. rewrite Hw. reflexivity.
      - destruct (trim s') eqn:Ht; [|reflexivity].
        apply trim_empty_iff in Ht. congruence. }
    rewrite Hkeep. destruct (whitespace_only s') eqn:Hw; simpl.
    + rewrite IH. split.
      * intros [H1 H2]. split; [right; exact H1 | exact H2].
      * intros [[[= ->]|H1] H2]; [congruence | split; assumption].
    + rewrite IH. split.
      * intros [->|[H1 H2]]; [split; [left; reflexivity | exact Hw]|].
        split; [right; exact H1 | exact H2].
      * intros [[[= ->]|H1] H2]; [left; reflexivity | right; split; assumption].
  - rewrite IH. split.
    + intros [H1 H2]. split; [right; exact H1 | exact H2].
    + intros [[H|H1] H2]; [discriminate | split; assumption].
Qed.

Lemma validRules_length (l : list (option string)) :
  (length (Client.validRules l) <= length l)%nat.
Proof.
  induction l as [|[s|] rest IH]; simpl; [lia| |lia].
  destruct (0 <? String.length (trim s))%nat; simpl; lia.
Qed.

Lemma shown_message_nonempty (m : string) : Client.shown_message m <> "".
Proof. destruct m; discriminate. Qed.

Lemma step_keeps_invariant
  (JSON_stringify : list string -> string)
  (fetch : Client.submission -> Client.fetched)
  (a : Client.action) (st : Client.state) :
  client_invariant st -> client_invariant (Client.step JSON_stringify fetch a st).
Proof.
  intros (Hlen & Hholes & Hpdf & Hload & Herr).
  unfold client_invariant.
  destruct a as [chosen|index v|]; simpl.
  - unfold Client.handleFileChange.
    destruct chosen as [f|];
      [destruct (String.eqb_spec (Client.type f) "application/pdf") as [Hty|Hty]|];
      simpl.
    + split; [exact Hlen|]. split; [exact Hholes|].
      split; [intros f' [= <-]; exact Hty|]. split; [exact Hload | discriminate].
    + split; [exact Hlen|]. split; [exact Hholes|].
      split; [discriminate|]. split; [exact Hload | discriminate].
    + split; [exact Hlen|]. split; [exact Hholes|].
      split; [discriminate|]. split; [exact Hload | discriminate].
  - destruct (Nat.ltb_spec index (length (Client.rules st))) as [Hin|Hout];
      [|repeat split; assumption].
    unfold Client.handleRuleChange, Client.assign. simpl.
    destruct (Nat.ltb_spec index (length (Client.rules st))) as [_|Hge]; [|lia].
    split; [rewrite length_insert; exact Hlen|].
    split; [|split; [exact Hpdf | split; [exact Hload | exact Herr]]].
    intros r Hr. apply list_elem_of_In, list_elem_of_lookup in Hr.
    destruct Hr as [j Hj].
    destruct (decide (index = j)) as [<-|Hne].
    + rewrite list_lookup_insert_eq in Hj by exact Hin. injection Hj as <-.
      discriminate.
    + rewrite list_lookup_insert_ne in Hj by exact Hne.
      apply Hholes, list_elem_of_In. eapply list_elem_of_lookup_2. exact Hj.
  - unfold Client.handleCheck.
    destruct (Client.pdfFile st) as [f|] eqn:Hf; simpl.
    + destruct (Nat.eqb _ 0); simpl.
      * split; [exact Hlen|]. split; [exact Hholes|].
        split; [exact Hpdf|]. split; [exact Hload | discriminate].
      * destruct (Client.exchange fetch _) as [data|m]; simpl.
        -- split; [exact Hlen|]. split; [exact Hholes|].
           split; [exact Hpdf|]. split; [reflexivity | discriminate].
        -- split; [exact Hlen|]. split; [exact Hholes|].
           split; [exact Hpdf|]. split; [reflexivity|].
           intros [= H]. exact (shown_message_nonempty m H).
    + split; [exact Hlen|]. split; [exact Hholes|].
      split; [exact Hpdf|]. split; [exact Hload | discriminate].
Qed.

(** X14.  Whatever the user does (picking files, typing into the rule
    inputs that are shown, pressing the button), the client keeps exactly
    three rule inputs, keeps a file only if its type is [application/pdf],
    is not loading between two actions and never shows an empty error; so
    every form it sends carries a PDF and between one and three rules, none
    of them blank. *)
Theorem client_sends_only_pdfs_with_nonblank_rules
  (JSON_stringify : list string -> string)
  (fetch : Client.submission -> Client.fetched)
  (actions : list Client.action) :
  let st := Client.run JSON_stringify fetch actions in
  client_invariant st
  /\ forall sub,
       In sub (snd (Client.handleCheck JSON_stringify fetch st)) ->
       Client.type (Client.form_pdf sub) = "application/pdf"
       /\ exists valid,
            Client.form_rules sub = JSON_stringify valid
            /\ (1 <= length valid <= 3)%nat
            /\ forall s, In s valid -> whitespace_only s = false.
Proof.
  intros st.
  assert (Hinv : client_invariant st).
  { unfold st, Client.run.
    assert (Hinit : client_invariant Client.initial).
    { repeat split; try reflexivity; try discriminate.
      intros r [<-|[<-|[<-|[]]]]; discriminate. }
    revert Hinit. generalize Client.initial.
    induction actions as [|a actions IH]; intros st0 H0; simpl; [exact H0|].
    apply IH, step_keeps_invariant, H0. }
  split; [exact Hinv|].
  destruct Hinv as (Hlen & _ & Hpdf & _ & _).
  intros sub. unfold Client.handleCheck.
  destruct (Client.pdfFile st) as [f|] eqn:Hf; [|intros []].
  destruct (Nat.eqb_spec (length (Client.validRules (Client.rules st))) 0) as [|Hne];
    [intros []|].
  intros Hsub.
  assert (Heq : sub = Client.mkSubmission f
                        (JSON_stringify (Client.validRules (Client.rules st)))).
  { destruct (Client.exchange fetch _); destruct Hsub as [<-|[]]; reflexivity. }
  subst sub. simpl. split; [apply Hpdf; reflexivity|].
  exists (Client.validRules (Client.rules st)). split; [reflexivity|].
  split.
  - pose proof (validRules_length (Client.rules st)). lia.
  - intros s Hs. apply validRules_elem in Hs. apply Hs.
Qed.

(** X15.  Pressing the button sends nothing exactly when no file is held
    or every rule input is blank; the client then only sets the error
    ([Please upload a PDF file], or [Please enter at least one rule]) and
    leaves the file, the rules, the loading flag and the results shown
    before as they were. *)
Theorem check_without_input_sends_nothing
  (JSON_stringify : list string -> string)
  (fetch : Client.submission -> Client.fetched)
  (st : Client.state) :
  (snd (Client.handleCheck JSON_stringify fetch st) = []
   <-> Client.pdfFile st = None
       \/ forall s, In (Some s) (Client.rules st) -> whitespace_only s = true)
  /\ (Client.pdfFile st = None ->
      Client.handleCheck JSON_stringify fetch st
      = (Client.mkState None (Client.rules st) (Client.results st)
           (Client.loading st) (Some "Please upload a PDF file"), []))
  /\ (forall f,
        Client.pdfFile st = Some f ->
        (forall s, In (Some s) (Client.rules st) -> whitespace_only s = true) ->
        Client.handleCheck JSON_stringify fetch st
        = (Client.mkState (Some f) (Client.rules st) (Client.results st)
             (Client.loading st) (Some "Please enter at least one rule"), [])).
Proof.
  assert (Hblank : Client.validRules (Client.rules st) = []
                   <-> forall s, In (Some s) (Client.rules st) ->
                                 whitespace_only s = true).
  { split.
    - intros Hnil s Hs. destruct (whitespace_only s) eqn:Hw; [reflexivity|].
      assert (Hin : In s (Client.validRules (Client.rules st)))
        by (apply validRules_elem; split; assumption).
      rewrite Hnil in Hin. destruct Hin.
    - intros Hall. destruct (Client.validRules (Client.rules st)) as [|s l] eqn:Hv;
        [reflexivity|].
      assert (Hin : In s (Client.validRules (Client.rules st)))
        by (rewrite Hv; left; reflexivity).
      apply validRules_elem in Hin. destruct Hin as [Hin Hw].
      rewrite (Hall s Hin) in Hw. discriminate. }
  unfold Client.handleCheck.
  destruct (Client.pdfFile st) as [f|] eqn:Hf.
  - destruct (Client.validRules (Client.rules st)) as [|s l] eqn:Hv; simpl.
    + split; [split; [intros _; right; apply Hblank; reflexivity | reflexivity]|].
      split; [discriminate|]. intros f' [= <-] _. reflexivity.
    + split.
      { split.
        - destruct (Client.exchange fetch _); discriminate.
        - intros [H|H]; [discriminate|]. apply Hblank in H. discriminate. }
      split; [discriminate|]. intros f' _ H. apply Hblank in H. discriminate.
  - simpl. split; [split; [intros _; left; reflexivity | reflexivity]|].
    split; [reflexivity | discriminate].
Qed.

(** X16.  When a file is held and some rule is not blank, pressing the
    button sends one form with that file and the rules that are not blank;
    afterwards the client is no longer loading and shows either the results
    of an [ok] response with no error, or no results and an error that is
    not empty.  The error of a response that is not [ok] is the [error]
    text of its body, as the server wrote it. *)
Theorem check_shows_results_or_error
  (JSON_stringify : list string -> string)
  (fetch : Client.submission -> Client.fetched)
  (st : Client.state) (f : Client.picked)
  (Hfile : Client.pdfFile st = Some f)
  (Hrules : Client.validRules (Client.rules st) <> []) :
  let sub := Client.mkSubmission f (JSON_stringify (Client.validRules (Client.rules st))) in
  let st' := fst (Client.handleCheck JSON_stringify fetch st) in
  snd (Client.handleCheck JSON_stringify fetch st) = [sub]
  /\ Client.pdfFile st' = Some f
  /\ Client.rules st' = Client.rules st
  /\ Client.loading st' = false
  /\ ((Client.error st' = None
       /\ exists data, fetch sub = Client.Response true (Ok data)
                       /\ get data "results" = Ok (Client.results st'))
      \/ (Client.results st' = VNull
          /\ exists m, Client.error st' = Some m /\ m <> ""))
  /\ (forall body msg,
        fetch sub = Client.Response false (Ok body) ->
        get body "error" = Ok (VStr msg) -> msg <> "" ->
        Client.results st' = VNull /\ Client.error st' = Some msg).
Proof.
  intros sub st'. unfold st', Client.handleCheck. rewrite Hfile.
  destruct (Nat.eqb_spec (length (Client.validRules (Client.rules st))) 0) as [H0|_].
  { destruct (Client.validRules (Client.rules st)); [contradiction | discriminate]. }
  fold sub.
  destruct (Client.exchange fetch sub) as [data|m] eqn:Hx; simpl.
  - repeat split; try reflexivity.
    + left. split; [reflexivity|].
      unfold Client.exchange in Hx.
      destruct (fetch sub) as [m|[|] json]; try discriminate.
      * simpl in Hx. unfold mbind, completion_bind in Hx.
        destruct json as [d|]; [|discriminate]. exists d. split; [reflexivity | exact Hx].
      * simpl in Hx. unfold mbind, completion_bind in Hx.
        destruct json as [d|]; [|discriminate].
        destruct (get d "error"); [|discriminate].
        destruct (ToString _); discriminate.
    + unfold Client.exchange in Hx. rewrite H in Hx. simpl in Hx.
      unfold mbind, completion_bind in Hx. rewrite H0 in Hx. simpl in Hx.
      unfold or_else in Hx. destruct msg; [contradiction | discriminate].
    + unfold Client.exchange in Hx. rewrite H in Hx. simpl in Hx.
      unfold mbind, completion_bind in Hx. rewrite H0 in Hx. simpl in Hx.
      unfold or_else in Hx. destruct msg; [contradiction | discriminate].
  - repeat split; try reflexivity.
    + right. split; [reflexivity|]. exists (Client.shown_message m).
      split; [reflexivity | apply shown_message_nonempty].
    + unfold Client.exchange in Hx. rewrite H in Hx. simpl in Hx.
      unfold mbind, completion_bind in Hx. rewrite H0 in Hx. simpl in Hx.
      unfold or_else in Hx. destruct msg as [|c msg]; [contradiction|].
      simpl in Hx. injection Hx as <-. reflexivity.
Qed.

(** * The client and the server together *)



(** * Further properties of the string operations *)

Lemma trimStart_split (s : string) :
  exists a, s = a +:+ trimStart s /\ whitespace_only a = true.
Proof.
  induction s as [|c s (a & Ha & Hw)]; [exists ""; split; reflexivity|].
  simpl. destruct (is_space c) eqn:Hc.
  - exists (String c a). rewrite append_cons, <- Ha. simpl. rewrite Hc, Hw.
    split; reflexivity.
  - exists "". split; reflexivity.
Qed.

Lemma trimEnd_split (s : string) :
  exists b, s = trimEnd s +:+ b /\ whitespace_only b = true.
Proof.
  induction s as [|c s (b & Hb & Hw)]; [exists ""; split; reflexivity|].
  simpl. destruct (trimEnd s) as [|c' t] eqn:Ht.
  - rewrite append_nil_l in Hb. subst b.
    destruct (is_space c) eqn:Hc.
    + exists (String c s). simpl. rewrite Hc, Hw. split; reflexivity.
    + exists s. split; [reflexivity | exact Hw].
  - exists b. rewrite append_cons, <- Hb. split; [reflexivity | exact Hw].
Qed.

Lemma trimEnd_last (s : string) (c : ascii) :
  last_char (trimEnd s) = Some c -> is_space c = false.
Proof.
  induction s as [|c0 s IH]; simpl; [discriminate|].
  destruct (trimEnd s) as [|c' t] eqn:Ht.
  - destruct (is_space c0) eqn:Hc; simpl; [discriminate|].
    intros [= <-]. exact Hc.
  - intros H. apply IH. exact H.
Qed.

Lemma trimEnd_first (s : string) (c : ascii) :
  first_char (trimEnd s) = Some c -> first_char s = Some c.
Proof.
  destruct s as [|c0 s]; simpl; [discriminate|].
  destruct (trimEnd s); [destruct (is_space c0)|]; simpl; try discriminate;
    intros H; exact H.
Qed.

Lemma trimEnd_idempotent (s : string) : trimEnd (trimEnd s) = trimEnd s.
Proof.
  induction s as [|c s IH]; [reflexivity|].
  simpl. destruct (trimEnd s) as [|c' t] eqn:Ht.
  - destruct (is_space c) eqn:Hc; [reflexivity|]. simpl. rewrite Hc. reflexivity.
  - change (trimEnd (String c (String c' t)))
      with (match trimEnd (String c' t) with
            | EmptyString => if is_space c then EmptyString else str c
            | u => String c u
            end).
    rewrite IH. reflexivity.
Qed.

Lemma trimStart_clean (s : string) :
  (forall c, first_char s = Some c -> is_space c = false) -> trimStart s = s.
Proof.
  destruct s as [|c s]; [reflexivity|]. intros H. simpl.
  rewrite (H c eq_refl). reflexivity.
Qed.

(** X18.  [trim] removes whitespace at both ends and nothing else: the
    string is its trimmed form between two runs of whitespace, the trimmed
    form neither starts nor ends with whitespace, and trimming it again
    changes nothing. *)
Theorem trim_strips_both_ends (s : string) :
  (exists a b,
     s = a +:+ trim s +:+ b
     /\ whitespace_only a = true /\ whitespace_only b = true)
  /\ (forall c, first_char (trim s) = Some c -> is_space c = false)
  /\ (forall c, last_char (trim s) = Some c -> is_space c = false)
  /\ trim (trim s) = trim s.
Proof.
  assert (Hfirst : forall c, first_char (trim s) = Some c -> is_space c = false).
  { intros c Hc. unfold trim in Hc. apply trimEnd_first in Hc.
    destruct (trimStart_cases s) as [[_ Ht] | [_ (c' & s' & Ht & Hs)]];
      rewrite Ht in Hc; simpl in Hc; [discriminate|].
    injection Hc as <-. exact Hs. }
  split; [|split; [exact Hfirst | split]].
  - destruct (trimStart_split s) as (a & Ha & Hwa).
    destruct (trimEnd_split (trimStart s)) as (b & Hb & Hwb).
    exists a, b. unfold trim. rewrite <- Hb, <- Ha. repeat split; assumption.
  - intros c. unfold trim. apply trimEnd_last.
  - unfold trim at 1. rewrite (trimStart_clean _ Hfirst).
    unfold trim. apply trimEnd_idempotent.
Qed.

Lemma lower_char_p (c : ascii) :
  lower_char c = "p"%char -> c = "p"%char \/ c = "P"%char.
Proof.
  destruct c as [[|] [|] [|] [|] [|] [|] [|] [|]]; vm_compute; intros H;
    try discriminate H; auto.
Qed.

Lemma lower_char_a (c : ascii) :
  lower_char c = "a"%char -> c = "a"%char \/ c = "A"%char.
Proof.
  destruct c as [[|] [|] [|] [|] [|] [|] [|] [|]]; vm_compute; intros H;
    try discriminate H; auto.
Qed.

Lemma lower_char_s (c : ascii) :
  lower_char c = "s"%char -> c = "s"%char \/ c = "S"%char.
Proof.
  destruct c as [[|] [|] [|] [|] [|] [|] [|] [|]]; vm_compute; intros H;
    try discriminate H; auto.
Qed.

(** X19.  A rule passes only when the service said so: the status of a
    result is [pass] only if the reply was parsed and its status is the
    word pass in some mix of upper and lower case. *)
Theorem rule_passes_only_if_reply_says_pass
  (JSON_parse : string -> completion value)
  (create : nat -> string -> completion string)
  (index : nat) (pdfText : string) (r : value) (w w' : world) (res : RuleResult)
  (Hrun : checkRuleWithLLM JSON_parse create index pdfText r w = (Returned res, w'))
  (Hpass : status res = "pass") :
  exists text content result c1 c2 c3 c4,
    ToString r = Ok text
    /\ create index (build_prompt pdfText text) = Ok content
    /\ JSON_parse content = Ok result
    /\ get result "status"
       = Ok (VStr (String c1 (String c2 (String c3 (String c4 EmptyString)))))
    /\ (c1 = "p" \/ c1 = "P")%char
    /\ (c2 = "a" \/ c2 = "A")%char
    /\ (c3 = "s" \/ c3 = "S")%char
    /\ (c4 = "s" \/ c4 = "S")%char.
Proof.
  rewrite checkRuleWithLLM_run in Hrun. injection Hrun as <- _.
  destruct (rule_result_cases JSON_parse create index pdfText r)
    as [[m Hm] | (text & content & result & Ht & Hc & Hp & Hn)].
  { rewrite Hm in Hpass. discriminate. }
  destruct (normalize_inv _ _ _ Hn) as (st & co & Hst & Hlow & _ & _).
  destruct (lowered_status _ _ Hlow) as [Hf | (s & -> & Hs)];
    [rewrite Hf in Hpass; discriminate|].
  rewrite Hs in Hpass. clear Hs.
  destruct s as [|c1 [|c2 [|c3 [|c4 [|c5 s]]]]]; try discriminate.
  simpl in Hpass. injection Hpass as H1 H2 H3 H4.
  exists text, content, result, c1, c2, c3, c4.
  repeat split; try assumption.
  - apply lower_char_p, H1.
  - apply lower_char_a, H2.
  - apply lower_char_s, H3.
  - apply lower_char_s, H4.
Qed.

(** * The further properties at sample inputs *)

Lemma request_without_file_witness :
  check_pdf sample_parse extract_fails unreachable_service
    (mkRequest None (VStr three_rules_text)) []
    (sample_world sample_pdf sample_bytes)
  = (Returned tt,
     mkWorld (files (sample_world sample_pdf sample_bytes))
       (trace (sample_world sample_pdf sample_bytes)
        ++ [EvSend 400 (BError "No PDF file uploaded")])).
Proof.
  destruct (request_without_file sample_parse extract_fails unreachable_service
              (mkRequest None (VStr three_rules_text)) []
              (sample_world sample_pdf sample_bytes) eq_refl) as [H _].
  exact H.
Defined.

Lemma invalid_rules_are_rejected_witness :
  check_pdf sample_parse extract_fails unreachable_service
    (mkRequest (Some sample_pdf) (VStr "[unfinished")) []
    (sample_world sample_pdf sample_bytes)
  = (Returned tt,
     mkWorld (delete (path sample_pdf) (files (sample_world sample_pdf sample_bytes)))
       (trace (sample_world sample_pdf sample_bytes)
        ++ [EvUnlink (path sample_pdf); EvSend 400 (BError "Invalid rules format")])).
Proof.
  destruct (invalid_rules_are_rejected sample_parse extract_fails unreachable_service
              (mkRequest (Some sample_pdf) (VStr "[unfinished")) []
              (sample_world sample_pdf sample_bytes) sample_pdf sample_bytes
              eq_refl eq_refl) as [H _].
  apply (H "[unfinished" "Unexpected token in JSON"); reflexivity.
Defined.

Lemma blank_text_is_rejected_witness :
  check_pdf sample_parse (extract_as "  ") unreachable_service
    (mkRequest (Some sample_pdf) (VStr three_rules_text)) []
    (sample_world sample_pdf sample_bytes)
  = (Returned tt,
     mkWorld (delete (path sample_pdf) (files (sample_world sample_pdf sample_bytes)))
       (trace (sample_world sample_pdf sample_bytes)
        ++ [EvRead (path sample_pdf); EvExtract sample_bytes;
            EvUnlink (path sample_pdf);
            EvSend 400 (BError "Could not extract text from PDF")])).
Proof.
  apply (blank_text_is_rejected sample_parse (extract_as "  ") unreachable_service
           (mkRequest (Some sample_pdf) (VStr three_rules_text)) []
           (sample_world sample_pdf sample_bytes) sample_pdf sample_bytes
           three_rules "  "); try reflexivity.
  discriminate.
Defined.

Lemma responses_are_well_formed_witness :
  exists out w' added,
    check_pdf sample_parse (extract_as "Published 2024") (reply_with "{}")
      (mkRequest (Some sample_pdf) (VStr three_rules_text)) [2; 0]%nat
      (sample_world sample_pdf sample_bytes) = (out, w')
    /\ trace w' = trace (sample_world sample_pdf sample_bytes) ++ added
    /\ (length (List.filter is_send added) <= 1)%nat.
Proof.
  destruct (responses_are_well_formed sample_parse (extract_as "Published 2024")
              (reply_with "{}")
              (mkRequest (Some sample_pdf) (VStr three_rules_text)) [2; 0]%nat
              (sample_world sample_pdf sample_bytes))
    as (out & w' & added & Hrun & Htrace & Hone & _).
  - intros f [= <-]. exists sample_bytes. reflexivity.
  - exists out, w', added. repeat split; assumption.
Defined.

Lemma service_called_once_per_nonblank_rule_witness :
  exists out calls final,
    check_pdf sample_parse (extract_as "Published 2024") (reply_with "{}")
      (mkRequest (Some sample_pdf) (VStr mixed_rules_text)) []
      (sample_world sample_pdf sample_bytes)
    = (out,
       mkWorld (delete (path sample_pdf) (files (sample_world sample_pdf sample_bytes)))
         (trace (sample_world sample_pdf sample_bytes)
          ++ [EvRead (path sample_pdf); EvExtract sample_bytes;
              EvUnlink (path sample_pdf)] ++ calls ++ final))
    /\ length calls = 1%nat.
Proof.
  destruct (service_called_once_per_nonblank_rule sample_parse
              (extract_as "Published 2024") (reply_with "{}")
              (mkRequest (Some sample_pdf) (VStr mixed_rules_text)) []
              (sample_world sample_pdf sample_bytes) sample_pdf sample_bytes
              mixed_rules "Published 2024" eq_refl eq_refl eq_refl)
    as (out & calls & final & Hrun & _ & _ & _ & Hlen); try reflexivity.
  - discriminate.
  - exists out, calls, final. split; [exact Hrun | exact Hlen].
Defined.

Lemma missing_reply_leaves_request_pending_witness :
  exists calls,
    check_pdf sample_parse (extract_as "Published 2024") (reply_with "{}")
      (mkRequest (Some sample_pdf) (VStr three_rules_text)) [0]%nat
      (sample_world sample_pdf sample_bytes)
    = (Pending,
       mkWorld (delete (path sample_pdf) (files (sample_world sample_pdf sample_bytes)))
         (trace (sample_world sample_pdf sample_bytes)
          ++ [EvRead (path sample_pdf); EvExtract sample_bytes;
              EvUnlink (path sample_pdf)] ++ calls)).
Proof.
  destruct (missing_reply_leaves_request_pending sample_parse
              (extract_as "Published 2024") (reply_with "{}")
              (mkRequest (Some sample_pdf) (VStr three_rules_text)) [0]%nat
              (sample_world sample_pdf sample_bytes) sample_pdf sample_bytes
              three_rules "Published 2024" 2%nat "Document has a summary."
              eq_refl eq_refl eq_refl)
    as (calls & Hrun & _); try reflexivity.
  - intros r [<-|[<-|[<-|[]]]]; reflexivity.
  - intros [H|[]]. discriminate.
  - exists calls. exact Hrun.
Defined.

Lemma malformed_reply_fails_rule_witness :
  exists m,
    forall w,
      checkRuleWithLLM reply_parse (reply_with "null") 0 "Published 2024"
        (VStr "Document mentions a date.") w
      = (Returned (mkRuleResult (VStr "Document mentions a date.") "fail"
                     (VStr "Error processing rule")
                     (VStr ("Failed to analyze: " +:+ m)) 0),
         mkWorld (files w)
           (trace w
            ++ [EvLLM 0 (build_prompt "Published 2024" "Document mentions a date.")])).
Proof.
  apply (malformed_reply_fails_rule reply_parse (reply_with "null") 0%nat
           "Published 2024" (VStr "Document mentions a date.")
           "Document mentions a date." "null" VNull); try reflexivity.
  left. reflexivity.
Defined.

Lemma evidence_and_reasoning_are_never_empty_witness :
  exists res w',
    checkRuleWithLLM sample_parse (reply_with "{}") 0 "Published 2024"
      (VStr "Document mentions a date.") (sample_world sample_pdf sample_bytes)
    = (Returned res, w')
    /\ truthy (evidence res) = true
    /\ truthy (reasoning res) = true.
Proof.
  destruct (evidence_and_reasoning_are_never_empty sample_parse (reply_with "{}")
              0%nat "Published 2024" (VStr "Document mentions a date.")
              (sample_world sample_pdf sample_bytes))
    as (res & w' & Hrun & He & Hr & _).
  exists res, w'. repeat split; assumption.
Defined.

Lemma exponent_notation_reads_leading_digit_witness :
  clamp_confidence (VNum (NFin false 1 21)) = Ok 1.
Proof.
  destruct (exponent_notation_reads_leading_digit 1 21) as [_ H]; [|exact H].
  left. vm_compute. discriminate.
Defined.

Lemma small_fraction_reads_zero_witness :
  clamp_confidence (VNum (NFin false 5 (-1))) = Ok 0.
Proof.
  destruct (small_fraction_reads_zero 5 (-1)) as [_ H]; [| | |exact H].
  - lia.
  - vm_compute. reflexivity.
  - vm_compute. discriminate.
Defined.

Lemma string_confidence_reads_leading_integer_witness :
  clamp_confidence (VStr " 85%") = Ok 85
  /\ clamp_confidence (VStr " 0x1F") = Ok 31
  /\ clamp_confidence (VStr " -85%") = Ok 0.
Proof.
  destruct (string_confidence_reads_leading_integer " " [8; 5] "%")
    as (Hplain & _ & _ & Hhex & Hminus).
  - reflexivity.
  - discriminate.
  - repeat constructor; unfold is_digit; lia.
  - reflexivity.
  - discriminate.
  - split; [exact Hplain|].
    split; [|exact (Hminus "85%")].
    destruct (Hhex "x"%char "1F") as [H _]; [left; reflexivity|].
    exact H.
Defined.

Lemma non_numeric_confidence_is_zero_witness :
  clamp_confidence (VObj [("value", VNum (NFin false 9 1))]) = Ok 0.
Proof.
  destruct non_numeric_confidence_is_zero as (_ & _ & _ & _ & _ & H & _).
  apply H. reflexivity.
Defined.

Lemma client_sends_only_pdfs_with_nonblank_rules_witness :
  Client.type
    (Client.form_pdf (Client.mkSubmission sample_report (stringify_plain two_rules)))
  = "application/pdf".
Proof.
  destruct (client_sends_only_pdfs_with_nonblank_rules stringify_plain
              fetch_empty_results sample_actions) as [_ H].
  destruct (H (Client.mkSubmission sample_report (stringify_plain two_rules)))
    as [Hty _]; [|exact Hty].
  vm_compute. left. reflexivity.
Defined.

Lemma check_without_input_sends_nothing_witness :
  Client.handleCheck stringify_plain fetch_empty_results Client.initial
  = (Client.mkState None (Client.rules Client.initial) (Client.results Client.initial)
       (Client.loading Client.initial) (Some "Please upload a PDF file"), []).
Proof.
  destruct (check_without_input_sends_nothing stringify_plain fetch_empty_results
              Client.initial) as (_ & H & _).
  apply H. reflexivity.
Defined.

Lemma check_shows_results_or_error_witness :
  Client.error (fst (Client.handleCheck stringify_plain fetch_no_text sample_state))
  = Some "Could not extract text from PDF".
Proof.
  destruct (check_shows_results_or_error stringify_plain fetch_no_text sample_state
              sample_report eq_refl) as (_ & _ & _ & _ & _ & H).
  - vm_compute. discriminate.
  - destruct (H (VObj [("error", VStr "Could not extract text from PDF")])
                "Could not extract text from PDF" eq_refl eq_refl) as [_ Herr];
      [discriminate | exact Herr].
Defined.


Lemma trim_strips_both_ends_witness :
  is_space "a" = false /\ trim (trim "  a b  ") = trim "  a b  ".
Proof.
  destruct (trim_strips_both_ends "  a b  ") as (_ & Hfirst & _ & Hidem).
  split; [apply Hfirst; reflexivity | exact Hidem].
Defined.

Lemma rule_passes_only_if_reply_says_pass_witness :
  exists text content result c1 c2 c3 c4,
    ToString (VStr "Document mentions a date.") = Ok text
    /\ reply_with mixed_case_text 0 (build_prompt "Published 2024" text) = Ok content
    /\ reply_parse content = Ok result
    /\ get result "status"
       = Ok (VStr (String c1 (String c2 (String c3 (String c4 EmptyString)))))
    /\ (c1 = "p" \/ c1 = "P")%char
    /\ (c2 = "a" \/ c2 = "A")%char
    /\ (c3 = "s" \/ c3 = "S")%char
    /\ (c4 = "s" \/ c4 = "S")%char.
Proof.
  apply (rule_passes_only_if_reply_says_pass reply_parse (reply_with mixed_case_text)
           0%nat "Published 2024" (VStr "Document mentions a date.")
           (sample_world sample_pdf sample_bytes)
           (mkWorld (files (sample_world sample_pdf sample_bytes))
              [EvLLM 0 (build_prompt "Published 2024" "Document mentions a date.")])
           (mkRuleResult (VStr "Document mentions a date.") "pass"
              (VStr "No evidence found") (VStr "Unable to determine") 0)).
  - vm_compute. reflexivity.
  - reflexivity.
Defined.
